(** * torchgeometry.conversions: rotation-representation converters

    A shallow embedding of [torchgeometry/conversions.py]: the three
    dual-path converters (axis-angle to rotation matrix, rotation matrix to
    quaternion, quaternion to axis-angle), their composition
    [rotation_matrix_to_angle_axis], and the type dispatch in front of them;
    then the rest of the module: the conversions between radians and
    degrees, the homogeneous coordinates, [transform_points],
    [rtvec_to_pose] and the layer classes.

    Scalars.  The arrays of the source hold IEEE floating-point numbers.
    Here a scalar is a real number or one of the three special values
    (two infinities, not-a-number); finite arithmetic is exact, and the
    special values follow the IEEE rules (0/0 and 0*inf are not-a-number,
    not-a-number is absorbing and compares false with everything).
    Rounding, overflow and underflow are outside the model, and zero
    carries no sign: a zero divisor counts as +0 (every divisor of the
    source that can vanish is the result of a square root, or of adding
    the positive [eps]). *)

From Stdlib Require Import Reals Lra Lia List String ZArith Bool Arith RNsatz.
From Stdlib Require Import DecimalString.
Import ListNotations.

(* ===================================================================== *)
(** ** Scalars *)
(* ===================================================================== *)

Inductive scalar : Type :=
| Fin (x : R)
| PInf
| NInf
| NaN.

Declare Scope fl_scope.
Delimit Scope fl_scope with fl.
Bind Scope fl_scope with scalar.

Module Fl.

Local Open Scope R_scope.

Definition finite (a : scalar) : Prop :=
  match a with Fin _ => True | _ => False end.

(** The infinity with the sign of the finite number [x]; not-a-number
    when [x] is zero (0 * inf). *)
Definition signed_inf (x : R) : scalar :=
  if Rlt_dec 0 x then PInf else if Rlt_dec x 0 then NInf else NaN.

Definition neg (a : scalar) : scalar :=
  match a with
  | Fin x => Fin (- x)
  | PInf => NInf
  | NInf => PInf
  | NaN => NaN
  end.

Definition add (a b : scalar) : scalar :=
  match a, b with
  | NaN, _ | _, NaN => NaN
  | Fin x, Fin y => Fin (x + y)
  | PInf, NInf | NInf, PInf => NaN
  | PInf, _ | _, PInf => PInf
  | NInf, _ | _, NInf => NInf
  end.

Definition sub (a b : scalar) : scalar := add a (neg b).

Definition mul (a b : scalar) : scalar :=
  match a, b with
  | NaN, _ | _, NaN => NaN
  | Fin x, Fin y => Fin (x * y)
  | Fin x, PInf | PInf, Fin x => signed_inf x
  | Fin x, NInf | NInf, Fin x => neg (signed_inf x)
  | PInf, PInf | NInf, NInf => PInf
  | PInf, NInf | NInf, PInf => NInf
  end.

Definition div (a b : scalar) : scalar :=
  match a, b with
  | NaN, _ | _, NaN => NaN
  | Fin x, Fin y =>
      if Req_dec_T y 0 then signed_inf x else Fin (x / y)
  | Fin _, (PInf | NInf) => Fin 0
  | PInf, Fin y => if Rlt_dec y 0 then NInf else PInf
  | NInf, Fin y => if Rlt_dec y 0 then PInf else NInf
  | (PInf | NInf), (PInf | NInf) => NaN
  end.

Definition sqrt (a : scalar) : scalar :=
  match a with
  | Fin x => if Rlt_dec x 0 then NaN else Fin (R_sqrt.sqrt x)
  | PInf => PInf
  | NInf | NaN => NaN
  end.

Definition sin (a : scalar) : scalar :=
  match a with Fin x => Fin (Rtrigo_def.sin x) | _ => NaN end.

Definition cos (a : scalar) : scalar :=
  match a with Fin x => Fin (Rtrigo_def.cos x) | _ => NaN end.

(** The two-argument arctangent on the reals, with values in (-PI, PI];
    zero carrying no sign, the value on the negative real axis is PI. *)
Definition Ratan2 (y x : R) : R :=
  if Rlt_dec 0 x then atan (y / x)
  else if Rlt_dec x 0 then
         (if Rlt_dec y 0 then atan (y / x) - PI else atan (y / x) + PI)
       else if Rlt_dec 0 y then PI / 2
            else if Rlt_dec y 0 then - (PI / 2)
                 else 0.

Definition atan2 (a b : scalar) : scalar :=
  match a, b with
  | NaN, _ | _, NaN => NaN
  | Fin y, Fin x => Fin (Ratan2 y x)
  | Fin y, PInf => Fin 0
  | Fin y, NInf => if Rlt_dec y 0 then Fin (- PI) else Fin PI
  | PInf, Fin _ => Fin (PI / 2)
  | NInf, Fin _ => Fin (- (PI / 2))
  | PInf, PInf => Fin (PI / 4)
  | NInf, PInf => Fin (- (PI / 4))
  | PInf, NInf => Fin (3 * PI / 4)
  | NInf, NInf => Fin (- (3 * PI / 4))
  end.

(** Comparisons give a Python/torch truth value; any comparison with
    not-a-number is false. *)
Definition lt (a b : scalar) : bool :=
  match a, b with
  | Fin x, Fin y => if Rlt_dec x y then true else false
  | NInf, (Fin _ | PInf) => true
  | Fin _, PInf => true
  | _, _ => false
  end.

Definition le (a b : scalar) : bool :=
  match a, b with
  | Fin x, Fin y => if Rle_dec x y then true else false
  | NInf, (Fin _ | PInf | NInf) => true
  | (Fin _ | PInf), PInf => true
  | _, _ => false
  end.

Definition gt (a b : scalar) : bool := lt b a.
Definition ge (a b : scalar) : bool := le b a.

End Fl.

Infix "+" := Fl.add : fl_scope.
Infix "-" := Fl.sub : fl_scope.
Infix "*" := Fl.mul : fl_scope.
Infix "/" := Fl.div : fl_scope.
Notation "- x" := (Fl.neg x) : fl_scope.
Infix "<?" := Fl.lt : fl_scope.
Infix "<=?" := Fl.le : fl_scope.
Infix ">?" := Fl.gt : fl_scope.
Infix ">=?" := Fl.ge : fl_scope.

(** A Python float or int literal. *)
Definition lit (x : R) : scalar := Fin x.

(* ===================================================================== *)
(** ** Masks, exceptions, arrays and Python values *)
(* ===================================================================== *)

(** A torch comparison yields a tensor of unsigned bytes (0 or 1); masks
    are combined with byte arithmetic, which wraps around modulo 256. *)
Module Mask.

Local Open Scope Z_scope.

Definition of_bool (b : bool) : Z := if b then 1 else 0.

Definition mul (a b : Z) : Z := (a * b) mod 256.

(** [1 - mask] *)
Definition rsub (k a : Z) : Z := (k - a) mod 256.

(** [mask == True], [mask == False] *)
Definition eq_bool (a : Z) (b : bool) : Z :=
  of_bool (Z.eqb a (of_bool b)).

(** [.type_as(x)] for a floating-point [x] *)
Definition type_as (a : Z) : scalar := Fin (IZR a).

End Mask.

Inductive exn : Type :=
| ValueError (msg : string)
| NotImplementedError (msg : string)
| NameError (msg : string)
| AssertionError (msg : string)
| IndexError (msg : string).

Inductive result (A : Type) : Type :=
| Ok (a : A)
| Raise (e : exn).

Arguments Ok {A} a.
Arguments Raise {A} e.

Definition bind {A B : Type} (r : result A) (k : A -> result B) : result B :=
  match r with
  | Ok a => k a
  | Raise e => Raise e
  end.

Notation "x <- e ;; k" := (bind e (fun x => k))
  (at level 61, e at next level, right associativity).

(** A torch tensor: its shape and its elements in row-major order. *)
Record tensor : Type := mkTensor { tshape : list nat; tdata : list scalar }.

(** A numpy array of rank one or two. *)
Inductive ndarray : Type :=
| Vec (v : list scalar)
| Mat (nrows ncols : nat) (d : list scalar).

(** The values that reach a dispatcher: a numpy array, a torch tensor, or
    an object of any other class, of which only the class name matters. *)
Inductive pyobj : Type :=
| NdArray (a : ndarray)
| Tensor (t : tensor)
| PyOther (class_name : string).

(** [type(x)] formatted by [str.format] *)
Definition type_repr (x : pyobj) : string :=
  match x with
  | NdArray _ => "<class 'numpy.ndarray'>"
  | Tensor _ => "<class 'torch.Tensor'>"
  | PyOther c => "<class '" ++ c ++ "'>"
  end.

(** The names bound at module level once [conversions.py] is imported. *)
Definition module_globals : list string :=
  [ "torch"; "nn"; "np"; "__all__"; "pi"; "rad2deg"; "deg2rad";
    "convert_points_from_homogeneous"; "convert_points_to_homogeneous";
    "transform_points"; "angle_axis_to_rotation_matrix_numpy";
    "angle_axis_to_rotation_matrix_torch"; "angle_axis_to_rotation_matrix";
    "rtvec_to_pose"; "rotation_matrix_to_quaternion";
    "quaternion_to_angle_axis"; "rotation_matrix_to_angle_axis";
    "rotation_matrix_to_quaternion_numpy"; "quaternion_to_angle_axis_numpy";
    "rotation_matrix_to_quaternion_torch"; "quaternion_to_angle_axis_torch";
    "RadToDeg"; "DegToRad"; "ConvertPointsFromHomogeneous";
    "ConvertPointsToHomogeneous"; "TransformPoints";
    "AngleAxisToRotationMatrix"; "RotationMatrixToAngleAxis";
    "RotationMatrixToQuaternion"; "QuaternionToAngleAxis"; "RtvecToPose" ]%string.

(** Reading a name inside a function body: the function's locals first,
    then the module's globals (no builtin is called [rotation_matrix]);
    an unbound name raises [NameError].  A global evaluates to an object
    whose class is not an array class. *)
Fixpoint lookup_local (locals : list (string * pyobj)) (name : string)
  : option pyobj :=
  match locals with
  | [] => None
  | (n, v) :: rest => if String.eqb n name then Some v else lookup_local rest name
  end.

Definition lookup_name (locals : list (string * pyobj)) (name : string)
  : result pyobj :=
  match lookup_local locals name with
  | Some v => Ok v
  | None =>
      if existsb (String.eqb name) module_globals
      then Ok (PyOther "object")
      else Raise (NameError ("name '" ++ name ++ "' is not defined"))
  end.

(** *** Element access *)

Local Open Scope fl_scope.

Definition item (l : list scalar) (i : nat) : scalar := nth i l NaN.

(** [n] consecutive chunks of [w] elements *)
Fixpoint chunks (n w : nat) (l : list scalar) : list (list scalar) :=
  match n with
  | O => []
  | S n' => firstn w l :: chunks n' w (skipn w l)
  end.

(** The rows of an (N, W) tensor and the matrices of an (N, R, C) tensor. *)
Definition rows (t : tensor) : list (list scalar) :=
  chunks (nth 0 (tshape t) 0%nat) (nth 1 (tshape t) 0%nat) (tdata t).

Definition mats (t : tensor) : list (list scalar) :=
  chunks (nth 0 (tshape t) 0%nat)
         (nth 1 (tshape t) 0%nat * nth 2 (tshape t) 0%nat) (tdata t).

(** [a[i]] on a numpy vector *)
Definition vitem (v : list scalar) (i : nat) : result scalar :=
  if (i <? List.length v)%nat then Ok (item v i)
  else Raise (IndexError "index out of bounds").

(** [l[i] = x] *)
Fixpoint upd (l : list scalar) (i : nat) (x : scalar) : list scalar :=
  match l, i with
  | [], _ => []
  | _ :: t, O => x :: t
  | h :: t, S i' => h :: upd t i' x
  end.

(** [a.dot(a)] on a vector, [np.linalg.norm], [torch.norm(_, dim=1)] *)
Fixpoint sum_sq (v : list scalar) : scalar :=
  match v with
  | [] => Fin 0
  | x :: t => x * x + sum_sq t
  end.

Definition norm (v : list scalar) : scalar := Fl.sqrt (sum_sq v).

(** A 3x3 block [b] (row-major) written into [eye(4)]. *)
Definition eye4_with_block (b : list scalar) : list scalar :=
  [ item b 0; item b 1; item b 2; Fin 0;
    item b 3; item b 4; item b 5; Fin 0;
    item b 6; item b 7; item b 8; Fin 0;
    Fin 0; Fin 0; Fin 0; Fin 1 ].

(** [np.finfo(np.float32).eps] = 2^-23 *)
Definition float32_eps : scalar := Fin (/ 8388608).

(** The default [eps=1e-6] of the torch functions *)
Definition default_eps : scalar := Fin (/ 1000000).

(* ===================================================================== *)
(** ** Axis-angle to rotation matrix *)
(* ===================================================================== *)

(** [angle_axis_to_rotation_matrix_numpy]: the scalar reference path.
    [angle_axis.dot(angle_axis)] is a scalar only for a vector; for a matrix
    argument numpy raises before any result is built (the shapes do not
    align, the truth value of the product is ambiguous, or a row index is
    out of bounds). *)
Definition angle_axis_to_rotation_matrix_numpy (angle_axis : ndarray)
  : result ndarray :=
  match angle_axis with
  | Vec v =>
      let k_one := lit 1 in
      let theta2 := sum_sq v in
      if theta2 >? float32_eps then
        let theta := Fl.sqrt theta2 in
        a0 <- vitem v 0 ;; let wx := a0 / theta in
        a1 <- vitem v 1 ;; let wy := a1 / theta in
        a2 <- vitem v 2 ;; let wz := a2 / theta in
        let cos_theta := Fl.cos theta in
        let sin_theta := Fl.sin theta in
        let r00 := cos_theta + wx * wx * (k_one - cos_theta) in
        let r10 := wz * sin_theta + wx * wy * (k_one - cos_theta) in
        let r20 := - wy * sin_theta + wx * wz * (k_one - cos_theta) in
        let r01 := wx * wy * (k_one - cos_theta) - wz * sin_theta in
        let r11 := cos_theta + wy * wy * (k_one - cos_theta) in
        let r21 := wx * sin_theta + wy * wz * (k_one - cos_theta) in
        let r02 := wy * sin_theta + wx * wz * (k_one - cos_theta) in
        let r12 := - wx * sin_theta + wy * wz * (k_one - cos_theta) in
        let r22 := cos_theta + wz * wz * (k_one - cos_theta) in
        Ok (Mat 4 4 (eye4_with_block
                       [r00; r01; r02; r10; r11; r12; r20; r21; r22]))
      else
        a2 <- vitem v 2 ;;
        a1 <- vitem v 1 ;;
        a0 <- vitem v 0 ;;
        Ok (Mat 4 4 (eye4_with_block
                       [k_one; - a2; a1; a2; k_one; - a0; - a1; a0; k_one]))
  | Mat r c _ =>
      if negb (c =? r)%nat then Raise (ValueError "shapes not aligned")
      else if (2 <=? r)%nat then
             Raise (ValueError "The truth value of an array is ambiguous")
           else Raise (IndexError "index out of bounds")
  end.

(** The two candidate 3x3 blocks of the torch path, for one batch row. *)
Definition _compute_rotation_matrix (eps : scalar)
           (angle_axis : list scalar) (theta2 : scalar) : list scalar :=
  let k_one := lit 1 in
  let theta := Fl.sqrt theta2 in
  let wxyz := map (fun a => a / (theta + eps)) angle_axis in
  let wx := item wxyz 0 in
  let wy := item wxyz 1 in
  let wz := item wxyz 2 in
  let cos_theta := Fl.cos theta in
  let sin_theta := Fl.sin theta in
  let r00 := cos_theta + wx * wx * (k_one - cos_theta) in
  let r10 := wz * sin_theta + wx * wy * (k_one - cos_theta) in
  let r20 := - wy * sin_theta + wx * wz * (k_one - cos_theta) in
  let r01 := wx * wy * (k_one - cos_theta) - wz * sin_theta in
  let r11 := cos_theta + wy * wy * (k_one - cos_theta) in
  let r21 := wx * sin_theta + wy * wz * (k_one - cos_theta) in
  let r02 := wy * sin_theta + wx * wz * (k_one - cos_theta) in
  let r12 := - wx * sin_theta + wy * wz * (k_one - cos_theta) in
  let r22 := cos_theta + wz * wz * (k_one - cos_theta) in
  [r00; r01; r02; r10; r11; r12; r20; r21; r22].

Definition _compute_rotation_matrix_taylor (angle_axis : list scalar)
  : list scalar :=
  let rx := item angle_axis 0 in
  let ry := item angle_axis 1 in
  let rz := item angle_axis 2 in
  let k_one := lit 1 in
  [k_one; - rz; ry; rz; k_one; - rx; - ry; rx; k_one].

(** One row of [angle_axis_to_rotation_matrix_torch]: both candidates are
    computed and blended with the masks. *)
Definition angle_axis_to_rotation_matrix_row (eps : scalar)
           (angle_axis : list scalar) : list scalar :=
  let theta2 := sum_sq angle_axis in
  let rotation_matrix_normal := _compute_rotation_matrix eps angle_axis theta2 in
  let rotation_matrix_taylor := _compute_rotation_matrix_taylor angle_axis in
  let mask := Mask.of_bool (theta2 >? eps) in
  let mask_pos := Mask.type_as mask in
  let mask_neg := Mask.type_as (Mask.eq_bool mask false) in
  eye4_with_block
    (map (fun nt => mask_pos * fst nt + mask_neg * snd nt)
         (combine rotation_matrix_normal rotation_matrix_taylor)).

(** [angle_axis_to_rotation_matrix_torch]: an (N, 3) tensor to (N, 4, 4). *)
Definition angle_axis_to_rotation_matrix_torch (angle_axis : tensor)
           (eps : scalar) : tensor :=
  let batch_size := nth 0 (tshape angle_axis) 0%nat in
  mkTensor [batch_size; 4; 4]%nat
           (flat_map (angle_axis_to_rotation_matrix_row eps) (rows angle_axis)).

Definition angle_axis_to_rotation_matrix (angle_axis : pyobj) : result pyobj :=
  match angle_axis with
  | NdArray a =>
      r <- angle_axis_to_rotation_matrix_numpy a ;; Ok (NdArray r)
  | Tensor t =>
      if negb ((List.length (tshape t) =? 2)%nat
               && (nth 1 (tshape t) 0 =? 3)%nat)
      then Raise (ValueError "Input must be a two dimensional torch.Tensor.")
      else Ok (Tensor (angle_axis_to_rotation_matrix_torch t default_eps))
  | PyOther _ =>
      Raise (NotImplementedError
               ("Not suported type " ++ type_repr angle_axis))
  end.

(* ===================================================================== *)
(** ** Rotation matrix to quaternion *)
(* ===================================================================== *)

(** [rotation_matrix_to_quaternion_numpy]: the scalar reference path, on a
    matrix with at least three rows and columns. *)
Definition rotation_matrix_to_quaternion_numpy (rotation_matrix : ndarray)
  : result ndarray :=
  match rotation_matrix with
  | Vec _ => Raise (IndexError "too many indices for array")
  | Mat nr nc d =>
      if ((nr <? 3) || (nc <? 3))%nat
      then Raise (IndexError "index out of bounds")
      else
        let R (i j : nat) := item d (i * nc + j) in
        let quaternion := [lit 0; lit 0; lit 0; lit 0] in
        let trace := R 0 0 + R 1 1 + R 2 2 in
        let quaternion :=
          if trace >=? lit 0 then
            let t := Fl.sqrt (trace + lit 1) in
            let quaternion := upd quaternion 0 (lit (1/2) * t) in
            let t := lit (1/2) / t in
            let quaternion := upd quaternion 1 ((R 2 1 - R 1 2) * t) in
            let quaternion := upd quaternion 2 ((R 0 2 - R 2 0) * t) in
            let quaternion := upd quaternion 3 ((R 1 0 - R 0 1) * t) in
            quaternion
          else
            let i := 0%nat in
            let i := if R 1 1 >? R 0 0 then 1%nat else i in
            let i := if R 2 2 >? R i i then 2%nat else i in
            let j := ((i + 1) mod 3)%nat in
            let k := ((j + 1) mod 3)%nat in
            let t := Fl.sqrt (R i i - R j j - R k k + lit 1) in
            let quaternion := upd quaternion (i + 1) (lit (1/2) * t) in
            let t := lit (1/2) / t in
            let quaternion := upd quaternion 0 ((R k j - R j k) * t) in
            let quaternion := upd quaternion (j + 1) ((R j i + R i j) * t) in
            let quaternion := upd quaternion (k + 1) ((R k i + R i k) * t) in
            quaternion in
        let n := norm quaternion in
        Ok (Vec (map (fun q => q / n) quaternion))
  end.

(** The four selection masks of the torch path for one batch element, from
    the diagonal of the (transposed) matrix. *)
Definition mask_d2 (eps d2 : scalar) : Z := Mask.of_bool (d2 <? eps).
Definition mask_d0_d1 (d0 d1 : scalar) : Z := Mask.of_bool (d0 >? d1).
Definition mask_d0_nd1 (d0 d1 : scalar) : Z := Mask.of_bool (d0 <? - d1).

Definition mask_c0 (eps d0 d1 d2 : scalar) : Z :=
  Mask.mul (mask_d2 eps d2) (mask_d0_d1 d0 d1).
Definition mask_c1 (eps d0 d1 d2 : scalar) : Z :=
  Mask.mul (mask_d2 eps d2) (Mask.rsub 1 (mask_d0_d1 d0 d1)).
Definition mask_c2 (eps d0 d1 d2 : scalar) : Z :=
  Mask.mul (Mask.rsub 1 (mask_d2 eps d2)) (mask_d0_nd1 d0 d1).
Definition mask_c3 (eps d0 d1 d2 : scalar) : Z :=
  Mask.mul (Mask.rsub 1 (mask_d2 eps d2)) (Mask.rsub 1 (mask_d0_nd1 d0 d1)).

(** The four pivots and the four candidate quaternions, written on
    [rmat_t], the transpose of the input matrix. *)
Section Candidates.

Variable rmat_t : nat -> nat -> scalar.

Definition pivot_t0 : scalar :=
  lit 1 + rmat_t 0%nat 0%nat - rmat_t 1%nat 1%nat - rmat_t 2%nat 2%nat.
Definition cand_q0 : list scalar :=
  [ rmat_t 1%nat 2%nat - rmat_t 2%nat 1%nat;
    pivot_t0;
    rmat_t 0%nat 1%nat + rmat_t 1%nat 0%nat;
    rmat_t 2%nat 0%nat + rmat_t 0%nat 2%nat ].

Definition pivot_t1 : scalar :=
  lit 1 - rmat_t 0%nat 0%nat + rmat_t 1%nat 1%nat - rmat_t 2%nat 2%nat.
Definition cand_q1 : list scalar :=
  [ rmat_t 2%nat 0%nat - rmat_t 0%nat 2%nat;
    rmat_t 0%nat 1%nat + rmat_t 1%nat 0%nat;
    pivot_t1;
    rmat_t 1%nat 2%nat + rmat_t 2%nat 1%nat ].

Definition pivot_t2 : scalar :=
  lit 1 - rmat_t 0%nat 0%nat - rmat_t 1%nat 1%nat + rmat_t 2%nat 2%nat.
Definition cand_q2 : list scalar :=
  [ rmat_t 0%nat 1%nat - rmat_t 1%nat 0%nat;
    rmat_t 2%nat 0%nat + rmat_t 0%nat 2%nat;
    rmat_t 1%nat 2%nat + rmat_t 2%nat 1%nat;
    pivot_t2 ].

Definition pivot_t3 : scalar :=
  lit 1 + rmat_t 0%nat 0%nat + rmat_t 1%nat 1%nat + rmat_t 2%nat 2%nat.
Definition cand_q3 : list scalar :=
  [ pivot_t3;
    rmat_t 1%nat 2%nat - rmat_t 2%nat 1%nat;
    rmat_t 2%nat 0%nat - rmat_t 0%nat 2%nat;
    rmat_t 0%nat 1%nat - rmat_t 1%nat 0%nat ].

End Candidates.

(** Elementwise combination of four rows, [a*ma + b*mb + c*mc + d*md]. *)
Fixpoint blend4 (a b c d : list scalar) (ma mb mc md : scalar) : list scalar :=
  match a, b, c, d with
  | x :: a', y :: b', z :: c', w :: d' =>
      (x * ma + y * mb + z * mc + w * md) :: blend4 a' b' c' d' ma mb mc md
  | _, _, _, _ => []
  end.

(** One batch element of [rotation_matrix_to_quaternion_torch]; [m] is
    the element's matrix in row-major order with [ncols] columns. *)
Definition rotation_matrix_to_quaternion_elem (eps : scalar) (ncols : nat)
           (m : list scalar) : list scalar :=
  let rmat_t (i j : nat) := item m (j * ncols + i) in
  let d0 := rmat_t 0%nat 0%nat in
  let d1 := rmat_t 1%nat 1%nat in
  let d2 := rmat_t 2%nat 2%nat in
  let t0 := pivot_t0 rmat_t in
  let q0 := cand_q0 rmat_t in
  let t0_rep := [t0; t0; t0; t0] in
  let t1 := pivot_t1 rmat_t in
  let q1 := cand_q1 rmat_t in
  let t1_rep := [t1; t1; t1; t1] in
  let t2 := pivot_t2 rmat_t in
  let q2 := cand_q2 rmat_t in
  let t2_rep := [t2; t2; t2; t2] in
  let t3 := pivot_t3 rmat_t in
  let q3 := cand_q3 rmat_t in
  let t3_rep := [t3; t3; t3; t3] in
  let m0 := Mask.type_as (mask_c0 eps d0 d1 d2) in
  let m1 := Mask.type_as (mask_c1 eps d0 d1 d2) in
  let m2 := Mask.type_as (mask_c2 eps d0 d1 d2) in
  let m3 := Mask.type_as (mask_c3 eps d0 d1 d2) in
  let q := blend4 q0 q1 q2 q3 m0 m1 m2 m3 in
  let den := blend4 t0_rep t1_rep t2_rep t3_rep m0 m1 m2 m3 in
  let q := map (fun qd => fst qd / Fl.sqrt (snd qd)) (combine q den) in
  map (fun x => x * lit (1/2)) q.

(** [rotation_matrix_to_quaternion_torch]: an (N, R, C) tensor to (N, 4);
    the entries read lie in the top-left 3x3 block. *)
Definition rotation_matrix_to_quaternion_torch (rotation_matrix : tensor)
           (eps : scalar) : result tensor :=
  let n := nth 0 (tshape rotation_matrix) 0%nat in
  let nr := nth 1 (tshape rotation_matrix) 0%nat in
  let nc := nth 2 (tshape rotation_matrix) 0%nat in
  if ((nr <? 3) || (nc <? 3))%nat
  then Raise (IndexError "index out of range")
  else Ok (mkTensor [n; 4]%nat
             (flat_map (rotation_matrix_to_quaternion_elem eps nc)
                       (mats rotation_matrix))).

Definition rotation_matrix_to_quaternion (rotation_matrix : pyobj)
  : result pyobj :=
  match rotation_matrix with
  | NdArray a =>
      r <- rotation_matrix_to_quaternion_numpy a ;; Ok (NdArray r)
  | Tensor t =>
      if negb ((List.length (tshape t) =? 3)%nat
               && (nth 1 (tshape t) 0 =? 4)%nat)
      then Raise (ValueError "Input must be a three dimensional torch.Tensor.")
      else r <- rotation_matrix_to_quaternion_torch t default_eps ;;
           Ok (Tensor r)
  | PyOther _ =>
      Raise (NotImplementedError
               ("Not suported type " ++ type_repr rotation_matrix))
  end.

(* ===================================================================== *)
(** ** Quaternion to axis-angle *)
(* ===================================================================== *)

(** [quaternion_to_angle_axis_numpy]: the scalar reference path.  With a
    matrix argument the rows are indexed instead of the components, and
    numpy raises (a row index out of bounds, or the ambiguous truth value
    of a row comparison). *)
Definition quaternion_to_angle_axis_numpy (quaternion : ndarray)
  : result ndarray :=
  match quaternion with
  | Vec v =>
      if negb (List.length v =? 4)%nat
      then Raise (AssertionError "Input must be a vector of length 4")
      else
        let normalizer := lit 1 / norm v in
        let q1 := item v 1 * normalizer in
        let q2 := item v 2 * normalizer in
        let q3 := item v 3 * normalizer in
        let sin_squared := q1 * q1 + q2 * q2 + q3 * q3 in
        if sin_squared >? lit 0 then
          let sin_theta := Fl.sqrt sin_squared in
          let cos_theta := item v 0 * normalizer in
          let theta :=
            if cos_theta <? lit 0
            then Fl.atan2 (- sin_theta) (- cos_theta)
            else Fl.atan2 sin_theta cos_theta in
          let two_theta := lit 2 * theta in
          let k := two_theta / sin_theta in
          Ok (Vec [q1 * k; q2 * k; q3 * k])
        else
          let k := lit 2 in
          Ok (Vec [q1 * k; q2 * k; q3 * k])
  | Mat r c _ =>
      if negb (c =? 4)%nat
      then Raise (AssertionError "Input must be a vector of length 4")
      else if (r <? 4)%nat then Raise (IndexError "index out of bounds")
           else Raise (ValueError "The truth value of an array is ambiguous")
  end.

(** One row of [quaternion_to_angle_axis_torch]. *)
Definition quaternion_to_angle_axis_row (eps : scalar)
           (quaternion : list scalar) : list scalar :=
  let normalizer := lit 1 / norm quaternion in
  let q1 := item quaternion 1 * normalizer in
  let q2 := item quaternion 2 * normalizer in
  let q3 := item quaternion 3 * normalizer in
  let sin_squared := q1 * q1 + q2 * q2 + q3 * q3 in
  let mask := Mask.of_bool (sin_squared >? eps) in
  let mask_pos := Mask.type_as (Mask.eq_bool mask true) in
  let mask_neg := Mask.type_as (Mask.eq_bool mask false) in
  let sin_theta := Fl.sqrt sin_squared in
  let cos_theta := item quaternion 0 * normalizer in
  let mask_theta := Mask.of_bool (cos_theta <? eps) in
  let mask_theta_neg := Mask.type_as (Mask.eq_bool mask_theta true) in
  let mask_theta_pos := Mask.type_as (Mask.eq_bool mask_theta false) in
  let theta := Fl.atan2 (- sin_theta) (- cos_theta) * mask_theta_neg
               + Fl.atan2 sin_theta cos_theta * mask_theta_pos in
  let two_theta := lit 2 * theta in
  let k_pos := two_theta / sin_theta in
  let k_neg := lit 2 in
  let k := k_neg * mask_neg + k_pos * mask_pos in
  [q1 * k; q2 * k; q3 * k].

(** [quaternion_to_angle_axis_torch]: an (N, 4) tensor to (N, 3). *)
Definition quaternion_to_angle_axis_torch (quaternion : tensor) (eps : scalar)
  : result tensor :=
  if negb (nth 1 (tshape quaternion) 0 =? 4)%nat
  then Raise (AssertionError "Input must be a vector of length 4")
  else
    let batch_size := nth 0 (tshape quaternion) 0%nat in
    Ok (mkTensor [batch_size; 3]%nat
          (flat_map (quaternion_to_angle_axis_row eps) (rows quaternion))).

(** The dispatcher.  Its last branch formats [type(rotation_matrix)], a
    name that is neither a parameter nor a module global. *)
Definition quaternion_to_angle_axis (quaternion : pyobj) : result pyobj :=
  match quaternion with
  | NdArray a =>
      r <- quaternion_to_angle_axis_numpy a ;; Ok (NdArray r)
  | Tensor t =>
      if negb ((List.length (tshape t) =? 2)%nat
               && (nth 1 (tshape t) 0 =? 4)%nat)
      then Raise (ValueError "Input must be a two dimensional torch.Tensor.")
      else r <- quaternion_to_angle_axis_torch t default_eps ;;
           Ok (Tensor r)
  | PyOther _ =>
      rotation_matrix <-
        lookup_name [("quaternion"%string, quaternion)] "rotation_matrix" ;;
      Raise (NotImplementedError
               ("Not suported type " ++ type_repr rotation_matrix))
  end.

Definition rotation_matrix_to_angle_axis (rotation_matrix : pyobj)
  : result pyobj :=
  quaternion <- rotation_matrix_to_quaternion rotation_matrix ;;
  quaternion_to_angle_axis quaternion.

(* ===================================================================== *)
(** ** Definitions used by the statements *)
(* ===================================================================== *)

(** The four masks and the masked sum of the four candidates, as
    [rotation_matrix_to_quaternion_elem] forms them. *)
Definition selection_masks (eps : scalar) (rmat_t : nat -> nat -> scalar)
  : list Z :=
  let d0 := rmat_t 0%nat 0%nat in
  let d1 := rmat_t 1%nat 1%nat in
  let d2 := rmat_t 2%nat 2%nat in
  [ mask_c0 eps d0 d1 d2; mask_c1 eps d0 d1 d2;
    mask_c2 eps d0 d1 d2; mask_c3 eps d0 d1 d2 ].

Definition masked_sum (eps : scalar) (rmat_t : nat -> nat -> scalar)
  : list scalar :=
  let d0 := rmat_t 0%nat 0%nat in
  let d1 := rmat_t 1%nat 1%nat in
  let d2 := rmat_t 2%nat 2%nat in
  blend4 (cand_q0 rmat_t) (cand_q1 rmat_t) (cand_q2 rmat_t) (cand_q3 rmat_t)
         (Mask.type_as (mask_c0 eps d0 d1 d2))
         (Mask.type_as (mask_c1 eps d0 d1 d2))
         (Mask.type_as (mask_c2 eps d0 d1 d2))
         (Mask.type_as (mask_c3 eps d0 d1 d2)).

(** A 4x4 matrix (row-major) whose top-left block holds real numbers. *)
Definition mat4 (r00 r01 r02 r10 r11 r12 r20 r21 r22 : R)
           (c0 c1 c2 b0 b1 b2 b3 : scalar) : list scalar :=
  [ Fin r00; Fin r01; Fin r02; c0;
    Fin r10; Fin r11; Fin r12; c1;
    Fin r20; Fin r21; Fin r22; c2;
    b0; b1; b2; b3 ].

(** Following the words of the specification (4.2): a quaternion
    component "formed from sums/differences of off-diagonal matrix entries
    divided by the square root of t, then scaled by 0.5". *)
Definition offdiag_sum_or_diff (R : nat -> nat -> scalar) (x : scalar) : Prop :=
  exists i j k l : nat,
    (i < 3 /\ j < 3 /\ k < 3 /\ l < 3)%nat /\ i <> j /\ k <> l /\
    (x = R i j + R k l \/ x = R i j - R k l).

Definition spec_component (R : nat -> nat -> scalar) (t c : scalar) : Prop :=
  exists x, offdiag_sum_or_diff R x /\ c = x / Fl.sqrt t * lit (1/2).

(** The 4x4 identity matrix in row-major order. *)
Definition eye4 : list scalar := mat4 1 0 0 0 1 0 0 0 1
  (Fin 0) (Fin 0) (Fin 0) (Fin 0) (Fin 0) (Fin 0) (Fin 1).

(** Following the words of the specification (4.1): the first-order
    matrix of a small rotation, "the off-diagonal entries become +/- the
    vector components and the diagonal is 1", inside the 4x4 identity. *)
Definition taylor_matrix (rx ry rz : scalar) : list scalar :=
  [ Fin 1; - rz; ry; Fin 0;
    rz; Fin 1; - rx; Fin 0;
    - ry; rx; Fin 1; Fin 0;
    Fin 0; Fin 0; Fin 0; Fin 1 ].

(** The factor [k] that [quaternion_to_angle_axis_row] multiplies the
    normalised vector part with, as a function of the squared sine and the
    cosine it computes. *)
Definition row_factor (eps sin_squared cos_theta : scalar) : scalar :=
  let mask := Mask.of_bool (sin_squared >? eps) in
  let mask_pos := Mask.type_as (Mask.eq_bool mask true) in
  let mask_neg := Mask.type_as (Mask.eq_bool mask false) in
  let sin_theta := Fl.sqrt sin_squared in
  let mask_theta := Mask.of_bool (cos_theta <? eps) in
  let mask_theta_neg := Mask.type_as (Mask.eq_bool mask_theta true) in
  let mask_theta_pos := Mask.type_as (Mask.eq_bool mask_theta false) in
  let theta := Fl.atan2 (- sin_theta) (- cos_theta) * mask_theta_neg
               + Fl.atan2 sin_theta cos_theta * mask_theta_pos in
  lit 2 * mask_neg + lit 2 * theta / sin_theta * mask_pos.

(** [v / np.linalg.norm(v)] *)
Definition normalized (l : list scalar) : list scalar :=
  map (fun q => q / norm l) l.

(** A valid rotation: the 3x3 block is orthonormal (R^T R = I) and its
    determinant is 1. *)
Definition is_rotation (r00 r01 r02 r10 r11 r12 r20 r21 r22 : R) : Prop :=
  (r00 * r00 + r10 * r10 + r20 * r20 = 1
   /\ r01 * r01 + r11 * r11 + r21 * r21 = 1
   /\ r02 * r02 + r12 * r12 + r22 * r22 = 1
   /\ r00 * r01 + r10 * r11 + r20 * r21 = 0
   /\ r00 * r02 + r10 * r12 + r20 * r22 = 0
   /\ r01 * r02 + r11 * r12 + r21 * r22 = 0
   /\ r00 * (r11 * r22 - r12 * r21) - r01 * (r10 * r22 - r12 * r20)
      + r02 * (r10 * r21 - r11 * r20) = 1)%R.

(** The nine entries that both paths write in their normal case, on
    numbers: the axis (wx, wy, wz), the cosine and the sine of the angle. *)
Definition rodrigues (wx wy wz c s : R) : list scalar :=
  mat4 (c + wx * wx * (1 - c)) (wx * wy * (1 - c) - wz * s)
       (wy * s + wx * wz * (1 - c))
       (wz * s + wx * wy * (1 - c)) (c + wy * wy * (1 - c))
       (- wx * s + wy * wz * (1 - c))
       (- wy * s + wx * wz * (1 - c)) (wx * s + wy * wz * (1 - c))
       (c + wz * wz * (1 - c))
       (Fin 0) (Fin 0) (Fin 0) (Fin 0) (Fin 0) (Fin 0) (Fin 1).

(** Two scalars are numbers and differ by at most [tol]. *)
Definition close (tol : R) (a b : scalar) : Prop :=
  exists u v : R, a = Fin u /\ b = Fin v /\ (Rabs (u - v) <= tol)%R.

(* ===================================================================== *)
(** ** Angles, points, poses and the layer classes *)
(* ===================================================================== *)

(** The functions of this part raise three more kinds of exception than
    the converters: [TypeError] on an argument that is not a tensor,
    [RuntimeError] from torch on sizes that do not fit, [AttributeError]
    on reading an attribute that an object lacks. *)
Inductive exc : Type :=
| Exn (e : exn)
| TypeError (msg : string)
| RuntimeError (msg : string)
| AttributeError (msg : string).

Inductive outcome (A : Type) : Type :=
| Return (a : A)
| Throw (e : exc).

Arguments Return {A} a.
Arguments Throw {A} e.

Definition and_then {A B : Type} (r : outcome A) (k : A -> outcome B)
  : outcome B :=
  match r with
  | Return a => k a
  | Throw e => Throw e
  end.

Notation "x <-- e ;; k" := (and_then e (fun x => k))
  (at level 61, e at next level, right associativity).

(** A call of one of the converters. *)
Definition lift {A : Type} (r : result A) : outcome A :=
  match r with
  | Ok a => Return a
  | Raise e => Throw (Exn e)
  end.

(** *** Shapes and indexing *)

(** [str(t.shape)], e.g. [torch.Size([2, 3])] *)
Definition nat_repr (n : nat) : string := NilZero.string_of_uint (Nat.to_uint n).

Definition shape_repr (shape : list nat) : string :=
  "torch.Size([" ++ String.concat ", " (map nat_repr shape) ++ "])".

Definition dim (t : tensor) (i : nat) : nat := nth i (tshape t) 0%nat.

(** The number of elements of a tensor of the given shape. *)
Definition numel (shape : list nat) : nat := fold_right Nat.mul 1%nat shape.

(** A tensor holds as many elements as its shape says. *)
Definition well_formed (t : tensor) : Prop :=
  List.length (tdata t) = numel (tshape t).

(** All tensors of the model live on one device: [.to(device)] is the
    identity, and so is [.type(dtype)] between floating-point types. *)
Definition device (t : tensor) : string := "cpu".

(** The list [f 0 0; ...; f 0 (n-1); f 1 0; ...; f (o-1) (n-1)]: the
    row-major data of [o] rows of [n] elements. *)
Definition table (o n : nat) (f : nat -> nat -> scalar) : list scalar :=
  flat_map (fun i => map (f i) (seq 0 n)) (seq 0 o).

(** A tensor seen along its last axis: [prefix] is the shape without the
    last axis, and the element [j] of row [o] sits at [o * n + j]. *)
Definition prefix (t : tensor) : list nat := removelast (tshape t).
Definition last_dim (t : tensor) : nat := last (tshape t) 0%nat.

Definition at_last (t : tensor) (o j : nat) : scalar :=
  item (tdata t) (o * last_dim t + j).

Definition tabulate_last (pre : list nat) (n : nat)
           (f : nat -> nat -> scalar) : tensor :=
  mkTensor (pre ++ [n]) (table (numel pre) n f).

(** The element [t[b, i, j]] of a tensor of rank three, and the tensor of
    shape (nb, nr, nc) with given elements. *)
Definition at3 (t : tensor) (b i j : nat) : scalar :=
  item (tdata t) ((b * dim t 1 + i) * dim t 2 + j).

Definition tabulate3 (nb nr nc : nat) (f : nat -> nat -> nat -> scalar)
  : tensor :=
  mkTensor [nb; nr; nc]
           (flat_map (fun b => table nr nc (f b)) (seq 0 nb)).

(** The bounds of a Python slice [start:stop] on an axis of length [n]: a
    negative index counts from the end, and both are clipped to [0, n]. *)
Definition slice_index (n : nat) (i : Z) : nat :=
  if (i <? 0)%Z then Z.to_nat (Z.max 0 (i + Z.of_nat n))
  else Nat.min (Z.to_nat i) n.

Definition slice_range (n : nat) (start stop : option Z) : nat * nat :=
  (match start with Some i => slice_index n i | None => 0%nat end,
   match stop with Some i => slice_index n i | None => n end).

(** [l[start:stop]] on a vector *)
Definition slice (start stop : option Z) (l : list scalar) : list scalar :=
  let '(lo, hi) := slice_range (List.length l) start stop in
  firstn (hi - lo) (skipn lo l).

(** [t[..., start:stop]] on a tensor of rank at least one *)
Definition slice_last (t : tensor) (start stop : option Z) : tensor :=
  let '(lo, hi) := slice_range (last_dim t) start stop in
  tabulate_last (prefix t) (hi - lo) (fun o j => at_last t o (lo + j)%nat).

(** [torch.ones_like(t)], [t + eps] *)
Definition ones_like (t : tensor) : tensor :=
  mkTensor (tshape t) (map (fun _ => lit 1) (tdata t)).

Definition add_scalar (t : tensor) (eps : scalar) : tensor :=
  mkTensor (tshape t) (map (fun x => x + eps) (tdata t)).

Fixpoint shape_eqb (a b : list nat) : bool :=
  match a, b with
  | [], [] => true
  | x :: a', y :: b' => (x =? y)%nat && shape_eqb a' b'
  | _, _ => false
  end.

(** [torch.cat([a, b], dim=-1)]: the other axes must agree. *)
Definition cat_last (a b : tensor) : outcome tensor :=
  if shape_eqb (prefix a) (prefix b) then
    Return (tabulate_last (prefix a) (last_dim a + last_dim b)
              (fun o j => if (j <? last_dim a)%nat then at_last a o j
                          else at_last b o (j - last_dim a)%nat))
  else Throw (RuntimeError "Sizes of tensors must match except in dimension 2").

(** [a / b] for two slices [a], [b] of one tensor along its last axis: the
    other axes agree, and the last axis of [b] either holds one element,
    which is broadcast, or is as long as that of [a]. *)
Definition div_last (a b : tensor) : tensor :=
  tabulate_last (prefix a) (if (last_dim b =? 1)%nat then last_dim a
                            else Nat.min (last_dim a) (last_dim b))
    (fun o j => at_last a o j
                / at_last b o (if (last_dim b =? 1)%nat then 0%nat else j)).

(** [t.transpose(1, 2)] and [t.permute(0, 2, 1)] on a tensor of rank three *)
Definition transpose_1_2 (t : tensor) : tensor :=
  tabulate3 (dim t 0) (dim t 2) (dim t 1) (fun b i j => at3 t b j i).

(** The sum of the products [u m * v m] for [m < n]. *)
Definition dot (n : nat) (u v : nat -> scalar) : scalar :=
  fold_left (fun acc m => acc + u m * v m) (seq 0 n) (Fin 0).

(** [torch.matmul(a, b)] on two tensors of rank three: a batch of matrix
    products; a batch axis of size one is broadcast. *)
Definition matmul (a b : tensor) : outcome tensor :=
  let na := dim a 0 in
  let nb := dim b 0 in
  if negb ((na =? nb) || (na =? 1) || (nb =? 1))%nat then
    Throw (RuntimeError
             "The size of tensor a must match the size of tensor b at non-singleton dimension 0")
  else if negb (dim a 2 =? dim b 1)%nat then
    Throw (RuntimeError "size mismatch")
  else
    Return (tabulate3 (if (na =? 1)%nat then nb else na) (dim a 1) (dim b 2)
              (fun n i j =>
                 dot (dim a 2)
                     (fun m => at3 a (if (na =? 1)%nat then 0%nat else n) i m)
                     (fun m => at3 b (if (nb =? 1)%nat then 0%nat else n) m j))).

(** *** Radians and degrees *)

(** The module constant [pi = torch.Tensor([3.141592653589793])] *)
Definition pi : tensor :=
  mkTensor [1%nat] [lit (3141592653589793 / 1000000000000000)].

(** [f(t, p)] elementwise for a tensor [p] of shape (1,): its element is
    broadcast; a tensor [t] of rank zero comes back with shape (1,). *)
Definition broadcast_one (f : scalar -> scalar -> scalar) (t p : tensor)
  : tensor :=
  mkTensor (match tshape t with [] => [1%nat] | s => s end)
           (map (fun x => f x (item (tdata p) 0)) (tdata t)).

Definition rad2deg : pyobj -> outcome tensor := fun tensor =>
  match tensor with
  | Tensor t =>
      Return (broadcast_one (fun x p => lit 180 * x / p) t pi)
  | _ =>
      Throw (TypeError ("Input type is not a torch.Tensor. Got "
                          ++ type_repr tensor))
  end.

Definition deg2rad : pyobj -> outcome tensor := fun tensor =>
  match tensor with
  | Tensor t =>
      Return (broadcast_one (fun x p => x * p / lit 180) t pi)
  | _ =>
      Throw (TypeError ("Input type is not a torch.Tensor. Got "
                          ++ type_repr tensor))
  end.

(** *** Homogeneous coordinates *)

Definition convert_points_from_homogeneous (points : pyobj) (eps : scalar)
  : outcome tensor :=
  match points with
  | Tensor t =>
      if negb (List.length (tshape t) =? 3)%nat then
        Throw (Exn (ValueError
                      ("Input size must be a three dimensional tensor. Got "
                         ++ shape_repr (tshape t))))
      else
        Return (div_last (slice_last t None (Some (-1)%Z))
                         (add_scalar (slice_last t (Some (-1)%Z) None) eps))
  | _ =>
      Throw (TypeError ("Input type is not a torch.Tensor. Got "
                          ++ type_repr points))
  end.

Definition convert_points_to_homogeneous (points : pyobj) : outcome tensor :=
  match points with
  | Tensor t =>
      if negb (List.length (tshape t) =? 3)%nat then
        Throw (Exn (ValueError
                      ("Input size must be a three dimensional tensor. Got "
                         ++ shape_repr (tshape t))))
      else
        cat_last t (slice_last (ones_like t) None (Some 1%Z))
  | _ =>
      Throw (TypeError ("Input type is not a torch.Tensor. Got "
                          ++ type_repr points))
  end.

Definition transform_points (dst_pose_src points_src : pyobj)
  : outcome tensor :=
  match dst_pose_src, points_src with
  | Tensor pose, Tensor pts =>
      if negb (String.eqb (device pose) (device pts)) then
        Throw (TypeError "Tensor must be in the same device")
      else if (negb (List.length (tshape pose) =? 3)
               || negb (List.length (tshape pts) =? 3))%nat then
        Throw (Exn (ValueError "Input size must be a three dimensional tensor"))
      else if negb (dim pose 0 =? dim pts 0)%nat then
        Throw (Exn (ValueError
                      "Input batch size must be the same for both tensors"))
      else if negb (dim pose 2 =? dim pts 2 + 1)%nat then
        Throw (Exn (ValueError "Input dimensions must differe by one unit"))
      else
        points_src_h <-- convert_points_to_homogeneous (Tensor pts) ;;
        points_dst_h <-- matmul pose (transpose_1_2 points_src_h) ;;
        let points_dst_h := transpose_1_2 points_dst_h in
        convert_points_from_homogeneous (Tensor points_dst_h) default_eps
  | _, _ => Throw (TypeError "Input type is not a torch.Tensor")
  end.

(** *** Rodrigues vector and translation to pose *)

(** [x.shape]; an object that is neither an array nor a tensor is taken to
    have no such attribute (a list, a number, None). *)
Definition shape_of (x : pyobj) : outcome (list nat) :=
  match x with
  | NdArray (Vec v) => Return [List.length v]
  | NdArray (Mat r c _) => Return [r; c]
  | Tensor t => Return (tshape t)
  | PyOther c =>
      Throw (AttributeError ("'" ++ c ++ "' object has no attribute 'shape'"))
  end.

(** [x[..., start:stop]] on an array or a tensor *)
Definition slice_last_of (x : pyobj) (start stop : option Z) : pyobj :=
  match x with
  | NdArray (Vec v) => NdArray (Vec (slice start stop v))
  | NdArray (Mat r c d) =>
      let s := slice_last (mkTensor [r; c] d) start stop in
      NdArray (Mat r (last_dim s) (tdata s))
  | Tensor t => Tensor (slice_last t start stop)
  | PyOther c => x
  end.

(** [pose[..., :3, 3] = t]: in every 4x4 matrix of [pose], the first three
    entries of the last column are overwritten; [t] holds one row of three
    numbers per matrix. *)
Definition set_translation (pose t : pyobj) : outcome pyobj :=
  match pose, t with
  | NdArray (Mat r c d), NdArray (Vec v) =>
      Return (NdArray (Mat r c
        (table r c (fun i j => if ((i <? 3) && (j =? 3))%nat then item v i
                               else item d (i * c + j)))))
  | Tensor p, Tensor v =>
      Return (Tensor (tabulate3 (dim p 0) (dim p 1) (dim p 2)
        (fun b i j => if ((i <? 3) && (j =? 3))%nat then at_last v b i
                      else at3 p b i j)))
  | _, _ => Throw (TypeError "can't assign to the pose")
  end.

(** [rtvec_to_pose]: the converter returns a 4x4 array for an array and a
    batch of 4x4 matrices for a tensor, and the slice [rtvec[..., 3:]] is
    of the kind of [rtvec], so that the last case of [set_translation] is
    not reached. *)
Definition rtvec_to_pose (rtvec : pyobj) : outcome pyobj :=
  shape <-- shape_of rtvec ;;
  match shape with
  | [] => Throw (Exn (IndexError "tuple index out of range"))
  | _ =>
      if negb (last shape 0 =? 6)%nat then
        Throw (Exn (AssertionError "rtvec=[rx, ry, rz, tx, ty, tz]"))
      else
        pose <-- lift (angle_axis_to_rotation_matrix
                         (slice_last_of rtvec None (Some 3%Z))) ;;
        set_translation pose (slice_last_of rtvec (Some 3%Z) None)
  end.

(** *** The layer classes *)

Inductive layer : Type :=
| RadToDeg
| DegToRad
| ConvertPointsFromHomogeneous
| ConvertPointsToHomogeneous
| TransformPoints
| AngleAxisToRotationMatrix
| RotationMatrixToAngleAxis
| RotationMatrixToQuaternion
| QuaternionToAngleAxis
| RtvecToPose.

Definition class_name (l : layer) : string :=
  match l with
  | RadToDeg => "RadToDeg"
  | DegToRad => "DegToRad"
  | ConvertPointsFromHomogeneous => "ConvertPointsFromHomogeneous"
  | ConvertPointsToHomogeneous => "ConvertPointsToHomogeneous"
  | TransformPoints => "TransformPoints"
  | AngleAxisToRotationMatrix => "AngleAxisToRotationMatrix"
  | RotationMatrixToAngleAxis => "RotationMatrixToAngleAxis"
  | RotationMatrixToQuaternion => "RotationMatrixToQuaternion"
  | QuaternionToAngleAxis => "QuaternionToAngleAxis"
  | RtvecToPose => "RtvecToPose"
  end.

(** The class name that [__init__] passes to [super], and the function
    name that [forward] calls, as the source spells them. *)
Definition super_argument (l : layer) : string :=
  match l with
  | RadToDeg => "RadToDeg"
  | DegToRad => "DegToRad"
  | ConvertPointsFromHomogeneous => "ConvertPointsFromHomogeneous"
  | ConvertPointsToHomogeneous => "ConvertPointsToHomogeneous"
  | TransformPoints => "TransformPoints"
  | AngleAxisToRotationMatrix => "AngleAxisToRotationMatrix"
  | RotationMatrixToAngleAxis => "RotationMatrixToAngleAxis"
  | RotationMatrixToQuaternion => "RotationMatrixToQuaterion"
  | QuaternionToAngleAxis => "QuaternionToAngleAxis"
  | RtvecToPose => "RtvecToPose"
  end.

Definition forward_callee (l : layer) : string :=
  match l with
  | RadToDeg => "rad2deg"
  | DegToRad => "deg2rad"
  | ConvertPointsFromHomogeneous => "convert_points_from_homogeneous"
  | ConvertPointsToHomogeneous => "convert_points_to_homogeneous"
  | TransformPoints => "transform_points"
  | AngleAxisToRotationMatrix => "angle_axis_to_rotation_matrix"
  | RotationMatrixToAngleAxis => "rotation_matrix_to_angle_axis"
  | RotationMatrixToQuaternion => "rotation_matrix_to_quaterion"
  | QuaternionToAngleAxis => "quaterion_to_angle_axis"
  | RtvecToPose => "rtvec_to_pose"
  end.

Definition as_object (r : outcome tensor) : outcome pyobj :=
  t <-- r ;; Return (Tensor t).

(** The public functions of the module, by name, applied to positional
    arguments; a call with the wrong number of arguments is a [TypeError].
    The other globals (the imported modules, [pi], the classes and the
    path-specific converters) are not called by any layer. *)
Definition module_function (name : string)
  : option (list pyobj -> outcome pyobj) :=
  let unary (f : pyobj -> outcome pyobj) (args : list pyobj) :=
    match args with
    | [x] => f x
    | _ => Throw (TypeError (name ++ "() takes 1 positional argument"))
    end in
  if String.eqb name "rad2deg" then
    Some (unary (fun x => as_object (rad2deg x)))
  else if String.eqb name "deg2rad" then
    Some (unary (fun x => as_object (deg2rad x)))
  else if String.eqb name "convert_points_from_homogeneous" then
    Some (unary (fun x =>
                   as_object (convert_points_from_homogeneous x default_eps)))
  else if String.eqb name "convert_points_to_homogeneous" then
    Some (unary (fun x => as_object (convert_points_to_homogeneous x)))
  else if String.eqb name "transform_points" then
    Some (fun args =>
            match args with
            | [a; b] => as_object (transform_points a b)
            | _ => Throw (TypeError
                            "transform_points() takes 2 positional arguments")
            end)
  else if String.eqb name "angle_axis_to_rotation_matrix" then
    Some (unary (fun x => lift (angle_axis_to_rotation_matrix x)))
  else if String.eqb name "rotation_matrix_to_angle_axis" then
    Some (unary (fun x => lift (rotation_matrix_to_angle_axis x)))
  else if String.eqb name "rotation_matrix_to_quaternion" then
    Some (unary (fun x => lift (rotation_matrix_to_quaternion x)))
  else if String.eqb name "quaternion_to_angle_axis" then
    Some (unary (fun x => lift (quaternion_to_angle_axis x)))
  else if String.eqb name "rtvec_to_pose" then
    Some (unary rtvec_to_pose)
  else None.

(** A call [name(args)] in a method body: the name is resolved (among the
    locals, then the module globals) when the call is made. *)
Definition call_global (locals : list (string * pyobj)) (name : string)
           (args : list pyobj) : outcome pyobj :=
  _ <-- lift (lookup_name locals name) ;;
  match module_function name with
  | Some f => f args
  | None => Throw (TypeError ("'" ++ name ++ "' is not called by a layer"))
  end.

(** [__init__]: [super(C, self).__init__()] reads the global name [C];
    the initialiser of [nn.Module] takes no argument and does not fail. *)
Definition init (l : layer) : outcome layer :=
  _ <-- lift (lookup_name [("self", PyOther (class_name l))]%string
                          (super_argument l)) ;;
  Return l.

(** [forward(self, *args)]: one input, two for [TransformPoints]. *)
Definition forward (l : layer) (args : list pyobj) : outcome pyobj :=
  let self := ("self", PyOther (class_name l))%string in
  match l, args with
  | TransformPoints, [dst_homo_src; points_src] =>
      call_global [self; ("dst_homo_src", dst_homo_src);
                   ("points_src", points_src)]%string
                  (forward_callee l) [dst_homo_src; points_src]
  | TransformPoints, _ =>
      Throw (TypeError "forward() takes 3 positional arguments")
  | _, [input] =>
      call_global [self; ("input", input)]%string (forward_callee l) [input]
  | _, _ => Throw (TypeError "forward() takes 2 positional arguments")
  end.

(** *** Definitions used by the statements on points and poses *)

(** The homogeneous coordinates of the point [n] of batch [b] of a tensor
    of points: its coordinates, followed by 1. *)
Definition homogeneous (pts : tensor) (b n m : nat) : scalar :=
  if (m <? dim pts 2)%nat then at3 pts b n m else Fin 1.

(** A batch of [b] identity matrices of size [d]. *)
Definition eye_batch (b d : nat) : tensor :=
  tabulate3 b d d (fun _ i j => if (i =? j)%nat then Fin 1 else Fin 0).

Arguments Fl.sqrt : simpl never.
Arguments Fl.div : simpl never.
Arguments Fl.lt : simpl never.
Arguments Fl.le : simpl never.
Arguments Fl.atan2 : simpl never.

(* ===================================================================== *)
(** ** Scalar arithmetic lemmas *)
(* ===================================================================== *)

Module FlFacts.

Local Open Scope R_scope.

Lemma lt_Fin (x y : R) : Fl.lt (Fin x) (Fin y) = true <-> x < y.
Proof.
  unfold Fl.lt; destruct (Rlt_dec x y); split; intros; try easy; lra.
Qed.

Lemma lt_Fin_false (x y : R) : Fl.lt (Fin x) (Fin y) = false <-> y <= x.
Proof.
  unfold Fl.lt; destruct (Rlt_dec x y); split; intros; try easy; lra.
Qed.

Lemma le_Fin (x y : R) : Fl.le (Fin x) (Fin y) = true <-> x <= y.
Proof.
  unfold Fl.le; destruct (Rle_dec x y); split; intros; try easy; lra.
Qed.

Lemma le_Fin_false (x y : R) : Fl.le (Fin x) (Fin y) = false <-> y < x.
Proof.
  unfold Fl.le; destruct (Rle_dec x y); split; intros; try easy; lra.
Qed.

Lemma div_Fin (x y : R) : y <> 0 -> Fl.div (Fin x) (Fin y) = Fin (x / y).
Proof.
  intros Hy; unfold Fl.div; destruct (Req_dec_T y 0); [contradiction | reflexivity].
Qed.

Lemma sqrt_Fin (x : R) : 0 <= x -> Fl.sqrt (Fin x) = Fin (sqrt x).
Proof.
  intros Hx; unfold Fl.sqrt; destruct (Rlt_dec x 0); [lra | reflexivity].
Qed.

Lemma mul_Fin (x y : R) : Fl.mul (Fin x) (Fin y) = Fin (x * y).
Proof. reflexivity. Qed.

Lemma add_Fin (x y : R) : Fl.add (Fin x) (Fin y) = Fin (x + y).
Proof. reflexivity. Qed.

Lemma sub_Fin (x y : R) : Fl.sub (Fin x) (Fin y) = Fin (x - y).
Proof. reflexivity. Qed.

Lemma neg_Fin (x : R) : Fl.neg (Fin x) = Fin (- x).
Proof. reflexivity. Qed.

Lemma atan2_Fin (y x : R) : Fl.atan2 (Fin y) (Fin x) = Fin (Fl.Ratan2 y x).
Proof. reflexivity. Qed.

End FlFacts.

(** Decide every real comparison that occurs in the goal, discarding the
    branches that contradict the hypotheses. *)
Ltac rdec :=
  repeat match goal with
         | |- context [Rlt_dec ?a ?b] =>
             destruct (Rlt_dec a b); try (exfalso; lra)
         | |- context [Rle_dec ?a ?b] =>
             destruct (Rle_dec a b); try (exfalso; lra)
         | |- context [Req_dec_T ?a ?b] =>
             destruct (Req_dec_T a b); try (exfalso; lra)
         end.

(** Fold the arithmetic of finite scalars into arithmetic on the reals. *)
Ltac fl_fold :=
  unfold lit;
  repeat (rewrite ?FlFacts.mul_Fin, ?FlFacts.add_Fin, ?FlFacts.sub_Fin,
           ?FlFacts.neg_Fin, ?FlFacts.atan2_Fin).

(** The value of a mask built from a decided comparison. *)
Ltac mask_values :=
  change (Mask.type_as (Mask.eq_bool (Mask.of_bool true) true)) with (Fin 1);
  change (Mask.type_as (Mask.eq_bool (Mask.of_bool true) false)) with (Fin 0);
  change (Mask.type_as (Mask.eq_bool (Mask.of_bool false) true)) with (Fin 0);
  change (Mask.type_as (Mask.eq_bool (Mask.of_bool false) false)) with (Fin 1);
  change (Mask.type_as (Mask.of_bool true)) with (Fin 1);
  change (Mask.type_as (Mask.of_bool false)) with (Fin 0).

(** Equality of two lists of finite scalars, component by component, with
    [tac] closing each equation between real numbers. *)
Ltac fin_list tac :=
  repeat match goal with
         | |- _ :: _ = _ :: _ => apply f_equal2; [ apply f_equal; tac | ]
         end;
  try reflexivity.

(* ===================================================================== *)
(** ** The selection masks of the batched matrix-to-quaternion path *)
(* ===================================================================== *)

Section MaskPartition.

Variable eps : scalar.

Lemma mask_cases (d0 d1 d2 : scalar) :
  let c := [ mask_c0 eps d0 d1 d2; mask_c1 eps d0 d1 d2;
             mask_c2 eps d0 d1 d2; mask_c3 eps d0 d1 d2 ] in
  ((d2 <? eps) = true /\ (d0 >? d1) = true /\ c = [1; 0; 0; 0]%Z) \/
  ((d2 <? eps) = true /\ (d0 >? d1) = false /\ c = [0; 1; 0; 0]%Z) \/
  ((d2 <? eps) = false /\ (d0 <? - d1) = true /\ c = [0; 0; 1; 0]%Z) \/
  ((d2 <? eps) = false /\ (d0 <? - d1) = false /\ c = [0; 0; 0; 1]%Z).
Proof.
  unfold mask_c0, mask_c1, mask_c2, mask_c3, mask_d2, mask_d0_d1, mask_d0_nd1.
  destruct (d2 <? eps), (d0 >? d1), (d0 <? - d1); cbv beta zeta;
    [ left | left | right; left | right; left
    | right; right; left | right; right; right
    | right; right; left | right; right; right ];
    repeat split; reflexivity.
Qed.

End MaskPartition.

Section MaskedSum.

Variable eps : scalar.
Variable rmat_t : nat -> nat -> scalar.
Hypothesis block_finite :
  forall i j, (i < 3)%nat -> (j < 3)%nat -> Fl.finite (rmat_t i j).

(** Name the nine real numbers of a finite block. *)
Ltac name_block H :=
  let go i j :=
    let F := fresh "F" in
    assert (F : Fl.finite (rmat_t i j)) by (apply H; lia);
    destruct (rmat_t i j); try contradiction; clear F in
  go 0%nat 0%nat; go 0%nat 1%nat; go 0%nat 2%nat;
  go 1%nat 0%nat; go 1%nat 1%nat; go 1%nat 2%nat;
  go 2%nat 0%nat; go 2%nat 1%nat; go 2%nat 2%nat.

Lemma masked_sum_selects :
  let c := selection_masks eps rmat_t in
  (c = [1; 0; 0; 0]%Z /\ masked_sum eps rmat_t = cand_q0 rmat_t) \/
  (c = [0; 1; 0; 0]%Z /\ masked_sum eps rmat_t = cand_q1 rmat_t) \/
  (c = [0; 0; 1; 0]%Z /\ masked_sum eps rmat_t = cand_q2 rmat_t) \/
  (c = [0; 0; 0; 1]%Z /\ masked_sum eps rmat_t = cand_q3 rmat_t).
Proof.
  intros c; subst c.
  unfold selection_masks, masked_sum.
  destruct (mask_cases eps (rmat_t 0%nat 0%nat) (rmat_t 1%nat 1%nat)
                       (rmat_t 2%nat 2%nat))
    as [(_ & _ & E) | [(_ & _ & E) | [(_ & _ & E) | (_ & _ & E)]]];
    cbv zeta in E; injection E as E0 E1 E2 E3; rewrite E0, E1, E2, E3;
    [ left | right; left | right; right; left | right; right; right ];
    (split; [reflexivity |]);
    unfold cand_q0, cand_q1, cand_q2, cand_q3,
      pivot_t0, pivot_t1, pivot_t2, pivot_t3, Mask.type_as, lit;
    name_block block_finite; simpl; fin_list ltac:(ring).
Qed.

End MaskedSum.




(** The batched converter forms its quaternion from the masked sum and the
    masked pivot. *)
Lemma elem_unfold (eps : scalar) (ncols : nat) (m : list scalar) :
  let rmat_t := fun i j : nat => item m (j * ncols + i) in
  let d0 := rmat_t 0%nat 0%nat in
  let d1 := rmat_t 1%nat 1%nat in
  let d2 := rmat_t 2%nat 2%nat in
  let t0 := pivot_t0 rmat_t in
  let t1 := pivot_t1 rmat_t in
  let t2 := pivot_t2 rmat_t in
  let t3 := pivot_t3 rmat_t in
  rotation_matrix_to_quaternion_elem eps ncols m =
  map (fun x => x * lit (1/2))
      (map (fun qd => fst qd / Fl.sqrt (snd qd))
           (combine (masked_sum eps rmat_t)
                    (blend4 [t0; t0; t0; t0] [t1; t1; t1; t1]
                            [t2; t2; t2; t2] [t3; t3; t3; t3]
                            (Mask.type_as (mask_c0 eps d0 d1 d2))
                            (Mask.type_as (mask_c1 eps d0 d1 d2))
                            (Mask.type_as (mask_c2 eps d0 d1 d2))
                            (Mask.type_as (mask_c3 eps d0 d1 d2))))).
Proof. reflexivity. Qed.

(* ===================================================================== *)
(** ** The batched matrix-to-quaternion converter on a block of numbers *)
(* ===================================================================== *)

Section QuaternionBranches.

Local Open Scope R_scope.

Variables r00 r01 r02 r10 r11 r12 r20 r21 r22 : R.
Variables c0 c1 c2 b0 b1 b2 b3 : scalar.

Let m := mat4 r00 r01 r02 r10 r11 r12 r20 r21 r22 c0 c1 c2 b0 b1 b2 b3.
Let eps := / 1000000.
Let t0 := 1 + r00 - r11 - r22.
Let t1 := 1 - r00 + r11 - r22.
Let t2 := 1 - r00 - r11 + r22.
Let t3 := 1 + r00 + r11 + r22.

(** A component of the selected candidate divided by the root of the
    selected pivot and halved. *)
Lemma scaled_component (a t : R) :
  0 < t ->
  (Fin a / Fl.sqrt (Fin t) * lit (1/2))%fl = Fin (a / sqrt t * (1/2)).
Proof.
  intros Ht.
  rewrite FlFacts.sqrt_Fin by lra.
  rewrite FlFacts.div_Fin by (apply Rgt_not_eq, sqrt_lt_R0; exact Ht).
  reflexivity.
Qed.

Lemma scaled_component_eq (a' t' a t : R) :
  a' = a -> t' = t -> 0 < t ->
  (Fin a' / Fl.sqrt (Fin t') * lit (1/2))%fl = Fin (a / sqrt t * (1/2)).
Proof. intros -> -> Ht; apply scaled_component; exact Ht. Qed.

Lemma quaternion_elem_cases :
  let q := rotation_matrix_to_quaternion_elem default_eps 4 m in
  (r22 < eps /\ r00 > r11 /\
   q = [ Fin ((r21 - r12) / sqrt t0 * (1/2)); Fin (t0 / sqrt t0 * (1/2));
         Fin ((r10 + r01) / sqrt t0 * (1/2)); Fin ((r02 + r20) / sqrt t0 * (1/2)) ])
  \/ (r22 < eps /\ r00 <= r11 /\
   q = [ Fin ((r02 - r20) / sqrt t1 * (1/2)); Fin ((r10 + r01) / sqrt t1 * (1/2));
         Fin (t1 / sqrt t1 * (1/2)); Fin ((r21 + r12) / sqrt t1 * (1/2)) ])
  \/ (r22 >= eps /\ r00 < - r11 /\
   q = [ Fin ((r10 - r01) / sqrt t2 * (1/2)); Fin ((r02 + r20) / sqrt t2 * (1/2));
         Fin ((r21 + r12) / sqrt t2 * (1/2)); Fin (t2 / sqrt t2 * (1/2)) ])
  \/ (r22 >= eps /\ r00 >= - r11 /\
   q = [ Fin (t3 / sqrt t3 * (1/2)); Fin ((r21 - r12) / sqrt t3 * (1/2));
         Fin ((r02 - r20) / sqrt t3 * (1/2)); Fin ((r10 - r01) / sqrt t3 * (1/2)) ]).
Proof.
  intros q; subst q.
  unfold rotation_matrix_to_quaternion_elem.
  unfold m, mat4, item; cbn [nth Nat.mul Nat.add].
  destruct (mask_cases default_eps (Fin r00) (Fin r11) (Fin r22))
    as [(H2 & H01 & E) | [(H2 & H01 & E) | [(H2 & H01 & E) | (H2 & H01 & E)]]];
    cbv zeta in E; injection E as E0 E1 E2 E3; rewrite E0, E1, E2, E3;
    unfold default_eps, Fl.gt in *; simpl Fl.neg in *;
    [ apply FlFacts.lt_Fin in H2, H01; left
    | apply FlFacts.lt_Fin in H2; apply FlFacts.lt_Fin_false in H01;
      right; left
    | apply FlFacts.lt_Fin_false in H2; apply FlFacts.lt_Fin in H01;
      right; right; left
    | apply FlFacts.lt_Fin_false in H2, H01; right; right; right ];
    (split; [unfold eps; lra | split; [lra |]]);
    unfold cand_q0, cand_q1, cand_q2, cand_q3,
      pivot_t0, pivot_t1, pivot_t2, pivot_t3, Mask.type_as, lit;
    simpl;
    repeat (apply f_equal2;
            [ apply scaled_component_eq;
              [ unfold t0, t1, t2, t3; ring
              | unfold t0, t1, t2, t3; ring
              | unfold t0, t1, t2, t3; lra ] | ]);
    reflexivity.
Qed.

End QuaternionBranches.


Lemma sqrt_4 : sqrt 4 = 2%R.
Proof.
  replace 4%R with (2 * 2)%R by ring.
  apply sqrt_square; lra.
Qed.

(** The identity matrix goes through branch 3 and gives (1, 0, 0, 0). *)
Lemma quaternion_of_identity :
  rotation_matrix_to_quaternion_elem default_eps 4 eye4
  = [Fin 1; Fin 0; Fin 0; Fin 0].
Proof.
  unfold eye4.
  destruct (quaternion_elem_cases 1 0 0 0 1 0 0 0 1
              (Fin 0) (Fin 0) (Fin 0) (Fin 0) (Fin 0) (Fin 0) (Fin 1))
    as [(H & _) | [(H & _) | [(_ & H & _) | (_ & _ & E)]]];
    try (exfalso; lra).
  rewrite E.
  replace (1 + 1 + 1 + 1)%R with 4%R by ring.
  rewrite sqrt_4.
  fin_list ltac:(field).
Qed.

(** With every off-diagonal entry zero, a sum or difference of two
    off-diagonal entries divided by anything and halved is never 1. *)
Lemma zero_component_not_one (t : scalar) :
  (Fin 0 / Fl.sqrt t * lit (1/2))%fl <> Fin 1.
Proof.
  unfold Fl.div; destruct (Fl.sqrt t) as [s | | |]; simpl.
  - destruct (Req_dec_T s 0).
    + unfold Fl.signed_inf; rdec; simpl; discriminate.
    + simpl; intros H; injection H as H.
      unfold Rdiv in H; rewrite Rmult_0_l in H; lra.
  - intros H; injection H as H; lra.
  - intros H; injection H as H; lra.
  - discriminate.
Qed.


(* ===================================================================== *)
(** ** Axis-angle to rotation matrix: the degenerate branch *)
(* ===================================================================== *)

Section Rodrigues.

Local Open Scope R_scope.

(** The normal-case candidate of the batched path on three numbers: every
    entry is a number, since the denominator [theta + eps] is positive. *)
Lemma compute_rotation_matrix_Fin (x y z theta2 : R) :
  0 <= theta2 ->
  let theta := sqrt theta2 in
  let wx := x / (theta + / 1000000) in
  let wy := y / (theta + / 1000000) in
  let wz := z / (theta + / 1000000) in
  _compute_rotation_matrix default_eps [Fin x; Fin y; Fin z] (Fin theta2)
  = [ Fin (cos theta + wx * wx * (1 - cos theta));
      Fin (wx * wy * (1 - cos theta) - wz * sin theta);
      Fin (wy * sin theta + wx * wz * (1 - cos theta));
      Fin (wz * sin theta + wx * wy * (1 - cos theta));
      Fin (cos theta + wy * wy * (1 - cos theta));
      Fin (- wx * sin theta + wy * wz * (1 - cos theta));
      Fin (- wy * sin theta + wx * wz * (1 - cos theta));
      Fin (wx * sin theta + wy * wz * (1 - cos theta));
      Fin (cos theta + wz * wz * (1 - cos theta)) ].
Proof.
  intros H theta wx wy wz.
  assert (Hd : theta + / 1000000 <> 0).
  { pose proof (sqrt_pos theta2); unfold theta; lra. }
  unfold _compute_rotation_matrix, default_eps, lit, item.
  rewrite FlFacts.sqrt_Fin by exact H.
  fold theta; cbn [map nth Fl.add].
  rewrite !FlFacts.div_Fin by exact Hd.
  reflexivity.
Qed.

(** A squared norm below a finite bound forces three finite components. *)
Lemma sum_sq_le_finite (a b c : scalar) (e : R) :
  (sum_sq [a; b; c] <=? Fin e)%fl = true ->
  exists x y z : R,
    a = Fin x /\ b = Fin y /\ c = Fin z /\ x * x + y * y + z * z <= e.
Proof.
  intros H.
  destruct a as [x | | |], b as [y | | |], c as [z | | |];
    try (exfalso; revert H; unfold Fl.le; simpl; discriminate).
  exists x, y, z; repeat split.
  simpl in H; apply FlFacts.le_Fin in H; lra.
Qed.

Lemma sum_sq_gt_false (x y z e : R) :
  x * x + y * y + z * z <= e ->
  (sum_sq [Fin x; Fin y; Fin z] >? Fin e)%fl = false.
Proof.
  intros H; unfold Fl.gt; simpl; apply FlFacts.lt_Fin_false; lra.
Qed.

(** The batched path below its threshold: the Taylor candidate, exactly. *)
Lemma torch_row_taylor (x y z : R) :
  x * x + y * y + z * z <= / 1000000 ->
  angle_axis_to_rotation_matrix_row default_eps [Fin x; Fin y; Fin z]
  = mat4 1 (- z) y z 1 (- x) (- y) x 1
         (Fin 0) (Fin 0) (Fin 0) (Fin 0) (Fin 0) (Fin 0) (Fin 1).
Proof.
  intros H.
  unfold angle_axis_to_rotation_matrix_row.
  assert (H0 : 0 <= x * x + (y * y + (z * z + 0))) by nra.
  change (sum_sq [Fin x; Fin y; Fin z])
    with (Fin (x * x + (y * y + (z * z + 0)))).
  rewrite (compute_rotation_matrix_Fin x y z _ H0).
  change (Fin (x * x + (y * y + (z * z + 0))))
    with (sum_sq [Fin x; Fin y; Fin z]).
  unfold default_eps.
  rewrite (sum_sq_gt_false x y z _ H).
  unfold _compute_rotation_matrix_taylor, eye4_with_block, mat4, item, lit.
  change (Mask.eq_bool (Mask.of_bool false) false) with 1%Z.
  simpl.
  fin_list ltac:(ring).
Qed.

(** The reference path below its threshold. *)
Lemma numpy_taylor (x y z : R) :
  x * x + y * y + z * z <= / 8388608 ->
  angle_axis_to_rotation_matrix_numpy (Vec [Fin x; Fin y; Fin z])
  = Ok (Mat 4 4 (mat4 1 (- z) y z 1 (- x) (- y) x 1
                      (Fin 0) (Fin 0) (Fin 0) (Fin 0) (Fin 0) (Fin 0) (Fin 1))).
Proof.
  intros H.
  unfold angle_axis_to_rotation_matrix_numpy, float32_eps.
  rewrite (sum_sq_gt_false x y z _ H).
  reflexivity.
Qed.

End Rodrigues.

(* ===================================================================== *)
(** ** Batches: the rows of the result are the rows of the argument, mapped *)
(* ===================================================================== *)

Section Batches.

Variable f : list scalar -> list scalar.
Variable w : nat.
Hypothesis f_width : forall v, List.length (f v) = w.

Lemma chunks_flat_map (l : list (list scalar)) :
  chunks (List.length l) w (flat_map f l) = map f l.
Proof.
  induction l as [| v l IH]; [reflexivity |].
  cbn [List.length chunks flat_map map].
  assert (Hf : firstn w (f v ++ flat_map f l) = f v).
  { rewrite <- (f_width v).
    rewrite firstn_app, firstn_all, Nat.sub_diag, firstn_O, app_nil_r.
    reflexivity. }
  assert (Hs : skipn w (f v ++ flat_map f l) = flat_map f l).
  { rewrite <- (f_width v).
    rewrite skipn_app, skipn_all, Nat.sub_diag, skipn_O.
    reflexivity. }
  rewrite Hf, Hs, IH; reflexivity.
Qed.

End Batches.

Lemma chunks_length (n w : nat) (l : list scalar) :
  List.length (chunks n w l) = n.
Proof.
  revert l; induction n as [| n IH]; intros l; [reflexivity |].
  cbn [chunks List.length]; rewrite IH; reflexivity.
Qed.

Lemma rows_length (t : tensor) :
  List.length (rows t) = nth 0 (tshape t) 0%nat.
Proof. apply chunks_length. Qed.

Lemma angle_axis_row_width (eps : scalar) (v : list scalar) :
  List.length (angle_axis_to_rotation_matrix_row eps v) = 16%nat.
Proof. reflexivity. Qed.

(** The matrices of the batched result, one per row of the argument. *)
Lemma angle_axis_torch_mats (t : tensor) (eps : scalar) :
  mats (angle_axis_to_rotation_matrix_torch t eps)
  = map (angle_axis_to_rotation_matrix_row eps) (rows t).
Proof.
  unfold angle_axis_to_rotation_matrix_torch, mats; cbn [tshape tdata nth].
  rewrite <- (rows_length t).
  apply (chunks_flat_map _ 16 (angle_axis_row_width eps)).
Qed.

(** C5.  The zero vector gives the 4x4 identity exactly, on both paths;
    and whenever theta^2 is at most the path's threshold (1e-6 on the
    batched path, float32 epsilon on the reference path) the result is the
    first-order matrix: diagonal 1, off-diagonal entries plus or minus the
    components of the input. *)
Theorem degenerate_branch_taylor :
  angle_axis_to_rotation_matrix
    (Tensor (mkTensor [1; 3]%nat [Fin 0; Fin 0; Fin 0]))
  = Ok (Tensor (mkTensor [1; 4; 4]%nat eye4))
  /\ angle_axis_to_rotation_matrix (NdArray (Vec [Fin 0; Fin 0; Fin 0]))
     = Ok (NdArray (Mat 4 4 eye4))
  /\ (forall (t : tensor) (n i : nat) (rx ry rz : scalar),
         tshape t = [n; 3]%nat ->
         nth_error (rows t) i = Some [rx; ry; rz] ->
         (sum_sq [rx; ry; rz] <=? default_eps) = true ->
         exists out,
           angle_axis_to_rotation_matrix (Tensor t) = Ok (Tensor out)
           /\ tshape out = [n; 4; 4]%nat
           /\ nth_error (mats out) i = Some (taylor_matrix rx ry rz))
  /\ (forall rx ry rz : scalar,
         (sum_sq [rx; ry; rz] <=? float32_eps) = true ->
         angle_axis_to_rotation_matrix (NdArray (Vec [rx; ry; rz]))
         = Ok (NdArray (Mat 4 4 (taylor_matrix rx ry rz)))).
Proof.
  assert (Hz : (0 * 0 + 0 * 0 + 0 * 0 <= / 1000000)%R) by lra.
  assert (Hz' : (0 * 0 + 0 * 0 + 0 * 0 <= / 8388608)%R) by lra.
  assert (He : mat4 1 (- 0) 0 0 1 (- 0) (- 0) 0 1
                    (Fin 0) (Fin 0) (Fin 0) (Fin 0) (Fin 0) (Fin 0) (Fin 1)
               = eye4).
  { unfold eye4, mat4; fin_list ltac:(ring). }
  split; [| split; [| split]].
  - unfold angle_axis_to_rotation_matrix, angle_axis_to_rotation_matrix_torch.
    cbn [tshape tdata List.length nth Nat.eqb andb negb rows chunks firstn
         skipn flat_map].
    rewrite (torch_row_taylor 0 0 0 Hz), He, app_nil_r; reflexivity.
  - unfold angle_axis_to_rotation_matrix.
    rewrite (numpy_taylor 0 0 0 Hz'), He; reflexivity.
  - intros t n i rx ry rz Hs Hr Hle.
    unfold default_eps in Hle.
    destruct (sum_sq_le_finite rx ry rz _ Hle) as (x & y & z & -> & -> & -> & H).
    exists (angle_axis_to_rotation_matrix_torch t default_eps).
    split; [| split].
    + unfold angle_axis_to_rotation_matrix; rewrite Hs; reflexivity.
    + unfold angle_axis_to_rotation_matrix_torch; rewrite Hs; reflexivity.
    + rewrite angle_axis_torch_mats, nth_error_map, Hr.
      cbn [option_map]; f_equal.
      exact (torch_row_taylor x y z H).
  - intros rx ry rz Hle.
    unfold float32_eps in Hle.
    destruct (sum_sq_le_finite rx ry rz _ Hle) as (x & y & z & -> & -> & -> & H).
    unfold angle_axis_to_rotation_matrix.
    rewrite (numpy_taylor x y z H); reflexivity.
Qed.

Lemma degenerate_branch_taylor_witness :
  (exists out,
      angle_axis_to_rotation_matrix
        (Tensor (mkTensor [2; 3]%nat
                   [Fin 1; Fin 0; Fin 0; Fin (/ 2000); Fin 0; Fin (- / 4000)]))
      = Ok (Tensor out)
      /\ tshape out = [2; 4; 4]%nat
      /\ nth_error (mats out) 1
         = Some (taylor_matrix (Fin (/ 2000)) (Fin 0) (Fin (- / 4000))))
  /\ angle_axis_to_rotation_matrix
       (NdArray (Vec [Fin (/ 4000); Fin 0; Fin 0]))
     = Ok (NdArray (Mat 4 4 (taylor_matrix (Fin (/ 4000)) (Fin 0) (Fin 0)))).
Proof.
  split.
  - apply (proj1 (proj2 (proj2 degenerate_branch_taylor))).
    + reflexivity.
    + reflexivity.
    + simpl; apply FlFacts.le_Fin; lra.
  - apply (proj2 (proj2 (proj2 degenerate_branch_taylor))).
    simpl; apply FlFacts.le_Fin; lra.
Defined.

(* ===================================================================== *)
(** ** Dispatch: unsupported types and shape validation *)
(* ===================================================================== *)

(** C8, at the failing input.  An object of an unrecognised class (here a
    Python list) makes [quaternion_to_angle_axis] raise [NameError]: the
    error message is built from [type(rotation_matrix)], a name bound
    nowhere.  The two sibling dispatchers raise [NotImplementedError] and
    name the class received. *)
Theorem unsupported_type_errors (c : string) :
  quaternion_to_angle_axis (PyOther c)
  = Raise (NameError "name 'rotation_matrix' is not defined")
  /\ angle_axis_to_rotation_matrix (PyOther c)
     = Raise (NotImplementedError ("Not suported type <class '" ++ c ++ "'>"))
  /\ rotation_matrix_to_quaternion (PyOther c)
     = Raise (NotImplementedError ("Not suported type <class '" ++ c ++ "'>")).
Proof. repeat split. Qed.

(** The reference path of the axis-angle converter reads a vector without
    looking at its length. *)
Lemma numpy_accepts_four_zeros :
  angle_axis_to_rotation_matrix (NdArray (Vec [Fin 0; Fin 0; Fin 0; Fin 0]))
  = Ok (NdArray (Mat 4 4 eye4)).
Proof.
  unfold angle_axis_to_rotation_matrix, angle_axis_to_rotation_matrix_numpy.
  assert (E : (sum_sq [Fin 0; Fin 0; Fin 0; Fin 0] >? float32_eps) = false).
  { unfold Fl.gt, float32_eps; simpl; apply FlFacts.lt_Fin_false; lra. }
  rewrite E.
  cbn [vitem List.length Nat.ltb Nat.leb bind item nth].
  unfold eye4, mat4, eye4_with_block, item, lit; simpl.
  do 3 f_equal.
  fin_list ltac:(ring).
Qed.

(** C9, counterexample.  Given a numpy vector of four numbers, which is not
    an array of width 3, [angle_axis_to_rotation_matrix] raises nothing and
    returns a matrix. *)
Lemma numpy_path_unvalidated :
  angle_axis_to_rotation_matrix (NdArray (Vec [Fin 0; Fin 0; Fin 0; Fin 0]))
  = Ok (NdArray (Mat 4 4 eye4))
  /\ forall e : exn,
      angle_axis_to_rotation_matrix
        (NdArray (Vec [Fin 0; Fin 0; Fin 0; Fin 0])) <> Raise e.
Proof.
  split; [exact numpy_accepts_four_zeros |].
  intros e; rewrite numpy_accepts_four_zeros; discriminate.
Qed.

(** C9 (as amended).  On the tensor path each dispatcher checks the shape
    on entry and raises [ValueError] before any computation: the axis-angle
    converter unless the tensor is two-dimensional of width 3, the
    matrix-to-quaternion converter (and so [rotation_matrix_to_angle_axis])
    unless it is three-dimensional with second dimension 4, the
    quaternion-to-axis-angle converter unless it is two-dimensional of
    width 4. *)
Theorem tensor_shape_validated (t : tensor) :
  (~ (List.length (tshape t) = 2%nat /\ nth 1 (tshape t) 0%nat = 3%nat) ->
   angle_axis_to_rotation_matrix (Tensor t)
   = Raise (ValueError "Input must be a two dimensional torch.Tensor."))
  /\ (~ (List.length (tshape t) = 3%nat /\ nth 1 (tshape t) 0%nat = 4%nat) ->
      rotation_matrix_to_quaternion (Tensor t)
      = Raise (ValueError "Input must be a three dimensional torch.Tensor.")
      /\ rotation_matrix_to_angle_axis (Tensor t)
         = Raise (ValueError "Input must be a three dimensional torch.Tensor."))
  /\ (~ (List.length (tshape t) = 2%nat /\ nth 1 (tshape t) 0%nat = 4%nat) ->
      quaternion_to_angle_axis (Tensor t)
      = Raise (ValueError "Input must be a two dimensional torch.Tensor.")).
Proof.
  assert (Hc : forall a b : nat,
             ~ (List.length (tshape t) = a /\ nth 1 (tshape t) 0%nat = b) ->
             negb ((List.length (tshape t) =? a)%nat
                   && (nth 1 (tshape t) 0 =? b)%nat) = true).
  { intros a b H.
    destruct (Nat.eqb_spec (List.length (tshape t)) a);
      destruct (Nat.eqb_spec (nth 1 (tshape t) 0%nat) b);
      try reflexivity.
    exfalso; apply H; split; assumption. }
  split; [intros H | split; [intros H; split | intros H]];
    unfold rotation_matrix_to_angle_axis, angle_axis_to_rotation_matrix,
      rotation_matrix_to_quaternion, quaternion_to_angle_axis;
    rewrite (Hc _ _ H); reflexivity.
Qed.

Lemma tensor_shape_validated_witness :
  angle_axis_to_rotation_matrix
    (Tensor (mkTensor [4]%nat [Fin 0; Fin 0; Fin 0; Fin 0]))
  = Raise (ValueError "Input must be a two dimensional torch.Tensor.")
  /\ rotation_matrix_to_quaternion
       (Tensor (mkTensor [4]%nat [Fin 0; Fin 0; Fin 0; Fin 0]))
     = Raise (ValueError "Input must be a three dimensional torch.Tensor.")
  /\ quaternion_to_angle_axis
       (Tensor (mkTensor [4]%nat [Fin 0; Fin 0; Fin 0; Fin 0]))
     = Raise (ValueError "Input must be a two dimensional torch.Tensor.").
Proof.
  pose (t := mkTensor [4]%nat [Fin 0; Fin 0; Fin 0; Fin 0]).
  destruct (tensor_shape_validated t) as (H1 & H2 & H3).
  split; [| split].
  - apply H1; simpl; intros [H _]; discriminate H.
  - apply H2; simpl; intros [H _]; discriminate H.
  - apply H3; simpl; intros [H _]; discriminate H.
Defined.

(* ===================================================================== *)
(** ** Quaternion to axis-angle: one row of the batched path *)
(* ===================================================================== *)

Section QuaternionRow.

Local Open Scope R_scope.

Variables w x y z : R.

Let N := w * w + (x * x + (y * y + (z * z + 0))).
Let nz := 1 / sqrt N.
Let q1 := x * nz.
Let q2 := y * nz.
Let q3 := z * nz.
Let s2 := q1 * q1 + q2 * q2 + q3 * q3.
Let c := w * nz.

Hypothesis N_pos : 0 < N.

Lemma quat_row_start :
  quaternion_to_angle_axis_row default_eps [Fin w; Fin x; Fin y; Fin z]
  = [ (Fin q1 * row_factor default_eps (Fin s2) (Fin c))%fl;
      (Fin q2 * row_factor default_eps (Fin s2) (Fin c))%fl;
      (Fin q3 * row_factor default_eps (Fin s2) (Fin c))%fl ].
Proof.
  unfold quaternion_to_angle_axis_row, norm, item, lit.
  cbn [nth].
  change (sum_sq [Fin w; Fin x; Fin y; Fin z]) with (Fin N).
  rewrite FlFacts.sqrt_Fin by lra.
  rewrite FlFacts.div_Fin by (apply Rgt_not_eq, sqrt_lt_R0; exact N_pos).
  reflexivity.
Qed.

End QuaternionRow.

Section RowFactor.

Local Open Scope R_scope.

Variables s2 c : R.
Hypothesis s2_nonneg : 0 <= s2.

Let eps := / 1000000.

Lemma sqrt_pos_ne (a : R) : 0 < a -> sqrt a <> 0.
Proof. intros H; apply Rgt_not_eq, sqrt_lt_R0; exact H. Qed.

(** General rotation, cosine below the threshold. *)
Lemma row_factor_general_neg :
  eps < s2 -> c < eps ->
  row_factor default_eps (Fin s2) (Fin c)
  = Fin (2 * Fl.Ratan2 (- sqrt s2) (- c) / sqrt s2).
Proof.
  intros Hs Hc.
  unfold row_factor, default_eps, Fl.gt.
  rewrite (proj2 (FlFacts.lt_Fin (/ 1000000) s2)) by exact Hs.
  rewrite (proj2 (FlFacts.lt_Fin c (/ 1000000))) by exact Hc.
  rewrite FlFacts.sqrt_Fin by exact s2_nonneg.
  mask_values; fl_fold.
  rewrite FlFacts.div_Fin by (apply sqrt_pos_ne; unfold eps in Hs; lra).
  fl_fold; f_equal; field.
  apply sqrt_pos_ne; unfold eps in Hs; lra.
Qed.

(** General rotation, cosine at or above the threshold. *)
Lemma row_factor_general_pos :
  eps < s2 -> eps <= c ->
  row_factor default_eps (Fin s2) (Fin c)
  = Fin (2 * Fl.Ratan2 (sqrt s2) c / sqrt s2).
Proof.
  intros Hs Hc.
  unfold row_factor, default_eps, Fl.gt.
  rewrite (proj2 (FlFacts.lt_Fin (/ 1000000) s2)) by exact Hs.
  rewrite (proj2 (FlFacts.lt_Fin_false c (/ 1000000))) by exact Hc.
  rewrite FlFacts.sqrt_Fin by exact s2_nonneg.
  mask_values; fl_fold.
  rewrite FlFacts.div_Fin by (apply sqrt_pos_ne; unfold eps in Hs; lra).
  fl_fold; f_equal; field.
  apply sqrt_pos_ne; unfold eps in Hs; lra.
Qed.

(** Near-identity rotation with a vector part that does not vanish. *)
Lemma row_factor_small :
  0 < s2 -> s2 <= eps ->
  row_factor default_eps (Fin s2) (Fin c) = Fin 2.
Proof.
  intros H0 Hs.
  unfold row_factor, default_eps, Fl.gt.
  rewrite (proj2 (FlFacts.lt_Fin_false (/ 1000000) s2)) by exact Hs.
  rewrite FlFacts.sqrt_Fin by exact s2_nonneg.
  destruct (Fin c <? Fin (/ 1000000))%fl;
    mask_values; fl_fold;
    rewrite FlFacts.div_Fin by (apply sqrt_pos_ne; exact H0);
    fl_fold; f_equal; ring.
Qed.

End RowFactor.

(** A quotient by zero multiplied by a zero mask is not a number. *)
Lemma div_zero_masked (a : R) : (Fin a / Fin 0 * Fin 0)%fl = NaN.
Proof.
  unfold Fl.div.
  destruct (Req_dec_T 0 0) as [_ | H]; [| exfalso; apply H; reflexivity].
  unfold Fl.signed_inf.
  destruct (Rlt_dec 0 a); [| destruct (Rlt_dec a 0)]; simpl;
    try reflexivity; unfold Fl.signed_inf; rdec; reflexivity.
Qed.

(** A vanishing vector part: the quotient by the zero sine is not removed
    by the zero mask, and the factor is not a number. *)
Lemma row_factor_zero (c : R) :
  row_factor default_eps (Fin 0) (Fin c) = NaN.
Proof.
  unfold row_factor, default_eps, Fl.gt.
  rewrite (proj2 (FlFacts.lt_Fin_false (/ 1000000) 0)) by lra.
  rewrite FlFacts.sqrt_Fin by lra.
  rewrite sqrt_0.
  destruct (Fin c <? Fin (/ 1000000))%fl;
    mask_values; fl_fold; rewrite div_zero_masked; reflexivity.
Qed.

(* ===================================================================== *)
(** ** Quaternion to axis-angle: the reference path on four numbers *)
(* ===================================================================== *)

Section QuaternionReference.

Local Open Scope R_scope.

Variables w x y z : R.

Let N := w * w + (x * x + (y * y + (z * z + 0))).
Let nz := 1 / sqrt N.
Let q1 := x * nz.
Let q2 := y * nz.
Let q3 := z * nz.
Let s2 := q1 * q1 + q2 * q2 + q3 * q3.
Let c := w * nz.

Hypothesis N_pos : 0 < N.

Lemma s2_nonneg : 0 <= s2.
Proof. unfold s2; nra. Qed.

Lemma numpy_quat_start :
  quaternion_to_angle_axis_numpy (Vec [Fin w; Fin x; Fin y; Fin z])
  = if (Fin s2 >? lit 0)%fl then
      let theta := if (Fin c <? lit 0)%fl
                   then Fl.atan2 (- Fl.sqrt (Fin s2)) (- Fin c)
                   else Fl.atan2 (Fl.sqrt (Fin s2)) (Fin c) in
      let k := (lit 2 * theta / Fl.sqrt (Fin s2))%fl in
      Ok (Vec [(Fin q1 * k)%fl; (Fin q2 * k)%fl; (Fin q3 * k)%fl])
    else
      Ok (Vec [(Fin q1 * lit 2)%fl; (Fin q2 * lit 2)%fl; (Fin q3 * lit 2)%fl]).
Proof.
  unfold quaternion_to_angle_axis_numpy, norm, item.
  cbn [List.length Nat.eqb negb nth].
  change (sum_sq [Fin w; Fin x; Fin y; Fin z]) with (Fin N).
  rewrite FlFacts.sqrt_Fin by lra.
  unfold lit.
  rewrite (FlFacts.div_Fin 1 (sqrt N)) by (apply sqrt_pos_ne; exact N_pos).
  reflexivity.
Qed.

Lemma numpy_quat_neg :
  0 < s2 -> c < 0 ->
  quaternion_to_angle_axis_numpy (Vec [Fin w; Fin x; Fin y; Fin z])
  = Ok (Vec [ Fin (q1 * (2 * Fl.Ratan2 (- sqrt s2) (- c) / sqrt s2));
              Fin (q2 * (2 * Fl.Ratan2 (- sqrt s2) (- c) / sqrt s2));
              Fin (q3 * (2 * Fl.Ratan2 (- sqrt s2) (- c) / sqrt s2)) ]).
Proof.
  intros Hs Hc.
  rewrite numpy_quat_start; unfold Fl.gt, lit.
  rewrite (proj2 (FlFacts.lt_Fin 0 s2)) by exact Hs.
  rewrite (proj2 (FlFacts.lt_Fin c 0)) by exact Hc.
  cbv zeta.
  rewrite FlFacts.sqrt_Fin by lra.
  fl_fold.
  rewrite FlFacts.div_Fin by (apply sqrt_pos_ne; exact Hs).
  fl_fold; reflexivity.
Qed.

Lemma numpy_quat_pos :
  0 < s2 -> 0 <= c ->
  quaternion_to_angle_axis_numpy (Vec [Fin w; Fin x; Fin y; Fin z])
  = Ok (Vec [ Fin (q1 * (2 * Fl.Ratan2 (sqrt s2) c / sqrt s2));
              Fin (q2 * (2 * Fl.Ratan2 (sqrt s2) c / sqrt s2));
              Fin (q3 * (2 * Fl.Ratan2 (sqrt s2) c / sqrt s2)) ]).
Proof.
  intros Hs Hc.
  rewrite numpy_quat_start; unfold Fl.gt, lit.
  rewrite (proj2 (FlFacts.lt_Fin 0 s2)) by exact Hs.
  rewrite (proj2 (FlFacts.lt_Fin_false c 0)) by exact Hc.
  cbv zeta.
  rewrite FlFacts.sqrt_Fin by lra.
  fl_fold.
  rewrite FlFacts.div_Fin by (apply sqrt_pos_ne; exact Hs).
  fl_fold; reflexivity.
Qed.

Lemma numpy_quat_zero :
  s2 <= 0 ->
  quaternion_to_angle_axis_numpy (Vec [Fin w; Fin x; Fin y; Fin z])
  = Ok (Vec [Fin (q1 * 2); Fin (q2 * 2); Fin (q3 * 2)]).
Proof.
  intros Hs.
  rewrite numpy_quat_start; unfold Fl.gt, lit.
  rewrite (proj2 (FlFacts.lt_Fin_false 0 s2)) by exact Hs.
  reflexivity.
Qed.

(** The batched row in the same three regimes, and at a vanishing vector
    part. *)
Lemma torch_quat_neg :
  / 1000000 < s2 -> c < / 1000000 ->
  quaternion_to_angle_axis_row default_eps [Fin w; Fin x; Fin y; Fin z]
  = [ Fin (q1 * (2 * Fl.Ratan2 (- sqrt s2) (- c) / sqrt s2));
      Fin (q2 * (2 * Fl.Ratan2 (- sqrt s2) (- c) / sqrt s2));
      Fin (q3 * (2 * Fl.Ratan2 (- sqrt s2) (- c) / sqrt s2)) ].
Proof.
  intros Hs Hc.
  rewrite (quat_row_start w x y z N_pos).
  fold N nz q1 q2 q3 s2 c.
  rewrite (row_factor_general_neg s2 c s2_nonneg Hs Hc).
  reflexivity.
Qed.

Lemma torch_quat_pos :
  / 1000000 < s2 -> / 1000000 <= c ->
  quaternion_to_angle_axis_row default_eps [Fin w; Fin x; Fin y; Fin z]
  = [ Fin (q1 * (2 * Fl.Ratan2 (sqrt s2) c / sqrt s2));
      Fin (q2 * (2 * Fl.Ratan2 (sqrt s2) c / sqrt s2));
      Fin (q3 * (2 * Fl.Ratan2 (sqrt s2) c / sqrt s2)) ].
Proof.
  intros Hs Hc.
  rewrite (quat_row_start w x y z N_pos).
  fold N nz q1 q2 q3 s2 c.
  rewrite (row_factor_general_pos s2 c s2_nonneg Hs Hc).
  reflexivity.
Qed.

Lemma torch_quat_small :
  0 < s2 -> s2 <= / 1000000 ->
  quaternion_to_angle_axis_row default_eps [Fin w; Fin x; Fin y; Fin z]
  = [Fin (q1 * 2); Fin (q2 * 2); Fin (q3 * 2)].
Proof.
  intros H0 Hs.
  rewrite (quat_row_start w x y z N_pos).
  fold N nz q1 q2 q3 s2 c.
  rewrite (row_factor_small s2 c s2_nonneg H0 Hs).
  reflexivity.
Qed.

Lemma torch_quat_zero :
  s2 = 0 ->
  quaternion_to_angle_axis_row default_eps [Fin w; Fin x; Fin y; Fin z]
  = [NaN; NaN; NaN].
Proof.
  intros Hs.
  rewrite (quat_row_start w x y z N_pos).
  fold N nz q1 q2 q3 s2 c.
  rewrite Hs, row_factor_zero.
  reflexivity.
Qed.

End QuaternionReference.

(** C4, at the failing input.  For the identity quaternion (1, 0, 0, 0) the
    squared sine is 0, below the threshold, and the batched path returns
    three not-a-numbers instead of 2*(0, 0, 0): the quotient 2*theta/sin
    is 0/0 and the blend [2*mask_neg + k_pos*mask_pos] keeps it.  The
    reference path, which branches, returns (0, 0, 0). *)
Theorem identity_quaternion_not_a_number :
  quaternion_to_angle_axis
    (Tensor (mkTensor [1; 4]%nat [Fin 1; Fin 0; Fin 0; Fin 0]))
  = Ok (Tensor (mkTensor [1; 3]%nat [NaN; NaN; NaN]))
  /\ quaternion_to_angle_axis (NdArray (Vec [Fin 1; Fin 0; Fin 0; Fin 0]))
     = Ok (NdArray (Vec [Fin 0; Fin 0; Fin 0])).
Proof.
  assert (HN : (0 < 1 * 1 + (0 * 0 + (0 * 0 + (0 * 0 + 0))))%R) by lra.
  split.
  - unfold quaternion_to_angle_axis, quaternion_to_angle_axis_torch.
    cbn [tshape tdata List.length nth Nat.eqb andb negb rows chunks firstn
         skipn flat_map bind].
    rewrite (torch_quat_zero 1 0 0 0 HN) by ring.
    reflexivity.
  - unfold quaternion_to_angle_axis.
    rewrite (numpy_quat_zero 1 0 0 0 HN) by (right; ring).
    cbn [bind]; do 3 f_equal.
    fin_list ltac:(ring).
Qed.

(* ===================================================================== *)
(** ** Quaternion to axis-angle with the norm and the sine given *)
(* ===================================================================== *)

Section QuaternionEval.

Local Open Scope R_scope.

(** A quaternion (w, x, y, z) of norm [n], whose normalised vector part
    has length [s]. *)
Variables w x y z n s : R.
Hypothesis n_pos : 0 < n.
Hypothesis n_norm : w * w + (x * x + (y * y + (z * z + 0))) = n * n.
Hypothesis s_nonneg : 0 <= s.
Hypothesis s_sine :
  x * (1 / n) * (x * (1 / n)) + y * (1 / n) * (y * (1 / n))
  + z * (1 / n) * (z * (1 / n)) = s * s.

Let c := w * (1 / n).
Let eps := / 1000000.

Lemma norm_is_n : sqrt (w * w + (x * x + (y * y + (z * z + 0)))) = n.
Proof. rewrite n_norm; apply sqrt_square; lra. Qed.

Lemma N_positive : 0 < w * w + (x * x + (y * y + (z * z + 0))).
Proof. rewrite n_norm; nra. Qed.

Lemma sine_is_s : sqrt (s * s) = s.
Proof. apply sqrt_square; exact s_nonneg. Qed.

Ltac to_ns lemma :=
  let H := fresh "H" in
  pose proof lemma as H;
  rewrite norm_is_n in H; rewrite s_sine in H; rewrite ?sine_is_s in H;
  fold c in H.

Lemma torch_eval_neg :
  eps < s * s -> c < eps ->
  quaternion_to_angle_axis_row default_eps [Fin w; Fin x; Fin y; Fin z]
  = [ Fin (x * (1 / n) * (2 * Fl.Ratan2 (- s) (- c) / s));
      Fin (y * (1 / n) * (2 * Fl.Ratan2 (- s) (- c) / s));
      Fin (z * (1 / n) * (2 * Fl.Ratan2 (- s) (- c) / s)) ].
Proof.
  intros Hs Hc; to_ns (torch_quat_neg w x y z N_positive); apply H; assumption.
Qed.

Lemma torch_eval_pos :
  eps < s * s -> eps <= c ->
  quaternion_to_angle_axis_row default_eps [Fin w; Fin x; Fin y; Fin z]
  = [ Fin (x * (1 / n) * (2 * Fl.Ratan2 s c / s));
      Fin (y * (1 / n) * (2 * Fl.Ratan2 s c / s));
      Fin (z * (1 / n) * (2 * Fl.Ratan2 s c / s)) ].
Proof.
  intros Hs Hc; to_ns (torch_quat_pos w x y z N_positive); apply H; assumption.
Qed.

Lemma torch_eval_small :
  0 < s * s -> s * s <= eps ->
  quaternion_to_angle_axis_row default_eps [Fin w; Fin x; Fin y; Fin z]
  = [Fin (x * (1 / n) * 2); Fin (y * (1 / n) * 2); Fin (z * (1 / n) * 2)].
Proof.
  intros H0 Hs; to_ns (torch_quat_small w x y z N_positive);
    apply H; assumption.
Qed.

Lemma numpy_eval_neg :
  0 < s * s -> c < 0 ->
  quaternion_to_angle_axis_numpy (Vec [Fin w; Fin x; Fin y; Fin z])
  = Ok (Vec [ Fin (x * (1 / n) * (2 * Fl.Ratan2 (- s) (- c) / s));
              Fin (y * (1 / n) * (2 * Fl.Ratan2 (- s) (- c) / s));
              Fin (z * (1 / n) * (2 * Fl.Ratan2 (- s) (- c) / s)) ]).
Proof.
  intros Hs Hc; to_ns (numpy_quat_neg w x y z N_positive); apply H; assumption.
Qed.

Lemma numpy_eval_pos :
  0 < s * s -> 0 <= c ->
  quaternion_to_angle_axis_numpy (Vec [Fin w; Fin x; Fin y; Fin z])
  = Ok (Vec [ Fin (x * (1 / n) * (2 * Fl.Ratan2 s c / s));
              Fin (y * (1 / n) * (2 * Fl.Ratan2 s c / s));
              Fin (z * (1 / n) * (2 * Fl.Ratan2 s c / s)) ]).
Proof.
  intros Hs Hc; to_ns (numpy_quat_pos w x y z N_positive); apply H; assumption.
Qed.

End QuaternionEval.

(* ===================================================================== *)
(** ** Antipodal quaternions *)
(* ===================================================================== *)

Section Atan2.

Local Open Scope R_scope.

Lemma Ratan2_opp_pos (y x : R) :
  0 < x -> Fl.Ratan2 (- y) x = - Fl.Ratan2 y x.
Proof.
  intros Hx; unfold Fl.Ratan2; rdec.
  replace (- y / x) with (- (y / x)) by (field; lra).
  apply atan_opp.
Qed.

Lemma Ratan2_zero_neg (y x : R) :
  x = 0 -> y < 0 -> Fl.Ratan2 y x = - (PI / 2).
Proof. intros -> Hy; unfold Fl.Ratan2; rdec; reflexivity. Qed.

(** The arctangent of a negative ordinate is negative. *)
Lemma Ratan2_neg (y x : R) : y < 0 -> Fl.Ratan2 y x < 0.
Proof.
  intros Hy.
  pose proof PI_RGT_0 as Hpi.
  unfold Fl.Ratan2; rdec; try lra.
  - assert (Hq : y / x < 0).
    { assert (Hi : 0 < / x) by (apply Rinv_0_lt_compat; lra).
      unfold Rdiv; nra. }
    pose proof (atan_increasing _ _ Hq) as Hi; rewrite atan_0 in Hi; exact Hi.
  - pose proof (atan_bound (y / x)); lra.
Qed.

End Atan2.

Section Antipodal.

Local Open Scope R_scope.

Variables w x y z : R.
Hypothesis unit_norm : w * w + x * x + y * y + z * z = 1.

Let s := sqrt (x * x + y * y + z * z).
Let eps := / 1000000.

Lemma antipodal_rows_agree :
  eps < x * x + y * y + z * z ->
  w <= - eps \/ eps <= w ->
  exists a b c : R,
    quaternion_to_angle_axis_row default_eps [Fin w; Fin x; Fin y; Fin z]
    = [Fin a; Fin b; Fin c]
    /\ quaternion_to_angle_axis_row default_eps
         (map Fl.neg [Fin w; Fin x; Fin y; Fin z])
       = [Fin a; Fin b; Fin c].
Proof.
  intros Hs Hw.
  assert (Hs0 : 0 <= s) by apply sqrt_pos.
  assert (Hss : s * s = x * x + y * y + z * z).
  { unfold s; apply sqrt_sqrt; unfold eps in Hs; lra. }
  assert (Hsp : 0 < s).
  { destruct Hs0 as [H | H]; [exact H |].
    rewrite <- H in Hss; unfold eps in Hs; lra. }
  assert (Hn1 : w * w + (x * x + (y * y + (z * z + 0))) = 1 * 1) by lra.
  assert (Hn2 : - w * - w + (- x * - x + (- y * - y + (- z * - z + 0))) = 1 * 1)
    by lra.
  assert (Hq1 : x * (1 / 1) * (x * (1 / 1)) + y * (1 / 1) * (y * (1 / 1))
                + z * (1 / 1) * (z * (1 / 1)) = s * s) by (rewrite Hss; field).
  assert (Hq2 : - x * (1 / 1) * (- x * (1 / 1)) + - y * (1 / 1) * (- y * (1 / 1))
                + - z * (1 / 1) * (- z * (1 / 1)) = s * s) by (rewrite Hss; field).
  cbn [map Fl.neg].
  destruct Hw as [Hw | Hw].
  - (* cosine at most -eps: q takes the corrected arctangent, -q the plain one *)
    rewrite (torch_eval_neg w x y z 1 s Rlt_0_1 Hn1 Hs0 Hq1)
      by (unfold eps in *; lra).
    rewrite (torch_eval_pos (- w) (- x) (- y) (- z) 1 s Rlt_0_1 Hn2 Hs0 Hq2)
      by (unfold eps in *; lra).
    rewrite Ratan2_opp_pos by (unfold eps in *; lra).
    replace (- (w * (1 / 1))) with (- w * (1 / 1)) by field.
    eexists _, _, _; split; [reflexivity |].
    fin_list ltac:(field; lra).
  - (* cosine at least eps: the other way round *)
    rewrite (torch_eval_pos w x y z 1 s Rlt_0_1 Hn1 Hs0 Hq1)
      by (unfold eps in *; lra).
    rewrite (torch_eval_neg (- w) (- x) (- y) (- z) 1 s Rlt_0_1 Hn2 Hs0 Hq2)
      by (unfold eps in *; lra).
    replace (- (- w * (1 / 1))) with (w * (1 / 1)) by field.
    rewrite Ratan2_opp_pos by (unfold eps in *; lra).
    eexists _, _, _; split; [reflexivity |].
    fin_list ltac:(field; lra).
Qed.

End Antipodal.

(** A batch of one quaternion through the dispatcher. *)
Lemma quaternion_single (a b c d : scalar) :
  quaternion_to_angle_axis (Tensor (mkTensor [1; 4]%nat [a; b; c; d]))
  = Ok (Tensor (mkTensor [1; 3]%nat
                  (quaternion_to_angle_axis_row default_eps [a; b; c; d]))).
Proof.
  unfold quaternion_to_angle_axis, quaternion_to_angle_axis_torch.
  cbn [tshape tdata List.length nth Nat.eqb andb negb rows chunks firstn
       skipn flat_map bind].
  rewrite app_nil_r; reflexivity.
Qed.

(** The half-turn about the first axis, and its antipode. *)
Lemma half_turn_rows :
  quaternion_to_angle_axis_row default_eps [Fin 0; Fin 1; Fin 0; Fin 0]
  = [Fin (- PI); Fin 0; Fin 0]
  /\ quaternion_to_angle_axis_row default_eps
       (map Fl.neg [Fin 0; Fin 1; Fin 0; Fin 0])
     = [Fin PI; Fin 0; Fin 0].
Proof.
  assert (H01 : (0 <= 1)%R) by lra.
  split.
  - assert (Hn : (0 * 0 + (1 * 1 + (0 * 0 + (0 * 0 + 0))) = 1 * 1)%R) by ring.
    assert (Hq : (1 * (1 / 1) * (1 * (1 / 1)) + 0 * (1 / 1) * (0 * (1 / 1))
                  + 0 * (1 / 1) * (0 * (1 / 1)) = 1 * 1)%R) by field.
    rewrite (torch_eval_neg 0 1 0 0 1 1 Rlt_0_1 Hn H01 Hq) by lra.
    rewrite Ratan2_zero_neg by lra.
    fin_list ltac:(field).
  - cbn [map Fl.neg].
    assert (Hn : (- 0 * - 0 + (Ropp 1 * Ropp 1 + (- 0 * - 0 + (- 0 * - 0 + 0)))
                  = 1 * 1)%R) by ring.
    assert (Hq : (Ropp 1 * (1 / 1) * (Ropp 1 * (1 / 1))
                  + - 0 * (1 / 1) * (- 0 * (1 / 1))
                  + - 0 * (1 / 1) * (- 0 * (1 / 1)) = 1 * 1)%R) by field.
    rewrite (torch_eval_neg (- 0) (Ropp 1) (- 0) (- 0) 1 1 Rlt_0_1 Hn H01 Hq)
      by lra.
    rewrite Ratan2_zero_neg by lra.
    fin_list ltac:(field).
Qed.

(** C6, counterexample.  The unit quaternion q = (0, 1, 0, 0) goes to
    (-PI, 0, 0) and its antipode -q to (PI, 0, 0): the two axis-angle
    vectors differ by 2*PI in the first component. *)
Lemma antipodal_half_turn_differs :
  quaternion_to_angle_axis
    (Tensor (mkTensor [1; 4]%nat [Fin 0; Fin 1; Fin 0; Fin 0]))
  = Ok (Tensor (mkTensor [1; 3]%nat [Fin (- PI); Fin 0; Fin 0]))
  /\ quaternion_to_angle_axis
       (Tensor (mkTensor [1; 4]%nat (map Fl.neg [Fin 0; Fin 1; Fin 0; Fin 0])))
     = Ok (Tensor (mkTensor [1; 3]%nat [Fin PI; Fin 0; Fin 0]))
  /\ (PI - - PI > 6)%R.
Proof.
  destruct half_turn_rows as [H1 H2].
  split; [| split].
  - rewrite quaternion_single, H1; reflexivity.
  - cbn [map]; rewrite quaternion_single.
    cbn [map] in H2; rewrite H2; reflexivity.
  - pose proof PI2_3_2; lra.
Qed.

(** C6 (as amended).  For every unit quaternion q whose vector part
    satisfies sin^2 > eps and whose scalar part satisfies |w| >= eps, the
    batched converter returns the same axis-angle vector, made of numbers,
    for q and for -q. *)
Theorem antipodal_quaternions_agree (w x y z : R) :
  (w * w + x * x + y * y + z * z = 1)%R ->
  (/ 1000000 < x * x + y * y + z * z)%R ->
  (w <= - / 1000000 \/ / 1000000 <= w)%R ->
  exists a b c : R,
    quaternion_to_angle_axis
      (Tensor (mkTensor [1; 4]%nat [Fin w; Fin x; Fin y; Fin z]))
    = Ok (Tensor (mkTensor [1; 3]%nat [Fin a; Fin b; Fin c]))
    /\ quaternion_to_angle_axis
         (Tensor (mkTensor [1; 4]%nat (map Fl.neg [Fin w; Fin x; Fin y; Fin z])))
       = Ok (Tensor (mkTensor [1; 3]%nat [Fin a; Fin b; Fin c])).
Proof.
  intros Hu Hs Hw.
  destruct (antipodal_rows_agree w x y z Hu Hs Hw) as (a & b & c & H1 & H2).
  exists a, b, c; split.
  - rewrite quaternion_single, H1; reflexivity.
  - cbn [map]; rewrite quaternion_single.
    cbn [map] in H2; rewrite H2; reflexivity.
Qed.

Lemma antipodal_quaternions_agree_witness :
  exists a b c : R,
    quaternion_to_angle_axis
      (Tensor (mkTensor [1; 4]%nat [Fin (3/5); Fin (4/5); Fin 0; Fin 0]))
    = Ok (Tensor (mkTensor [1; 3]%nat [Fin a; Fin b; Fin c]))
    /\ quaternion_to_angle_axis
         (Tensor (mkTensor [1; 4]%nat
                    (map Fl.neg [Fin (3/5); Fin (4/5); Fin 0; Fin 0])))
       = Ok (Tensor (mkTensor [1; 3]%nat [Fin a; Fin b; Fin c])).
Proof.
  apply (antipodal_quaternions_agree (3/5) (4/5) 0 0); lra.
Defined.

(* ===================================================================== *)
(** ** Rotation matrix to quaternion: the reference path on a block *)
(* ===================================================================== *)

Section ReferenceQuaternion.

Local Open Scope R_scope.

Variables r00 r01 r02 r10 r11 r12 r20 r21 r22 : R.
Variables c0 c1 c2 b0 b1 b2 b3 : scalar.

Let m := mat4 r00 r01 r02 r10 r11 r12 r20 r21 r22 c0 c1 c2 b0 b1 b2 b3.
Let t0 := r00 - r11 - r22 + 1.
Let t1 := r11 - r22 - r00 + 1.
Let t2 := r22 - r00 - r11 + 1.
Let t3 := r00 + r11 + r22 + 1.

(** The quaternion before normalisation, in the four branches of the
    reference path: non-negative trace, or the largest diagonal entry at
    index 0, 1 or 2. *)
Lemma numpy_quaternion_cases :
  let q := rotation_matrix_to_quaternion_numpy (Mat 4 4 m) in
  (0 <= r00 + r11 + r22 /\
   q = Ok (Vec (normalized
                  [ Fin (1/2 * sqrt t3); Fin ((r21 - r12) * (1/2 / sqrt t3));
                    Fin ((r02 - r20) * (1/2 / sqrt t3));
                    Fin ((r10 - r01) * (1/2 / sqrt t3)) ])))
  \/ (r00 + r11 + r22 < 0 /\ r11 <= r00 /\ r22 <= r00 /\
   q = Ok (Vec (normalized
                  [ Fin ((r21 - r12) * (1/2 / sqrt t0)); Fin (1/2 * sqrt t0);
                    Fin ((r10 + r01) * (1/2 / sqrt t0));
                    Fin ((r20 + r02) * (1/2 / sqrt t0)) ])))
  \/ (r00 + r11 + r22 < 0 /\ r00 < r11 /\ r22 <= r11 /\
   q = Ok (Vec (normalized
                  [ Fin ((r02 - r20) * (1/2 / sqrt t1));
                    Fin ((r01 + r10) * (1/2 / sqrt t1)); Fin (1/2 * sqrt t1);
                    Fin ((r21 + r12) * (1/2 / sqrt t1)) ])))
  \/ (r00 + r11 + r22 < 0 /\ r00 < r22 /\ r11 < r22 /\
   q = Ok (Vec (normalized
                  [ Fin ((r10 - r01) * (1/2 / sqrt t2));
                    Fin ((r02 + r20) * (1/2 / sqrt t2));
                    Fin ((r12 + r21) * (1/2 / sqrt t2)); Fin (1/2 * sqrt t2) ]))).
Proof.
  intros q; subst q.
  unfold rotation_matrix_to_quaternion_numpy.
  cbn [Nat.ltb Nat.leb orb].
  unfold m, mat4, item, Fl.ge, Fl.gt, lit.
  cbn [Nat.mul Nat.add nth].
  fl_fold.
  destruct (Rle_dec 0 (r00 + r11 + r22)) as [Ht | Ht].
  - rewrite (proj2 (FlFacts.le_Fin 0 (r00 + r11 + r22)) Ht).
    left; split; [exact Ht |].
    rewrite FlFacts.sqrt_Fin by lra.
    rewrite FlFacts.div_Fin by (apply sqrt_pos_ne; lra).
    fl_fold; reflexivity.
  - rewrite (proj2 (FlFacts.le_Fin_false 0 (r00 + r11 + r22))) by lra.
    destruct (Rlt_dec r00 r11) as [H01 | H01].
    + rewrite (proj2 (FlFacts.lt_Fin r00 r11)) by lra.
      cbn [Nat.mul Nat.add nth].
      destruct (Rlt_dec r11 r22) as [H12 | H12].
      * rewrite (proj2 (FlFacts.lt_Fin r11 r22)) by lra.
        cbn [Nat.mul Nat.add nth Nat.modulo Nat.divmod fst snd Nat.sub].
        fl_fold.
        right; right; right; repeat (split; [lra |]).
        rewrite FlFacts.sqrt_Fin by lra.
        rewrite FlFacts.div_Fin by (apply sqrt_pos_ne; lra).
        fl_fold; reflexivity.
      * rewrite (proj2 (FlFacts.lt_Fin_false r11 r22)) by lra.
        cbn [Nat.mul Nat.add nth Nat.modulo Nat.divmod fst snd Nat.sub].
        fl_fold.
        right; right; left; repeat (split; [lra |]).
        rewrite FlFacts.sqrt_Fin by lra.
        rewrite FlFacts.div_Fin by (apply sqrt_pos_ne; lra).
        fl_fold; reflexivity.
    + rewrite (proj2 (FlFacts.lt_Fin_false r00 r11)) by lra.
      cbn [Nat.mul Nat.add nth].
      destruct (Rlt_dec r00 r22) as [H02 | H02].
      * rewrite (proj2 (FlFacts.lt_Fin r00 r22)) by lra.
        cbn [Nat.mul Nat.add nth Nat.modulo Nat.divmod fst snd Nat.sub].
        fl_fold.
        right; right; right; repeat (split; [lra |]).
        rewrite FlFacts.sqrt_Fin by lra.
        rewrite FlFacts.div_Fin by (apply sqrt_pos_ne; lra).
        fl_fold; reflexivity.
      * rewrite (proj2 (FlFacts.lt_Fin_false r00 r22)) by lra.
        cbn [Nat.mul Nat.add nth Nat.modulo Nat.divmod fst snd Nat.sub].
        fl_fold.
        right; left; repeat (split; [lra |]).
        rewrite FlFacts.sqrt_Fin by lra.
        rewrite FlFacts.div_Fin by (apply sqrt_pos_ne; lra).
        fl_fold; reflexivity.
Qed.

End ReferenceQuaternion.

(* ===================================================================== *)
(** ** Rotation matrices and the norm of the quaternion *)
(* ===================================================================== *)

Section RotationAlgebra.

Local Open Scope R_scope.

Variables r00 r01 r02 r10 r11 r12 r20 r21 r22 : R.
Hypothesis rot : is_rotation r00 r01 r02 r10 r11 r12 r20 r21 r22.

(** A rotation matrix is its own cofactor matrix. *)
Lemma cof00 : r00 = r11 * r22 - r12 * r21.
Proof. destruct rot as (? & ? & ? & ? & ? & ? & ?); nsatz. Qed.

Lemma cof11 : r11 = r00 * r22 - r02 * r20.
Proof. destruct rot as (? & ? & ? & ? & ? & ? & ?); nsatz. Qed.

Lemma cof22 : r22 = r00 * r11 - r01 * r10.
Proof. destruct rot as (? & ? & ? & ? & ? & ? & ?); nsatz. Qed.

Ltac rot_facts :=
  pose proof cof00; pose proof cof11; pose proof cof22;
  destruct rot as (? & ? & ? & ? & ? & ? & ?).

(** The squared length of each candidate is four times its pivot. *)
Lemma cand0_length :
  (r21 - r12) * (r21 - r12) + (1 + r00 - r11 - r22) * (1 + r00 - r11 - r22)
  + (r10 + r01) * (r10 + r01) + (r02 + r20) * (r02 + r20)
  = 4 * (1 + r00 - r11 - r22).
Proof. rot_facts; lra. Qed.

Lemma cand1_length :
  (r02 - r20) * (r02 - r20) + (r10 + r01) * (r10 + r01)
  + (1 - r00 + r11 - r22) * (1 - r00 + r11 - r22) + (r21 + r12) * (r21 + r12)
  = 4 * (1 - r00 + r11 - r22).
Proof. rot_facts; lra. Qed.

Lemma cand2_length :
  (r10 - r01) * (r10 - r01) + (r02 + r20) * (r02 + r20)
  + (r21 + r12) * (r21 + r12) + (1 - r00 - r11 + r22) * (1 - r00 - r11 + r22)
  = 4 * (1 - r00 - r11 + r22).
Proof. rot_facts; lra. Qed.

Lemma cand3_length :
  (1 + r00 + r11 + r22) * (1 + r00 + r11 + r22) + (r21 - r12) * (r21 - r12)
  + (r02 - r20) * (r02 - r20) + (r10 - r01) * (r10 - r01)
  = 4 * (1 + r00 + r11 + r22).
Proof. rot_facts; lra. Qed.

End RotationAlgebra.

Section Norms.

Local Open Scope R_scope.

Lemma norm_Fin (a b c d : R) :
  norm [Fin a; Fin b; Fin c; Fin d]
  = Fin (sqrt (a * a + (b * b + (c * c + (d * d + 0))))).
Proof.
  unfold norm; cbn [sum_sq]; fl_fold.
  apply FlFacts.sqrt_Fin; nra.
Qed.

(** Four components over the root of their pivot, halved: the length is 1
    when the squares add up to four times the pivot. *)
Lemma scaled_norm_one (a b c d t : R) :
  0 < t ->
  a * a + b * b + c * c + d * d = 4 * t ->
  norm [ Fin (a / sqrt t * (1/2)); Fin (b / sqrt t * (1/2));
         Fin (c / sqrt t * (1/2)); Fin (d / sqrt t * (1/2)) ] = Fin 1.
Proof.
  intros Ht Hs.
  rewrite norm_Fin; f_equal.
  assert (Hr : sqrt t * sqrt t = t) by (apply sqrt_sqrt; lra).
  assert (Hn : sqrt t <> 0) by (apply sqrt_pos_ne; exact Ht).
  replace (a / sqrt t * (1 / 2) * (a / sqrt t * (1 / 2))
           + (b / sqrt t * (1 / 2) * (b / sqrt t * (1 / 2))
              + (c / sqrt t * (1 / 2) * (c / sqrt t * (1 / 2))
                 + (d / sqrt t * (1 / 2) * (d / sqrt t * (1 / 2)) + 0))))
    with ((a * a + b * b + c * c + d * d) / (4 * (sqrt t * sqrt t)))
    by (field; exact Hn).
  rewrite Hr, Hs.
  replace (4 * t / (4 * t)) with 1 by (field; lra).
  apply sqrt_1.
Qed.

(** Dividing four numbers, not all zero, by their norm. *)
Lemma normalized_Fin (a b c d : R) :
  let S := a * a + (b * b + (c * c + (d * d + 0))) in
  0 < S ->
  normalized [Fin a; Fin b; Fin c; Fin d]
  = [Fin (a / sqrt S); Fin (b / sqrt S); Fin (c / sqrt S); Fin (d / sqrt S)].
Proof.
  intros S HS.
  unfold normalized; rewrite norm_Fin; fold S.
  cbn [map].
  rewrite !FlFacts.div_Fin by (apply sqrt_pos_ne; exact HS).
  reflexivity.
Qed.

Lemma normalized_norm_one (a b c d : R) :
  0 < a * a + (b * b + (c * c + (d * d + 0))) ->
  norm (normalized [Fin a; Fin b; Fin c; Fin d]) = Fin 1.
Proof.
  intros HS.
  rewrite (normalized_Fin a b c d HS), norm_Fin; f_equal.
  set (S := a * a + (b * b + (c * c + (d * d + 0)))) in *.
  assert (Hr : sqrt S * sqrt S = S) by (apply sqrt_sqrt; lra).
  assert (Hn : sqrt S <> 0) by (apply sqrt_pos_ne; exact HS).
  replace (a / sqrt S * (a / sqrt S)
           + (b / sqrt S * (b / sqrt S)
              + (c / sqrt S * (c / sqrt S) + (d / sqrt S * (d / sqrt S) + 0))))
    with (S / (sqrt S * sqrt S)) by (unfold S; field; exact Hn).
  rewrite Hr.
  replace (S / S) with 1 by (field; lra).
  apply sqrt_1.
Qed.

End Norms.

(** A batch of one matrix through the dispatcher. *)
Lemma rotation_single (r00 r01 r02 r10 r11 r12 r20 r21 r22 : R)
      (c0 c1 c2 b0 b1 b2 b3 : scalar) :
  let m := mat4 r00 r01 r02 r10 r11 r12 r20 r21 r22 c0 c1 c2 b0 b1 b2 b3 in
  rotation_matrix_to_quaternion (Tensor (mkTensor [1; 4; 4]%nat m))
  = Ok (Tensor (mkTensor [1; 4]%nat
                  (rotation_matrix_to_quaternion_elem default_eps 4 m))).
Proof.
  intros m.
  unfold rotation_matrix_to_quaternion, rotation_matrix_to_quaternion_torch.
  cbn [tshape tdata List.length nth Nat.eqb andb negb orb Nat.ltb Nat.leb
       mats chunks Nat.mul Nat.add bind].
  unfold m, mat4; cbn [firstn skipn flat_map].
  rewrite app_nil_r; reflexivity.
Qed.

Section UnitNorm.

Local Open Scope R_scope.

Variables r00 r01 r02 r10 r11 r12 r20 r21 r22 : R.
Variables c0 c1 c2 b0 b1 b2 b3 : scalar.

Let m := mat4 r00 r01 r02 r10 r11 r12 r20 r21 r22 c0 c1 c2 b0 b1 b2 b3.

(** The batched path does not normalise: the length is 1 because the
    matrix is a rotation. *)
Lemma torch_quaternion_norm :
  is_rotation r00 r01 r02 r10 r11 r12 r20 r21 r22 ->
  norm (rotation_matrix_to_quaternion_elem default_eps 4 m) = Fin 1.
Proof.
  intros rot.
  destruct (quaternion_elem_cases r00 r01 r02 r10 r11 r12 r20 r21 r22
                                  c0 c1 c2 b0 b1 b2 b3)
    as [(H2 & H01 & E) | [(H2 & H01 & E) | [(H2 & H01 & E) | (H2 & H01 & E)]]];
    fold m in E; rewrite E; apply scaled_norm_one; try lra.
  - exact (cand0_length _ _ _ _ _ _ _ _ _ rot).
  - exact (cand1_length _ _ _ _ _ _ _ _ _ rot).
  - exact (cand2_length _ _ _ _ _ _ _ _ _ rot).
  - exact (cand3_length _ _ _ _ _ _ _ _ _ rot).
Qed.

Lemma pos_sum (a b c d : R) :
  0 < a \/ 0 < b \/ 0 < c \/ 0 < d ->
  0 < a * a + (b * b + (c * c + (d * d + 0))).
Proof. intros [H | [H | [H | H]]]; nra. Qed.

(** The reference path normalises, and its pivot component is positive:
    the length is 1 for every block of numbers. *)
Lemma numpy_quaternion_norm :
  exists q, rotation_matrix_to_quaternion_numpy (Mat 4 4 m) = Ok (Vec q)
            /\ norm q = Fin 1.
Proof.
  assert (Hp : forall t : R, 1 <= t -> 0 < 1/2 * sqrt t).
  { intros t Ht.
    assert (0 < sqrt t) by (apply sqrt_lt_R0; lra); lra. }
  destruct (numpy_quaternion_cases r00 r01 r02 r10 r11 r12 r20 r21 r22
                                   c0 c1 c2 b0 b1 b2 b3)
    as [(H & E) | [(H & H1 & H2 & E) | [(H & H1 & H2 & E) | (H & H1 & H2 & E)]]];
    fold m in E; rewrite E; eexists; (split; [reflexivity |]);
    apply normalized_norm_one.
  - apply pos_sum; left; apply Hp; lra.
  - apply pos_sum; right; left; apply Hp; lra.
  - apply pos_sum; right; right; left; apply Hp; lra.
  - apply pos_sum; right; right; right; apply Hp; lra.
Qed.

End UnitNorm.

(** C3.  For every valid rotation matrix (orthonormal block, determinant
    1) the quaternion returned by [rotation_matrix_to_quaternion], on the
    batched and on the reference path, has norm 1 within 1e-6 (in exact
    arithmetic the norm is 1). *)
Theorem quaternion_unit_norm
        (r00 r01 r02 r10 r11 r12 r20 r21 r22 : R)
        (c0 c1 c2 b0 b1 b2 b3 : scalar) :
  is_rotation r00 r01 r02 r10 r11 r12 r20 r21 r22 ->
  let m := mat4 r00 r01 r02 r10 r11 r12 r20 r21 r22 c0 c1 c2 b0 b1 b2 b3 in
  (exists (q : list scalar) (n : R),
      rotation_matrix_to_quaternion (Tensor (mkTensor [1; 4; 4]%nat m))
      = Ok (Tensor (mkTensor [1; 4]%nat q))
      /\ norm q = Fin n /\ (Rabs (n - 1) <= / 1000000)%R)
  /\ (exists (q : list scalar) (n : R),
         rotation_matrix_to_quaternion (NdArray (Mat 4 4 m))
         = Ok (NdArray (Vec q))
         /\ norm q = Fin n /\ (Rabs (n - 1) <= / 1000000)%R).
Proof.
  intros rot m.
  assert (Hone : (Rabs (1 - 1) <= / 1000000)%R).
  { replace (1 - 1)%R with 0%R by ring; rewrite Rabs_R0; lra. }
  split.
  - exists (rotation_matrix_to_quaternion_elem default_eps 4 m), 1%R.
    split; [apply rotation_single | split; [| exact Hone]].
    apply torch_quaternion_norm; exact rot.
  - destruct (numpy_quaternion_norm r00 r01 r02 r10 r11 r12 r20 r21 r22
                                    c0 c1 c2 b0 b1 b2 b3) as (q & E & Hn).
    exists q, 1%R; split; [| split; [exact Hn | exact Hone]].
    unfold rotation_matrix_to_quaternion; fold m in E; rewrite E; reflexivity.
Qed.

Lemma quaternion_unit_norm_witness :
  let m := mat4 (-7/25) (24/25) 0 (-24/25) (-7/25) 0 0 0 1
                (Fin 0) (Fin 0) (Fin 0) (Fin 0) (Fin 0) (Fin 0) (Fin 1) in
  (exists (q : list scalar) (n : R),
      rotation_matrix_to_quaternion (Tensor (mkTensor [1; 4; 4]%nat m))
      = Ok (Tensor (mkTensor [1; 4]%nat q))
      /\ norm q = Fin n /\ (Rabs (n - 1) <= / 1000000)%R)
  /\ (exists (q : list scalar) (n : R),
         rotation_matrix_to_quaternion (NdArray (Mat 4 4 m))
         = Ok (NdArray (Vec q))
         /\ norm q = Fin n /\ (Rabs (n - 1) <= / 1000000)%R).
Proof.
  apply quaternion_unit_norm.
  unfold is_rotation; repeat split; lra.
Defined.

(* ===================================================================== *)
(** ** The round trip next to a half-turn *)
(* ===================================================================== *)

Section NearHalfTurn.

Local Open Scope R_scope.

(** A quaternion (q0, 0, 0, q3) whose scalar part is non-negative but
    below [eps] times the vector part: the cosine falls under the
    threshold of the batched path, the corrected arctangent is taken, and
    the third component of the result is negative although the vector
    part is positive. *)
Lemma small_cosine_flips (q0 q3 : R) :
  0 < q3 -> 0 <= q0 -> q0 < / 1000000 * q3 ->
  exists a b c : R,
    quaternion_to_angle_axis_row default_eps [Fin q0; Fin 0; Fin 0; Fin q3]
    = [Fin a; Fin b; Fin c] /\ c < 0.
Proof.
  intros H3 H0 Hlt.
  set (N := q0 * q0 + (0 * 0 + (0 * 0 + (q3 * q3 + 0)))).
  assert (HN : 0 < N) by (unfold N; nra).
  set (n := sqrt N).
  assert (Hn : 0 < n) by (apply sqrt_lt_R0; exact HN).
  assert (Hnn : n * n = N) by (apply sqrt_sqrt; lra).
  assert (Hq3n : q3 <= n).
  { apply Rnot_lt_le; intros Hc.
    assert (n * n < q3 * q3) by nra.
    unfold N in Hnn; nra. }
  set (s := q3 * (1 / n)).
  assert (Hin : 0 < 1 / n) by (apply Rdiv_lt_0_compat; lra).
  assert (Hs : 0 < s) by (unfold s; nra).
  assert (Hnorm : q0 * q0 + (0 * 0 + (0 * 0 + (q3 * q3 + 0))) = n * n)
    by (rewrite Hnn; reflexivity).
  assert (Hsine : 0 * (1 / n) * (0 * (1 / n)) + 0 * (1 / n) * (0 * (1 / n))
                  + q3 * (1 / n) * (q3 * (1 / n)) = s * s)
    by (unfold s; ring).
  assert (Hs2 : / 1000000 < s * s).
  { assert (Hs2n : s * s * N = q3 * q3).
    { unfold s; rewrite <- Hnn; field; lra. }
    assert (HNb : N < 2 * (q3 * q3)) by (unfold N; nra).
    apply Rnot_le_lt; intros Hc.
    assert (s * s * N <= / 1000000 * N) by nra.
    nra. }
  assert (Hc : q0 * (1 / n) < / 1000000).
  { assert (Hcn : q0 * (1 / n) * n = q0) by (field; lra).
    apply Rnot_le_lt; intros Hc.
    assert (/ 1000000 * n <= q0 * (1 / n) * n) by nra.
    nra. }
  rewrite (torch_eval_neg q0 0 0 q3 n s Hn Hnorm (Rlt_le _ _ Hs) Hsine Hs2 Hc).
  eexists _, _, _; split; [reflexivity |].
  assert (Ha : Fl.Ratan2 (- s) (- (q0 * (1 / n))) < 0)
    by (apply Ratan2_neg; lra).
  assert (Hk : 2 * Fl.Ratan2 (- s) (- (q0 * (1 / n))) / s < 0).
  { assert (0 < / s) by (apply Rinv_0_lt_compat; exact Hs).
    unfold Rdiv; nra. }
  fold s; nra.
Qed.

End NearHalfTurn.

Section AboutThirdAxis.

Local Open Scope R_scope.

Variable theta : R.
Hypothesis theta_pos : 0 < theta.
Hypothesis theta_large : / 1000000 < theta * theta.

(** The length of the "unit" axis of the batched path. *)
Let rho := theta / (theta + / 1000000).

Lemma sum_sq_gt_true (x y z e : R) :
  e < x * x + y * y + z * z ->
  (sum_sq [Fin x; Fin y; Fin z] >? Fin e)%fl = true.
Proof.
  intros H; unfold Fl.gt; simpl; apply FlFacts.lt_Fin; lra.
Qed.

(** The batched path on the vector (0, 0, theta), above its threshold. *)
Lemma torch_row_about_z :
  angle_axis_to_rotation_matrix_row default_eps [Fin 0; Fin 0; Fin theta]
  = mat4 (cos theta) (- (rho * sin theta)) 0
         (rho * sin theta) (cos theta) 0
         0 0 (cos theta + rho * rho * (1 - cos theta))
         (Fin 0) (Fin 0) (Fin 0) (Fin 0) (Fin 0) (Fin 0) (Fin 1).
Proof.
  unfold angle_axis_to_rotation_matrix_row.
  assert (H0 : 0 <= 0 * 0 + (0 * 0 + (theta * theta + 0))) by nra.
  assert (Hsq : sqrt (0 * 0 + (0 * 0 + (theta * theta + 0))) = theta).
  { replace (0 * 0 + (0 * 0 + (theta * theta + 0))) with (theta * theta) by ring.
    apply sqrt_square; lra. }
  change (sum_sq [Fin 0; Fin 0; Fin theta])
    with (Fin (0 * 0 + (0 * 0 + (theta * theta + 0)))).
  rewrite (compute_rotation_matrix_Fin 0 0 theta _ H0).
  rewrite Hsq.
  change (Fin (0 * 0 + (0 * 0 + (theta * theta + 0))))
    with (sum_sq [Fin 0; Fin 0; Fin theta]).
  unfold default_eps.
  rewrite (sum_sq_gt_true 0 0 theta (/ 1000000)) by lra.
  mask_values.
  unfold _compute_rotation_matrix_taylor, eye4_with_block, mat4, item, lit.
  simpl.
  unfold rho.
  fin_list ltac:(field; lra).
Qed.

End AboutThirdAxis.

(** A batch of one axis-angle vector through the dispatcher. *)
Lemma angle_axis_single (a b c : scalar) :
  angle_axis_to_rotation_matrix (Tensor (mkTensor [1; 3]%nat [a; b; c]))
  = Ok (Tensor (mkTensor [1; 4; 4]%nat
                  (angle_axis_to_rotation_matrix_row default_eps [a; b; c]))).
Proof.
  unfold angle_axis_to_rotation_matrix, angle_axis_to_rotation_matrix_torch.
  cbn [tshape tdata List.length nth Nat.eqb andb negb rows chunks firstn
       skipn flat_map].
  rewrite app_nil_r; reflexivity.
Qed.

Section RoundTripNearPi.

Local Open Scope R_scope.

Variable delta : R.
Hypothesis delta_pos : 0 < delta.
Hypothesis delta_small : delta <= 3 / 2000000.

Let theta := PI - delta.
Let rho := theta / (theta + / 1000000).

Lemma PI_gt_3 : 3 < PI.
Proof. pose proof PI2_3_2; lra. Qed.

Lemma sin_theta_delta : sin theta = sin delta.
Proof. unfold theta; apply sin_PI_x. Qed.

Lemma cos_theta_delta : cos theta = - cos delta.
Proof.
  unfold theta; rewrite cos_minus, cos_PI, sin_PI; ring.
Qed.

Lemma sin_delta_bounds : 0 < sin delta < delta.
Proof.
  pose proof PI_gt_3.
  split; [apply sin_gt_0; lra | apply sin_lt_x; exact delta_pos].
Qed.

Lemma cos_delta_bound : 99 / 100 < cos delta <= 1.
Proof.
  pose proof PI_gt_3 as Hpi.
  pose proof sin_delta_bounds as [Hs0 Hs1].
  assert (Hc : 0 < cos delta) by (apply cos_gt_0; lra).
  pose proof (sin2_cos2 delta) as H; unfold Rsqr in H.
  pose proof (COS_bound delta) as [_ Hc1].
  split; [nra | exact Hc1].
Qed.

Lemma rho_bounds : 99 / 100 < rho < 1.
Proof.
  pose proof PI_gt_3 as Hpi.
  assert (Ht : 2 < theta) by (unfold theta; lra).
  assert (Hd : 0 < theta + / 1000000) by lra.
  assert (Hr : rho * (theta + / 1000000) = theta) by (unfold rho; field; lra).
  split; apply Rnot_le_lt; intros Hc; nra.
Qed.

(** The quaternion of the matrix built from (0, 0, PI - delta): branch 2,
    with a scalar part between 0 and [eps] times the last component. *)
Lemma quaternion_near_pi :
  exists q0 q3 : R,
    rotation_matrix_to_quaternion_elem default_eps 4
      (angle_axis_to_rotation_matrix_row default_eps
         [Fin 0; Fin 0; Fin theta])
    = [Fin q0; Fin 0; Fin 0; Fin q3]
    /\ 0 < q3 /\ 0 <= q0 /\ q0 < / 1000000 * q3.
Proof.
  pose proof PI_gt_3 as Hpi.
  pose proof sin_delta_bounds as [Hs0 Hs1].
  pose proof cos_delta_bound as [Hc0 Hc1].
  pose proof rho_bounds as [Hr0 Hr1].
  assert (Ht : 2 < theta) by (unfold theta; lra).
  rewrite (torch_row_about_z theta) by nra.
  fold rho.
  rewrite sin_theta_delta, cos_theta_delta.
  set (S := sin delta) in *; set (C := cos delta) in *.
  set (t2 := 1 - - C - - C + (- C + rho * rho * (1 - - C))).
  assert (Ht2 : 361 / 100 < t2) by (unfold t2; nra).
  assert (Hrt : 0 < sqrt t2) by (apply sqrt_lt_R0; lra).
  destruct (quaternion_elem_cases
              (- C) (- (rho * S)) 0 (rho * S) (- C) 0 0 0
              (- C + rho * rho * (1 - - C))
              (Fin 0) (Fin 0) (Fin 0) (Fin 0) (Fin 0) (Fin 0) (Fin 1))
    as [(H2 & _) | [(H2 & _) | [(H2 & H01 & E) | (_ & H01 & _)]]];
    try (exfalso; nra).
  rewrite E; fold t2.
  exists ((rho * S - - (rho * S)) / sqrt t2 * (1 / 2)),
         (t2 / sqrt t2 * (1 / 2)).
  split; [| split; [| split]].
  - fin_list ltac:(field; lra).
  - apply Rmult_lt_0_compat; [apply Rdiv_lt_0_compat |]; lra.
  - apply Rmult_le_pos; [apply Rmult_le_pos |]; try lra.
    + nra.
    + apply Rlt_le, Rinv_0_lt_compat; exact Hrt.
  - assert (Hi : 0 < / sqrt t2) by (apply Rinv_0_lt_compat; exact Hrt).
    assert (Hx : rho * S - - (rho * S) < / 1000000 * t2) by nra.
    unfold Rdiv; nra.
Qed.

(** The whole round trip on a batch of one. *)
Lemma round_trip_flips :
  exists a b c : R,
    (m <- angle_axis_to_rotation_matrix
            (Tensor (mkTensor [1; 3]%nat [Fin 0; Fin 0; Fin theta])) ;;
     rotation_matrix_to_angle_axis m)
    = Ok (Tensor (mkTensor [1; 3]%nat [Fin a; Fin b; Fin c]))
    /\ c < 0.
Proof.
  destruct quaternion_near_pi as (q0 & q3 & E & H3 & H0 & Hlt).
  destruct (small_cosine_flips q0 q3 H3 H0 Hlt) as (a & b & c & Er & Hc).
  exists a, b, c; split; [| exact Hc].
  rewrite angle_axis_single; cbn [bind].
  unfold rotation_matrix_to_angle_axis.
  rewrite (torch_row_about_z theta)
    by (pose proof PI_gt_3; unfold theta; nra).
  rewrite rotation_single; cbn [bind].
  rewrite <- (torch_row_about_z theta)
    by (pose proof PI_gt_3; unfold theta; nra).
  rewrite E, quaternion_single, Er; reflexivity.
Qed.

End RoundTripNearPi.

(* ===================================================================== *)
(** ** The two matrix-to-quaternion paths agree up to sign *)
(* ===================================================================== *)

Section UpToSign.

Local Open Scope R_scope.

Lemma half_sqrt (t : R) : 0 < t -> 1 / 2 * sqrt t = t / sqrt t * (1 / 2).
Proof.
  intros Ht.
  assert (Hr : sqrt t * sqrt t = t) by (apply sqrt_sqrt; lra).
  assert (Hn : sqrt t <> 0) by (apply sqrt_pos_ne; exact Ht).
  rewrite <- Hr at 2; field; exact Hn.
Qed.

(** A list of length one is left alone by the normalisation. *)
Lemma normalized_unit (a b c d : R) :
  norm [Fin a; Fin b; Fin c; Fin d] = Fin 1 ->
  normalized [Fin a; Fin b; Fin c; Fin d] = [Fin a; Fin b; Fin c; Fin d].
Proof.
  intros H; unfold normalized; rewrite H; cbn [map].
  rewrite !FlFacts.div_Fin by lra.
  fin_list ltac:(field).
Qed.

(** Two rows of a symmetric rank-one matrix, each divided by the root of
    its own diagonal entry, are equal or opposite. *)
Lemma scaled_up_to_sign (tp tq k p0 p1 p2 p3 q0 q1 q2 q3 : R) :
  0 < tp -> 0 < tq -> k * k = tp * tq ->
  p0 * tq = k * q0 -> p1 * tq = k * q1 ->
  p2 * tq = k * q2 -> p3 * tq = k * q3 ->
  [ Fin (p0 / sqrt tp * (1/2)); Fin (p1 / sqrt tp * (1/2));
    Fin (p2 / sqrt tp * (1/2)); Fin (p3 / sqrt tp * (1/2)) ]
  = [ Fin (q0 / sqrt tq * (1/2)); Fin (q1 / sqrt tq * (1/2));
      Fin (q2 / sqrt tq * (1/2)); Fin (q3 / sqrt tq * (1/2)) ]
  \/ [ Fin (p0 / sqrt tp * (1/2)); Fin (p1 / sqrt tp * (1/2));
       Fin (p2 / sqrt tp * (1/2)); Fin (p3 / sqrt tp * (1/2)) ]
     = [ Fin (- (q0 / sqrt tq * (1/2))); Fin (- (q1 / sqrt tq * (1/2)));
         Fin (- (q2 / sqrt tq * (1/2))); Fin (- (q3 / sqrt tq * (1/2))) ].
Proof.
  intros Hp Hq Hk H0 H1 H2 H3.
  assert (Hrp : sqrt tp * sqrt tp = tp) by (apply sqrt_sqrt; lra).
  assert (Hrq : sqrt tq * sqrt tq = tq) by (apply sqrt_sqrt; lra).
  assert (Hsp : 0 < sqrt tp) by (apply sqrt_lt_R0; exact Hp).
  assert (Hsq : 0 < sqrt tq) by (apply sqrt_lt_R0; exact Hq).
  set (sg := k / (sqrt tp * sqrt tq)).
  assert (Hsg : sg * sg = 1).
  { unfold sg.
    replace (k / (sqrt tp * sqrt tq) * (k / (sqrt tp * sqrt tq)))
      with (k * k / ((sqrt tp * sqrt tp) * (sqrt tq * sqrt tq)))
      by (field; split; lra).
    rewrite Hrp, Hrq, Hk; field; split; lra. }
  assert (Hrow : forall p q : R, p * tq = k * q ->
                                 p / sqrt tp * (1/2) = sg * (q / sqrt tq * (1/2))).
  { intros p q H.
    assert (Hpq : p = k * q / tq) by (rewrite <- H; field; lra).
    rewrite Hpq; unfold sg; rewrite <- Hrq at 1; field; split; lra. }
  assert (Hcases : sg = 1 \/ sg = -1).
  { assert (Hf : (sg - 1) * (sg + 1) = 0) by (ring_simplify; rewrite <- Hsg; ring).
    apply Rmult_integral in Hf; destruct Hf; [left | right]; lra. }
  rewrite (Hrow _ _ H0), (Hrow _ _ H1), (Hrow _ _ H2), (Hrow _ _ H3).
  destruct Hcases as [-> | ->]; [left | right]; fin_list ltac:(ring).
Qed.

End UpToSign.

Section PathsUpToSign.

Local Open Scope R_scope.

Variables r00 r01 r02 r10 r11 r12 r20 r21 r22 : R.
Variables c0 c1 c2 b0 b1 b2 b3 : scalar.
Hypothesis rot : is_rotation r00 r01 r02 r10 r11 r12 r20 r21 r22.

Let m := mat4 r00 r01 r02 r10 r11 r12 r20 r21 r22 c0 c1 c2 b0 b1 b2 b3.
Let t0 := 1 + r00 - r11 - r22.
Let t1 := 1 - r00 + r11 - r22.
Let t2 := 1 - r00 - r11 + r22.
Let t3 := 1 + r00 + r11 + r22.

(** The quaternion with pivot x, y, z or w, as the batched path writes it. *)
Let U0 := [ Fin ((r21 - r12) / sqrt t0 * (1/2)); Fin (t0 / sqrt t0 * (1/2));
            Fin ((r10 + r01) / sqrt t0 * (1/2));
            Fin ((r02 + r20) / sqrt t0 * (1/2)) ].
Let U1 := [ Fin ((r02 - r20) / sqrt t1 * (1/2));
            Fin ((r10 + r01) / sqrt t1 * (1/2));
            Fin (t1 / sqrt t1 * (1/2)); Fin ((r21 + r12) / sqrt t1 * (1/2)) ].
Let U2 := [ Fin ((r10 - r01) / sqrt t2 * (1/2));
            Fin ((r02 + r20) / sqrt t2 * (1/2));
            Fin ((r21 + r12) / sqrt t2 * (1/2)); Fin (t2 / sqrt t2 * (1/2)) ].
Let U3 := [ Fin (t3 / sqrt t3 * (1/2)); Fin ((r21 - r12) / sqrt t3 * (1/2));
            Fin ((r02 - r20) / sqrt t3 * (1/2));
            Fin ((r10 - r01) / sqrt t3 * (1/2)) ].

Ltac same_entries :=
  fin_list ltac:(first [ apply half_sqrt; lra
                       | field; apply sqrt_pos_ne; lra ]).

(** On a rotation matrix the reference path returns one of the same four
    quaternions; the normalisation changes nothing. *)
Lemma numpy_quaternion_rot :
  let q := rotation_matrix_to_quaternion_numpy (Mat 4 4 m) in
  (0 < t3 /\ q = Ok (Vec U3)) \/ (0 < t0 /\ q = Ok (Vec U0))
  \/ (0 < t1 /\ q = Ok (Vec U1)) \/ (0 < t2 /\ q = Ok (Vec U2)).
Proof.
  intros q; subst q.
  destruct (numpy_quaternion_cases r00 r01 r02 r10 r11 r12 r20 r21 r22
                                   c0 c1 c2 b0 b1 b2 b3)
    as [(H & E) | [(H & H1 & H2 & E) | [(H & H1 & H2 & E) | (H & H1 & H2 & E)]]];
    fold m in E; rewrite E; clear E.
  - left; split; [unfold t3; lra |].
    replace (r00 + r11 + r22 + 1) with t3 by (unfold t3; ring).
    assert (Ht : 0 < t3) by (unfold t3; lra).
    assert (El : [ Fin (1/2 * sqrt t3); Fin ((r21 - r12) * (1/2 / sqrt t3));
                   Fin ((r02 - r20) * (1/2 / sqrt t3));
                   Fin ((r10 - r01) * (1/2 / sqrt t3)) ] = U3)
      by (unfold U3; same_entries).
    rewrite El; unfold U3; rewrite normalized_unit; [reflexivity |].
    apply scaled_norm_one; [exact Ht |].
    exact (cand3_length _ _ _ _ _ _ _ _ _ rot).
  - right; left; split; [unfold t0; lra |].
    replace (r00 - r11 - r22 + 1) with t0 by (unfold t0; ring).
    assert (Ht : 0 < t0) by (unfold t0; lra).
    assert (El : [ Fin ((r21 - r12) * (1/2 / sqrt t0)); Fin (1/2 * sqrt t0);
                   Fin ((r10 + r01) * (1/2 / sqrt t0));
                   Fin ((r20 + r02) * (1/2 / sqrt t0)) ] = U0)
      by (unfold U0; same_entries).
    rewrite El; unfold U0; rewrite normalized_unit; [reflexivity |].
    apply scaled_norm_one; [exact Ht |].
    exact (cand0_length _ _ _ _ _ _ _ _ _ rot).
  - right; right; left; split; [unfold t1; lra |].
    replace (r11 - r22 - r00 + 1) with t1 by (unfold t1; ring).
    assert (Ht : 0 < t1) by (unfold t1; lra).
    assert (El : [ Fin ((r02 - r20) * (1/2 / sqrt t1));
                   Fin ((r01 + r10) * (1/2 / sqrt t1)); Fin (1/2 * sqrt t1);
                   Fin ((r21 + r12) * (1/2 / sqrt t1)) ] = U1)
      by (unfold U1; same_entries).
    rewrite El; unfold U1; rewrite normalized_unit; [reflexivity |].
    apply scaled_norm_one; [exact Ht |].
    exact (cand1_length _ _ _ _ _ _ _ _ _ rot).
  - right; right; right; split; [unfold t2; lra |].
    replace (r22 - r00 - r11 + 1) with t2 by (unfold t2; ring).
    assert (Ht : 0 < t2) by (unfold t2; lra).
    assert (El : [ Fin ((r10 - r01) * (1/2 / sqrt t2));
                   Fin ((r02 + r20) * (1/2 / sqrt t2));
                   Fin ((r12 + r21) * (1/2 / sqrt t2)); Fin (1/2 * sqrt t2) ] = U2)
      by (unfold U2; same_entries).
    rewrite El; unfold U2; rewrite normalized_unit; [reflexivity |].
    apply scaled_norm_one; [exact Ht |].
    exact (cand2_length _ _ _ _ _ _ _ _ _ rot).
Qed.

Lemma torch_quaternion_rot :
  let q := rotation_matrix_to_quaternion_elem default_eps 4 m in
  (0 < t3 /\ q = U3) \/ (0 < t0 /\ q = U0)
  \/ (0 < t1 /\ q = U1) \/ (0 < t2 /\ q = U2).
Proof.
  intros q; subst q.
  destruct (quaternion_elem_cases r00 r01 r02 r10 r11 r12 r20 r21 r22
                                  c0 c1 c2 b0 b1 b2 b3)
    as [(H2 & H01 & E) | [(H2 & H01 & E) | [(H2 & H01 & E) | (H2 & H01 & E)]]];
    fold m in E; rewrite E.
  - right; left; split; [unfold t0; lra | reflexivity].
  - right; right; left; split; [unfold t1; lra | reflexivity].
  - right; right; right; split; [unfold t2; lra | reflexivity].
  - left; split; [unfold t3; lra | reflexivity].
Qed.

Let a := r21 - r12.
Let b := r02 - r20.
Let c := r10 - r01.
Let d := r10 + r01.
Let e := r02 + r20.
Let f := r21 + r12.

Ltac by_rot :=
  unfold a, b, c, d, e, f, t0, t1, t2, t3;
  let H := fresh "H" in
  pose proof rot as H; destruct H as (? & ? & ? & ? & ? & ? & ?); nsatz.

(** Row [p] against row [q] of the rank-one matrix, with [k] their common
    entry. *)
Ltac sign_of tp tq k p0 p1 p2 p3 q0 q1 q2 q3 Hp Hq :=
  let E := fresh "E" in
  destruct (scaled_up_to_sign tp tq k p0 p1 p2 p3 q0 q1 q2 q3 Hp Hq
              ltac:(by_rot) ltac:(by_rot) ltac:(by_rot) ltac:(by_rot)
              ltac:(by_rot)) as [E | E];
  [ left; exact (f_equal (fun l => Ok (Vec l)) E)
  | right; exact (f_equal (fun l => Ok (Vec l)) E) ].

Lemma paths_agree_up_to_sign :
  exists q0 q1 q2 q3 : R,
    rotation_matrix_to_quaternion_elem default_eps 4 m
    = [Fin q0; Fin q1; Fin q2; Fin q3]
    /\ (rotation_matrix_to_quaternion_numpy (Mat 4 4 m)
        = Ok (Vec [Fin q0; Fin q1; Fin q2; Fin q3])
        \/ rotation_matrix_to_quaternion_numpy (Mat 4 4 m)
           = Ok (Vec [Fin (- q0); Fin (- q1); Fin (- q2); Fin (- q3)])).
Proof.
  destruct torch_quaternion_rot as [(Hq & Et) | [(Hq & Et) | [(Hq & Et) | (Hq & Et)]]];
    rewrite Et; clear Et;
    [ unfold U3 at 1 | unfold U0 at 1 | unfold U1 at 1 | unfold U2 at 1 ];
    eexists _, _, _, _; (split; [reflexivity |]);
    destruct numpy_quaternion_rot
      as [(Hp & En) | [(Hp & En) | [(Hp & En) | (Hp & En)]]];
    rewrite En; clear En.
  - sign_of t3 t3 t3 t3 a b c t3 a b c Hp Hq.
  - sign_of t0 t3 a a t0 d e t3 a b c Hp Hq.
  - sign_of t1 t3 b b d t1 f t3 a b c Hp Hq.
  - sign_of t2 t3 c c e f t2 t3 a b c Hp Hq.
  - sign_of t3 t0 a t3 a b c a t0 d e Hp Hq.
  - sign_of t0 t0 t0 a t0 d e a t0 d e Hp Hq.
  - sign_of t1 t0 d b d t1 f a t0 d e Hp Hq.
  - sign_of t2 t0 e c e f t2 a t0 d e Hp Hq.
  - sign_of t3 t1 b t3 a b c b d t1 f Hp Hq.
  - sign_of t0 t1 d a t0 d e b d t1 f Hp Hq.
  - sign_of t1 t1 t1 b d t1 f b d t1 f Hp Hq.
  - sign_of t2 t1 f c e f t2 b d t1 f Hp Hq.
  - sign_of t3 t2 c t3 a b c c e f t2 Hp Hq.
  - sign_of t0 t2 e a t0 d e c e f t2 Hp Hq.
  - sign_of t1 t2 f b d t1 f c e f t2 Hp Hq.
  - sign_of t2 t2 t2 c e f t2 c e f t2 Hp Hq.
Qed.

End PathsUpToSign.

(* ===================================================================== *)
(** ** The reference path against the batched path *)
(* ===================================================================== *)

Section AntipodalPaths.

Local Open Scope R_scope.

(** The rotation about the third axis by the angle whose half has cosine
    3/5 and sine -4/5. *)
Let m := mat4 (-7/25) (24/25) 0 (-24/25) (-7/25) 0 0 0 1
              (Fin 0) (Fin 0) (Fin 0) (Fin 0) (Fin 0) (Fin 0) (Fin 1).

Lemma sqrt_64_25 : sqrt (64 / 25) = 8 / 5.
Proof.
  replace (64 / 25) with (8 / 5 * (8 / 5)) by field.
  apply sqrt_square; lra.
Qed.

Lemma sqrt_36_25 : sqrt (36 / 25) = 6 / 5.
Proof.
  replace (36 / 25) with (6 / 5 * (6 / 5)) by field.
  apply sqrt_square; lra.
Qed.

Lemma m_is_rotation :
  is_rotation (-7/25) (24/25) 0 (-24/25) (-7/25) 0 0 0 1.
Proof. unfold is_rotation; repeat split; lra. Qed.

Lemma torch_on_m :
  rotation_matrix_to_quaternion_elem default_eps 4 m
  = [Fin (-3/5); Fin 0; Fin 0; Fin (4/5)].
Proof.
  destruct (quaternion_elem_cases (-7/25) (24/25) 0 (-24/25) (-7/25) 0 0 0 1
              (Fin 0) (Fin 0) (Fin 0) (Fin 0) (Fin 0) (Fin 0) (Fin 1))
    as [(H & _) | [(H & _) | [(_ & _ & E) | (_ & H & _)]]];
    try (exfalso; lra).
  fold m in E; rewrite E.
  replace (1 - -7 / 25 - -7 / 25 + 1) with (64 / 25) by field.
  rewrite sqrt_64_25.
  fin_list ltac:(field).
Qed.

Lemma numpy_on_m :
  rotation_matrix_to_quaternion_numpy (Mat 4 4 m)
  = Ok (Vec [Fin (3/5); Fin 0; Fin 0; Fin (-4/5)]).
Proof.
  destruct (numpy_quaternion_cases (-7/25) (24/25) 0 (-24/25) (-7/25) 0 0 0 1
              (Fin 0) (Fin 0) (Fin 0) (Fin 0) (Fin 0) (Fin 0) (Fin 1))
    as [(_ & E) | [(H & _) | [(H & _) | (H & _)]]];
    try (exfalso; lra).
  fold m in E; rewrite E.
  replace (-7 / 25 + -7 / 25 + 1 + 1) with (36 / 25) by field.
  rewrite sqrt_36_25.
  assert (El : [ Fin (1 / 2 * (6 / 5)); Fin ((0 - 0) * (1 / 2 / (6 / 5)));
                 Fin ((0 - 0) * (1 / 2 / (6 / 5)));
                 Fin ((-24 / 25 - 24 / 25) * (1 / 2 / (6 / 5))) ]
               = [Fin (3/5); Fin 0; Fin 0; Fin (-4/5)])
    by (fin_list ltac:(field)).
  rewrite El, normalized_unit; [reflexivity |].
  rewrite norm_Fin.
  replace (3 / 5 * (3 / 5) + (0 * 0 + (0 * 0 + (-4 / 5 * (-4 / 5) + 0))))
    with 1 by field.
  rewrite sqrt_1; reflexivity.
Qed.

End AntipodalPaths.


Section QuaternionPathsAgree.

Local Open Scope R_scope.

Variables w x y z : R.
Hypothesis unit_norm : w * w + x * x + y * y + z * z = 1.
Hypothesis general : / 1000000 < x * x + y * y + z * z.
Hypothesis away : w < 0 \/ / 1000000 <= w.

(** Away from the two thresholds both paths take the same arctangent. *)
Lemma quaternion_paths_agree :
  exists a b c : R,
    quaternion_to_angle_axis_row default_eps [Fin w; Fin x; Fin y; Fin z]
    = [Fin a; Fin b; Fin c]
    /\ quaternion_to_angle_axis_numpy (Vec [Fin w; Fin x; Fin y; Fin z])
       = Ok (Vec [Fin a; Fin b; Fin c]).
Proof.
  set (s := sqrt (x * x + y * y + z * z)).
  assert (Hs0 : 0 <= s) by apply sqrt_pos.
  assert (Hss : s * s = x * x + y * y + z * z) by (apply sqrt_sqrt; lra).
  assert (Hn : w * w + (x * x + (y * y + (z * z + 0))) = 1 * 1) by lra.
  assert (Hq : x * (1 / 1) * (x * (1 / 1)) + y * (1 / 1) * (y * (1 / 1))
               + z * (1 / 1) * (z * (1 / 1)) = s * s) by (rewrite Hss; field).
  destruct away as [Hw | Hw].
  - rewrite (torch_eval_neg w x y z 1 s Rlt_0_1 Hn Hs0 Hq) by lra.
    rewrite (numpy_eval_neg w x y z 1 s Rlt_0_1 Hn Hs0 Hq) by lra.
    eexists _, _, _; split; reflexivity.
  - rewrite (torch_eval_pos w x y z 1 s Rlt_0_1 Hn Hs0 Hq) by lra.
    rewrite (numpy_eval_pos w x y z 1 s Rlt_0_1 Hn Hs0 Hq) by lra.
    eexists _, _, _; split; reflexivity.
Qed.

End QuaternionPathsAgree.

(* ===================================================================== *)
(** ** Axis-angle to rotation matrix: the two paths entry by entry *)
(* ===================================================================== *)

Section NormalBranch.
Local Open Scope R_scope.


Variables x y z : R.
Let theta2 := x * x + (y * y + (z * z + 0)).
Let theta := sqrt theta2.

Lemma numpy_row_normal :
  / 8388608 < theta2 ->
  angle_axis_to_rotation_matrix_numpy (Vec [Fin x; Fin y; Fin z])
  = Ok (Mat 4 4 (rodrigues (x / theta) (y / theta) (z / theta)
                           (cos theta) (sin theta))).
Proof.
  intros H.
  assert (Hpos : 0 < theta2) by lra.
  assert (Hth : theta <> 0) by (apply sqrt_pos_ne; exact Hpos).
  unfold angle_axis_to_rotation_matrix_numpy, float32_eps.
  rewrite (sum_sq_gt_true x y z (/ 8388608)) by (unfold theta2 in H; lra).
  change (sum_sq [Fin x; Fin y; Fin z]) with (Fin theta2).
  rewrite FlFacts.sqrt_Fin by lra.
  fold theta.
  cbn [vitem List.length Nat.ltb Nat.leb bind item nth].
  rewrite !FlFacts.div_Fin by exact Hth.
  fl_fold.
  reflexivity.
Qed.

Lemma torch_row_normal :
  / 1000000 < theta2 ->
  angle_axis_to_rotation_matrix_row default_eps [Fin x; Fin y; Fin z]
  = rodrigues (x / (theta + / 1000000)) (y / (theta + / 1000000))
              (z / (theta + / 1000000)) (cos theta) (sin theta).
Proof.
  intros H.
  assert (H0 : 0 <= theta2) by lra.
  unfold angle_axis_to_rotation_matrix_row.
  change (sum_sq [Fin x; Fin y; Fin z]) with (Fin theta2).
  rewrite (compute_rotation_matrix_Fin x y z _ H0).
  fold theta.
  change (Fin theta2) with (sum_sq [Fin x; Fin y; Fin z]).
  unfold default_eps.
  rewrite (sum_sq_gt_true x y z (/ 1000000)) by (unfold theta2 in H; lra).
  mask_values.
  unfold _compute_rotation_matrix_taylor, eye4_with_block, rodrigues, mat4,
    item, lit.
  simpl.
  fin_list ltac:(ring).
Qed.

End NormalBranch.

Section TrigBounds.
Local Open Scope R_scope.


Lemma sin_abs_le (u : R) : 0 <= u -> - u <= sin u <= u.
Proof.
  intros [Hu | Hu].
  - split.
    + destruct (Rle_dec 1 u) as [H1 | H1].
      * pose proof (SIN_bound u); lra.
      * pose proof PI2_3_2.
        assert (0 < sin u) by (apply sin_gt_0; lra); lra.
    + left; apply sin_lt_x; exact Hu.
  - rewrite <- Hu, sin_0; lra.
Qed.

Lemma one_minus_cos (t : R) :
  0 <= t -> 0 <= 1 - cos t /\ 1 - cos t <= t * t / 2.
Proof.
  intros Ht.
  replace t with (2 * (t / 2)) at 1 2 by field.
  rewrite cos_2a_sin.
  pose proof (sin_abs_le (t / 2) ltac:(lra)) as [Hl Hu].
  split; nra.
Qed.

Lemma one_minus_cos_le (t : R) : 0 <= t -> 1 - cos t <= t.
Proof.
  intros Ht.
  destruct (one_minus_cos t Ht) as [_ H].
  pose proof (COS_bound t) as [Hc _].
  destruct (Rle_dec t 2); nra.
Qed.

Lemma sin_cubic (t : R) : 0 <= t -> t <= 1 -> t - t * t * t / 6 <= sin t.
Proof.
  intros H0 H1.
  pose proof PI2_3_2.
  destruct (sin_bound t 0 H0 ltac:(lra)) as [Hl _].
  unfold sin_approx, sin_term in Hl; simpl in Hl.
  lra.
Qed.

End TrigBounds.

Section Closeness.

Local Open Scope R_scope.

Lemma close_Fin (tol u v : R) :
  - tol <= u - v <= tol -> close tol (Fin u) (Fin v).
Proof.
  intros H; exists u, v; repeat split; apply Rabs_le; exact H.
Qed.

Lemma close_same (tol : R) (a : R) : 0 <= tol -> close tol (Fin a) (Fin a).
Proof. intros H; apply close_Fin; lra. Qed.

End Closeness.

Section UnitAxis.
Local Open Scope R_scope.


Variables wx wy wz : R.
Hypothesis unit_axis : wx * wx + wy * wy + wz * wz = 1.

Lemma axis_bounds :
  (-1 <= wx <= 1 /\ -1 <= wy <= 1 /\ -1 <= wz <= 1)
  /\ (-1 <= 2 * (wx * wy) <= 1 /\ -1 <= 2 * (wx * wz) <= 1
      /\ -1 <= 2 * (wy * wz) <= 1)
  /\ (0 <= wx * wx <= 1 /\ 0 <= wy * wy <= 1 /\ 0 <= wz * wz <= 1).
Proof.
  pose proof (Rle_0_sqr wx) as Hx; unfold Rsqr in Hx.
  pose proof (Rle_0_sqr wy) as Hy; unfold Rsqr in Hy.
  pose proof (Rle_0_sqr wz) as Hz; unfold Rsqr in Hz.
  assert (Hb : forall u : R, u * u <= 1 -> -1 <= u <= 1).
  { intros u Hu.
    pose proof (Rle_0_sqr (u + 1)) as H1; unfold Rsqr in H1.
    pose proof (Rle_0_sqr (u - 1)) as H2; unfold Rsqr in H2.
    split; lra. }
  assert (Hp : forall u v : R, u * u + v * v <= 1 -> -1 <= 2 * (u * v) <= 1).
  { intros u v Huv.
    pose proof (Rle_0_sqr (u - v)) as H1; unfold Rsqr in H1.
    pose proof (Rle_0_sqr (u + v)) as H2; unfold Rsqr in H2.
    split; lra. }
  repeat split; try lra;
    try (apply Hb; lra); try (apply Hp; lra).
Qed.

Section Scaled.

Variables c s rho e : R.
Hypothesis e_pos : 0 <= e.
Hypothesis c_le : 0 <= 1 - c.
Hypothesis A_small : (1 - rho * rho) * (1 - c) <= 2 * e.
Hypothesis A_pos : 0 <= 1 - rho * rho.
Hypothesis B_small : - e <= (1 - rho) * s <= e.

Let A := (1 - rho * rho) * (1 - c).
Let B := (1 - rho) * s.

Lemma A_bounds : 0 <= A <= 2 * e.
Proof. unfold A; split; [nra | exact A_small]. Qed.

Lemma scaled_diag (u : R) :
  0 <= u * u <= 1 ->
  - (2 * e) <= (c + rho * u * (rho * u) * (1 - c)) - (c + u * u * (1 - c))
  <= 2 * e.
Proof.
  intros Hu.
  replace ((c + rho * u * (rho * u) * (1 - c)) - (c + u * u * (1 - c)))
    with (- (A * (u * u))) by (unfold A; ring).
  pose proof A_bounds; nra.
Qed.

Lemma scaled_off_plus (u v t : R) :
  -1 <= t <= 1 -> -1 <= 2 * (u * v) <= 1 ->
  - (2 * e)
  <= (rho * t * s + rho * u * (rho * v) * (1 - c)) - (t * s + u * v * (1 - c))
  <= 2 * e.
Proof.
  intros Ht Huv.
  replace ((rho * t * s + rho * u * (rho * v) * (1 - c))
           - (t * s + u * v * (1 - c)))
    with (- (B * t) - A * (u * v)) by (unfold A, B; ring).
  pose proof A_bounds.
  assert (- e <= B * t <= e) by (unfold B; nra).
  assert (- e <= A * (u * v) <= e) by nra.
  lra.
Qed.

Lemma scaled_off_minus (u v t : R) :
  -1 <= t <= 1 -> -1 <= 2 * (u * v) <= 1 ->
  - (2 * e)
  <= (rho * u * (rho * v) * (1 - c) - rho * t * s) - (u * v * (1 - c) - t * s)
  <= 2 * e.
Proof.
  intros Ht Huv.
  replace ((rho * u * (rho * v) * (1 - c) - rho * t * s)
           - (u * v * (1 - c) - t * s))
    with (B * t - A * (u * v)) by (unfold A, B; ring).
  pose proof A_bounds.
  assert (- e <= B * t <= e) by (unfold B; nra).
  assert (- e <= A * (u * v) <= e) by nra.
  lra.
Qed.

Lemma scaled_off_neg (u v t : R) :
  -1 <= t <= 1 -> -1 <= 2 * (u * v) <= 1 ->
  - (2 * e)
  <= (- (rho * t) * s + rho * u * (rho * v) * (1 - c))
     - (- t * s + u * v * (1 - c))
  <= 2 * e.
Proof.
  intros Ht Huv.
  replace ((- (rho * t) * s + rho * u * (rho * v) * (1 - c))
           - (- t * s + u * v * (1 - c)))
    with (B * t - A * (u * v)) by (unfold A, B; ring).
  pose proof A_bounds.
  assert (- e <= B * t <= e) by (unfold B; nra).
  assert (- e <= A * (u * v) <= e) by nra.
  lra.
Qed.

Lemma rodrigues_scaled_close :
  Forall2 (close (2 * e))
          (rodrigues (rho * wx) (rho * wy) (rho * wz) c s)
          (rodrigues wx wy wz c s).
Proof.
  destruct axis_bounds as ((Hx & Hy & Hz) & (Hxy & Hxz & Hyz) & (Hxx & Hyy & Hzz)).
  unfold rodrigues, mat4.
  repeat (apply Forall2_cons; [| ]); try apply Forall2_nil;
    try (apply close_same; lra).
  - apply close_Fin, scaled_diag; assumption.
  - apply close_Fin, scaled_off_minus; assumption.
  - apply close_Fin, scaled_off_plus; assumption.
  - apply close_Fin, scaled_off_plus; assumption.
  - apply close_Fin, scaled_diag; assumption.
  - apply close_Fin, scaled_off_neg; assumption.
  - apply close_Fin, scaled_off_neg; assumption.
  - apply close_Fin, scaled_off_plus; assumption.
  - apply close_Fin, scaled_diag; assumption.
Qed.

End Scaled.

Section Small.

Variables c s theta e : R.
Hypothesis e_pos : 0 <= e.
Hypothesis c_small : 0 <= 1 - c <= e.
Hypothesis s_small : - e <= s - theta <= e.

Lemma small_diag (u : R) :
  0 <= u * u <= 1 -> - (2 * e) <= 1 - (c + u * u * (1 - c)) <= 2 * e.
Proof.
  intros Hu.
  replace (1 - (c + u * u * (1 - c))) with ((1 - c) * (1 - u * u)) by ring.
  nra.
Qed.

Lemma small_off_plus (u v t : R) :
  -1 <= t <= 1 -> -1 <= 2 * (u * v) <= 1 ->
  - (2 * e) <= theta * t - (t * s + u * v * (1 - c)) <= 2 * e.
Proof.
  intros Ht Huv.
  replace (theta * t - (t * s + u * v * (1 - c)))
    with (- ((s - theta) * t) - (1 - c) * (u * v)) by ring.
  assert (- e <= (s - theta) * t <= e) by nra.
  assert (- e <= (1 - c) * (2 * (u * v)) <= e) by nra.
  lra.
Qed.

Lemma small_off_minus (u v t : R) :
  -1 <= t <= 1 -> -1 <= 2 * (u * v) <= 1 ->
  - (2 * e) <= - (theta * t) - (u * v * (1 - c) - t * s) <= 2 * e.
Proof.
  intros Ht Huv.
  replace (- (theta * t) - (u * v * (1 - c) - t * s))
    with ((s - theta) * t - (1 - c) * (u * v)) by ring.
  assert (- e <= (s - theta) * t <= e) by nra.
  assert (- e <= (1 - c) * (2 * (u * v)) <= e) by nra.
  lra.
Qed.

Lemma small_off_neg (u v t : R) :
  -1 <= t <= 1 -> -1 <= 2 * (u * v) <= 1 ->
  - (2 * e) <= - (theta * t) - (- t * s + u * v * (1 - c)) <= 2 * e.
Proof.
  intros Ht Huv.
  replace (- (theta * t) - (- t * s + u * v * (1 - c)))
    with ((s - theta) * t - (1 - c) * (u * v)) by ring.
  assert (- e <= (s - theta) * t <= e) by nra.
  assert (- e <= (1 - c) * (2 * (u * v)) <= e) by nra.
  lra.
Qed.

Lemma taylor_rodrigues_close :
  Forall2 (close (2 * e))
          (mat4 1 (- (theta * wz)) (theta * wy) (theta * wz) 1 (- (theta * wx))
                (- (theta * wy)) (theta * wx) 1
                (Fin 0) (Fin 0) (Fin 0) (Fin 0) (Fin 0) (Fin 0) (Fin 1))
          (rodrigues wx wy wz c s).
Proof.
  destruct axis_bounds as ((Hx & Hy & Hz) & (Hxy & Hxz & Hyz) & (Hxx & Hyy & Hzz)).
  unfold rodrigues, mat4.
  repeat (apply Forall2_cons; [| ]); try apply Forall2_nil;
    try (apply close_same; lra).
  - apply close_Fin, small_diag; assumption.
  - apply close_Fin, small_off_minus; assumption.
  - apply close_Fin, small_off_plus; assumption.
  - apply close_Fin, small_off_plus; assumption.
  - apply close_Fin, small_diag; assumption.
  - apply close_Fin, small_off_neg; assumption.
  - apply close_Fin, small_off_neg; assumption.
  - apply close_Fin, small_off_plus; assumption.
  - apply close_Fin, small_diag; assumption.
Qed.

End Small.

End UnitAxis.

Section PathsClose.
Local Open Scope R_scope.


Variables x y z : R.
Let theta2 := x * x + (y * y + (z * z + 0)).
Let theta := sqrt theta2.
Let e := / 1000000.

Lemma list_close_refl (tol : R) (l : list R) :
  0 <= tol -> Forall2 (close tol) (map Fin l) (map Fin l).
Proof.
  intros H; induction l as [| a l IH]; constructor;
    [apply close_same; exact H | exact IH].
Qed.

Lemma unit_axis_of (H : 0 < theta2) :
  x / theta * (x / theta) + y / theta * (y / theta) + z / theta * (z / theta) = 1.
Proof.
  assert (Hr : theta * theta = theta2) by (apply sqrt_sqrt; lra).
  assert (Hn : theta <> 0) by (apply sqrt_pos_ne; exact H).
  replace (x / theta * (x / theta) + y / theta * (y / theta)
           + z / theta * (z / theta))
    with (theta2 / (theta * theta)) by (unfold theta2; field; exact Hn).
  rewrite Hr; field; lra.
Qed.

Lemma rows_close :
  exists Mt Mn : list scalar,
    angle_axis_to_rotation_matrix_row default_eps [Fin x; Fin y; Fin z] = Mt
    /\ angle_axis_to_rotation_matrix_numpy (Vec [Fin x; Fin y; Fin z])
       = Ok (Mat 4 4 Mn)
    /\ Forall2 (close (2 * e)) Mt Mn.
Proof.
  assert (He : 0 <= e) by (unfold e; lra).
  assert (Ht0 : 0 <= theta) by apply sqrt_pos.
  destruct (Rle_dec theta2 (/ 8388608)) as [H1 | H1].
  - (* both first-order *)
    eexists _, _; split; [| split].
    + apply torch_row_taylor; unfold theta2 in H1; lra.
    + apply numpy_taylor; unfold theta2 in H1; lra.
    + unfold mat4.
      apply (list_close_refl (2 * e)
               [1; - z; y; 0; z; 1; - x; 0; - y; x; 1; 0; 0; 0; 0; 1]); lra.
  - assert (Hpos : 0 < theta2) by lra.
    assert (Hr : theta * theta = theta2) by (apply sqrt_sqrt; lra).
    assert (Hn : theta <> 0) by (apply sqrt_pos_ne; exact Hpos).
    assert (Htp : 0 < theta) by (apply sqrt_lt_R0; exact Hpos).
    pose proof (unit_axis_of Hpos) as Hu.
    pose proof (one_minus_cos theta Ht0) as [Hc0 Hc1].
    pose proof (sin_abs_le theta Ht0) as [Hs0 Hs1].
    destruct (Rle_dec theta2 (/ 1000000)) as [H2 | H2].
    + (* reference normal, batched first-order *)
      eexists _, _; split; [| split].
      * apply torch_row_taylor; unfold theta2 in H2; lra.
      * apply numpy_row_normal; unfold theta2 in H1; lra.
      * fold theta2; fold theta.
        assert (Ht1 : theta <= 1) by nra.
        pose proof (sin_cubic theta Ht0 Ht1) as Hcub.
        replace x with (theta * (x / theta)) at 1 2 by (field; exact Hn).
        replace y with (theta * (y / theta)) at 1 2 by (field; exact Hn).
        replace z with (theta * (z / theta)) at 1 2 by (field; exact Hn).
        apply taylor_rodrigues_close; try assumption; unfold e.
        -- split; [lra | nra].
        -- split; [nra | lra].
    + (* both normal, the batched axis shortened *)
      eexists _, _; split; [| split].
      * apply torch_row_normal; unfold theta2 in H2; lra.
      * apply numpy_row_normal; unfold theta2 in H1; lra.
      * fold theta2; fold theta; fold e.
        set (rho := theta / (theta + e)).
        assert (Hd : 0 < theta + e) by lra.
        replace (x / (theta + e)) with (rho * (x / theta))
          by (unfold rho; field; split; lra).
        replace (y / (theta + e)) with (rho * (y / theta))
          by (unfold rho; field; split; lra).
        replace (z / (theta + e)) with (rho * (z / theta))
          by (unfold rho; field; split; lra).
        assert (Hrd : rho * (theta + e) = theta) by (unfold rho; field; lra).
        assert (Hrho : 0 <= rho <= 1).
        { split; apply Rnot_lt_le; intros Hc; nra. }
        pose proof (one_minus_cos_le theta Ht0) as Hcl.
        set (k := 1 - rho).
        assert (Hk0 : 0 <= k) by (unfold k; lra).
        assert (Hk : k * (theta + e) = e) by (unfold k; nra).
        assert (Hkt : k * theta <= e) by nra.
        assert (Hkc : 0 <= k * (1 - cos theta) <= e) by (split; nra).
        apply rodrigues_scaled_close; try assumption.
        -- replace ((1 - rho * rho) * (1 - cos theta))
             with ((1 + rho) * (k * (1 - cos theta))) by (unfold k; ring).
           nra.
        -- nra.
        -- fold k; split; nra.
Qed.

End PathsClose.

(* ===================================================================== *)
(** ** The round trip next to a half-turn, on the reference path *)
(* ===================================================================== *)

Section ReferenceRoundTrip.

Local Open Scope R_scope.

Variable delta : R.
Hypothesis delta_pos : 0 < delta.
Hypothesis delta_small : delta <= 3 / 2000000.

Let theta := PI - delta.
Let S := sin delta.
Let C := cos delta.
Let t2 := 1 - - C - - C + 1.
Let q0 := (S - - S) * (1 / 2 / sqrt t2).
Let q3 := 1 / 2 * sqrt t2.

Lemma numpy_matrix_near_pi :
  angle_axis_to_rotation_matrix_numpy (Vec [Fin 0; Fin 0; Fin theta])
  = Ok (Mat 4 4 (mat4 (- C) (- S) 0 S (- C) 0 0 0 1
                      (Fin 0) (Fin 0) (Fin 0) (Fin 0) (Fin 0) (Fin 0) (Fin 1))).
Proof.
  pose proof PI_gt_3 as Hpi.
  assert (Ht : 2 < theta) by (unfold theta; lra).
  rewrite numpy_row_normal by nra.
  replace (0 * 0 + (0 * 0 + (theta * theta + 0))) with (theta * theta) by ring.
  rewrite sqrt_square by lra.
  assert (Hs : sin theta = S) by (unfold theta, S; apply sin_PI_x).
  assert (Hc : cos theta = - C).
  { unfold theta, C; rewrite cos_minus, cos_PI, sin_PI; ring. }
  rewrite Hs, Hc.
  unfold rodrigues, mat4.
  do 2 f_equal.
  fin_list ltac:(field; lra).
Qed.

Lemma t2_bounds : 3 < t2 <= 4.
Proof.
  destruct (cos_delta_bound delta delta_pos delta_small) as [H0 H1].
  fold C in H0, H1; unfold t2; lra.
Qed.

Lemma q_unit : q0 * q0 + (0 * 0 + (0 * 0 + (q3 * q3 + 0))) = 1.
Proof.
  pose proof t2_bounds as [Ht _].
  assert (Hr : sqrt t2 * sqrt t2 = t2) by (apply sqrt_sqrt; lra).
  assert (Hn : sqrt t2 <> 0) by (apply sqrt_pos_ne; lra).
  pose proof (sin2_cos2 delta) as H; unfold Rsqr in H; fold S C in H.
  replace (q0 * q0 + (0 * 0 + (0 * 0 + (q3 * q3 + 0))))
    with (S * S / (sqrt t2 * sqrt t2) + (sqrt t2 * sqrt t2) / 4)
    by (unfold q0, q3; field; exact Hn).
  rewrite Hr.
  replace (S * S) with ((1 - C) * (1 + C)) by (ring_simplify; lra).
  unfold t2; field; unfold t2 in Ht; lra.
Qed.

Lemma numpy_quaternion_near_pi :
  rotation_matrix_to_quaternion_numpy
    (Mat 4 4 (mat4 (- C) (- S) 0 S (- C) 0 0 0 1
                   (Fin 0) (Fin 0) (Fin 0) (Fin 0) (Fin 0) (Fin 0) (Fin 1)))
  = Ok (Vec [Fin q0; Fin 0; Fin 0; Fin q3]).
Proof.
  destruct (cos_delta_bound delta delta_pos delta_small) as [H0 H1].
  fold C in H0, H1.
  pose proof t2_bounds as [Ht _].
  destruct (numpy_quaternion_cases (- C) (- S) 0 S (- C) 0 0 0 1
              (Fin 0) (Fin 0) (Fin 0) (Fin 0) (Fin 0) (Fin 0) (Fin 1))
    as [(H & _) | [(_ & _ & H & _) | [(_ & _ & H & _) | (_ & _ & _ & E)]]];
    try (exfalso; lra).
  rewrite E.
  replace (1 - - C - - C + 1) with t2 by (unfold t2; ring).
  assert (El : [ Fin ((S - - S) * (1 / 2 / sqrt t2));
                 Fin ((0 + 0) * (1 / 2 / sqrt t2));
                 Fin ((0 + 0) * (1 / 2 / sqrt t2)); Fin (1 / 2 * sqrt t2) ]
               = [Fin q0; Fin 0; Fin 0; Fin q3]).
  { unfold q0, q3; fin_list ltac:(field; apply sqrt_pos_ne; lra). }
  rewrite El, normalized_unit; [reflexivity |].
  rewrite norm_Fin, q_unit, sqrt_1; reflexivity.
Qed.

Lemma half_angle_tangent : q3 / (q0 * (1 / 1)) = tan (PI / 2 - delta / 2).
Proof.
  pose proof PI_gt_3 as Hpi.
  pose proof t2_bounds as [Ht _].
  assert (Hr : sqrt t2 * sqrt t2 = t2) by (apply sqrt_sqrt; lra).
  assert (Hn : sqrt t2 <> 0) by (apply sqrt_pos_ne; lra).
  assert (Hsu : 0 < sin (delta / 2)) by (apply sin_gt_0; lra).
  assert (Hcu : 0 < cos (delta / 2)) by (apply cos_gt_0; lra).
  assert (HS : S = 2 * sin (delta / 2) * cos (delta / 2)).
  { unfold S; rewrite <- sin_2a; f_equal; field. }
  assert (HC : C = 2 * cos (delta / 2) * cos (delta / 2) - 1).
  { unfold C; rewrite <- cos_2a_cos; f_equal; field. }
  assert (HSp : 0 < S) by (rewrite HS; nra).
  unfold tan; rewrite sin_shift, cos_shift.
  replace (q3 / (q0 * (1 / 1))) with ((sqrt t2 * sqrt t2) / (2 * S))
    by (unfold q0, q3; field; split; lra).
  rewrite Hr; unfold t2; rewrite HS, HC; field; split; lra.
Qed.

Lemma numpy_axis_angle_near_pi :
  quaternion_to_angle_axis_numpy (Vec [Fin q0; Fin 0; Fin 0; Fin q3])
  = Ok (Vec [Fin 0; Fin 0; Fin theta]).
Proof.
  pose proof PI_gt_3 as Hpi.
  pose proof t2_bounds as [Ht _].
  assert (Hrt : 0 < sqrt t2) by (apply sqrt_lt_R0; lra).
  assert (Hq3 : 0 < q3) by (unfold q3; lra).
  assert (HSp : 0 < S) by (unfold S; apply sin_gt_0; lra).
  assert (Hq0 : 0 < q0).
  { unfold q0; apply Rmult_lt_0_compat; [lra |].
    apply Rdiv_lt_0_compat; lra. }
  assert (Hn : q0 * q0 + (0 * 0 + (0 * 0 + (q3 * q3 + 0))) = 1 * 1)
    by (rewrite q_unit; ring).
  assert (Hs : 0 * (1 / 1) * (0 * (1 / 1)) + 0 * (1 / 1) * (0 * (1 / 1))
               + q3 * (1 / 1) * (q3 * (1 / 1)) = q3 * q3) by field.
  rewrite (numpy_eval_pos q0 0 0 q3 1 q3 Rlt_0_1 Hn (Rlt_le _ _ Hq3) Hs)
    by nra.
  assert (Ha : Fl.Ratan2 q3 (q0 * (1 / 1)) = PI / 2 - delta / 2).
  { unfold Fl.Ratan2.
    destruct (Rlt_dec 0 (q0 * (1 / 1))) as [_ | Hc]; [| exfalso; lra].
    rewrite half_angle_tangent.
    apply atan_tan; lra. }
  rewrite Ha.
  do 2 f_equal.
  unfold theta; fin_list ltac:(field; lra).
Qed.

(** The whole round trip on the reference path returns the vector. *)
Lemma numpy_round_trip_exact :
  (m <- angle_axis_to_rotation_matrix (NdArray (Vec [Fin 0; Fin 0; Fin theta])) ;;
   rotation_matrix_to_angle_axis m)
  = Ok (NdArray (Vec [Fin 0; Fin 0; Fin theta])).
Proof.
  unfold angle_axis_to_rotation_matrix.
  rewrite numpy_matrix_near_pi; cbn [bind].
  unfold rotation_matrix_to_angle_axis, rotation_matrix_to_quaternion.
  rewrite numpy_quaternion_near_pi; cbn [bind].
  unfold quaternion_to_angle_axis.
  rewrite numpy_axis_angle_near_pi; reflexivity.
Qed.

End ReferenceRoundTrip.

(** C1, at the failing inputs.  For every axis-angle vector
    v = (0, 0, PI - delta) with 0 < delta <= 1.5e-6, of norm below PI, the
    batched round trip [rotation_matrix_to_angle_axis] after
    [angle_axis_to_rotation_matrix] returns a vector of numbers whose
    third component is negative: it is more than 2 away from the third
    component of v, not within 1e-5 of it.  The reference path returns v
    on the same input. *)
Theorem round_trip_fails_near_pi (delta : R) :
  (0 < delta)%R -> (delta <= 3 / 2000000)%R ->
  (exists a b c : R,
      (m <- angle_axis_to_rotation_matrix
              (Tensor (mkTensor [1; 3]%nat [Fin 0; Fin 0; Fin (PI - delta)])) ;;
       rotation_matrix_to_angle_axis m)
      = Ok (Tensor (mkTensor [1; 3]%nat [Fin a; Fin b; Fin c]))
      /\ (c < 0)%R /\ (Rabs (c - (PI - delta)) > 2)%R)
  /\ (m <- angle_axis_to_rotation_matrix
             (NdArray (Vec [Fin 0; Fin 0; Fin (PI - delta)])) ;;
      rotation_matrix_to_angle_axis m)
     = Ok (NdArray (Vec [Fin 0; Fin 0; Fin (PI - delta)])).
Proof.
  intros Hd0 Hd1; split.
  - destruct (round_trip_flips delta Hd0 Hd1) as (a & b & c & E & Hc).
    exists a, b, c; split; [exact E | split; [exact Hc |]].
    pose proof PI_gt_3.
    rewrite Rabs_left by lra; lra.
  - exact (numpy_round_trip_exact delta Hd0 Hd1).
Qed.

Lemma round_trip_fails_near_pi_witness :
  (exists a b c : R,
      (m <- angle_axis_to_rotation_matrix
              (Tensor (mkTensor [1; 3]%nat
                         [Fin 0; Fin 0; Fin (PI - / 1000000)])) ;;
       rotation_matrix_to_angle_axis m)
      = Ok (Tensor (mkTensor [1; 3]%nat [Fin a; Fin b; Fin c]))
      /\ (c < 0)%R /\ (Rabs (c - (PI - / 1000000)) > 2)%R)
  /\ (m <- angle_axis_to_rotation_matrix
             (NdArray (Vec [Fin 0; Fin 0; Fin (PI - / 1000000)])) ;;
      rotation_matrix_to_angle_axis m)
     = Ok (NdArray (Vec [Fin 0; Fin 0; Fin (PI - / 1000000)])).
Proof.
  apply (round_trip_fails_near_pi (/ 1000000)); lra.
Defined.



(* ===================================================================== *)
(** * Angles, points, poses and layers: properties *)
(* ===================================================================== *)

(* ===================================================================== *)
(** ** Tables: row-major data by index *)
(* ===================================================================== *)

Section Tables.

Lemma flat_map_uniform_length (g : nat -> list scalar) (w : nat) (l : list nat) :
  (forall i, List.length (g i) = w) ->
  List.length (flat_map g l) = (List.length l * w)%nat.
Proof.
  intros Hw; induction l as [| a l IH]; [reflexivity |].
  cbn [flat_map List.length]; rewrite length_app, Hw, IH; lia.
Qed.

Lemma flat_map_uniform_nth (g : nat -> list scalar) (w : nat) (d : scalar) :
  (forall i, List.length (g i) = w) ->
  forall (o s i k : nat), (i < o)%nat -> (k < w)%nat ->
  nth (i * w + k) (flat_map g (seq s o)) d = nth k (g (s + i)%nat) d.
Proof.
  intros Hw; induction o as [| o IH]; intros s i k Hi Hk; [lia |].
  cbn [seq flat_map].
  destruct i as [| i].
  - rewrite app_nth1 by (rewrite Hw; lia).
    rewrite Nat.add_0_r; reflexivity.
  - rewrite app_nth2 by (rewrite Hw; lia).
    rewrite Hw.
    replace (S i * w + k - w)%nat with (i * w + k)%nat by lia.
    rewrite IH by lia.
    f_equal; f_equal; lia.
Qed.

Lemma table_row_length (n : nat) (f : nat -> nat -> scalar) (i : nat) :
  List.length (map (f i) (seq 0 n)) = n.
Proof. rewrite length_map, length_seq; reflexivity. Qed.

Lemma table_length (o n : nat) (f : nat -> nat -> scalar) :
  List.length (table o n f) = (o * n)%nat.
Proof.
  unfold table.
  rewrite (flat_map_uniform_length _ n) by (intros; apply table_row_length).
  rewrite length_seq; reflexivity.
Qed.

Lemma table_nth (o n : nat) (f : nat -> nat -> scalar) (i j : nat) (d : scalar) :
  (i < o)%nat -> (j < n)%nat -> nth (i * n + j) (table o n f) d = f i j.
Proof.
  intros Hi Hj; unfold table.
  rewrite (flat_map_uniform_nth _ n) by (auto; intros; apply table_row_length).
  cbn [Nat.add].
  rewrite (nth_indep _ d (f i 0%nat))
    by (rewrite length_map, length_seq; exact Hj).
  rewrite map_nth, seq_nth by exact Hj.
  reflexivity.
Qed.

Lemma table_ext (o n : nat) (f g : nat -> nat -> scalar) :
  (forall i j, (i < o)%nat -> (j < n)%nat -> f i j = g i j) ->
  table o n f = table o n g.
Proof.
  intros H; unfold table.
  rewrite !flat_map_concat_map; f_equal.
  apply map_ext_in; intros i Hi; apply in_seq in Hi.
  apply map_ext_in; intros j Hj; apply in_seq in Hj.
  apply H; lia.
Qed.

(** Row-major data is the table of its own elements. *)
Lemma table_of_data (o n : nat) (l : list scalar) :
  List.length l = (o * n)%nat ->
  table o n (fun i j => item l (i * n + j)) = l.
Proof.
  intros Hl.
  apply (nth_ext _ _ NaN NaN).
  - rewrite table_length; symmetry; exact Hl.
  - intros k Hk; rewrite table_length in Hk.
    assert (Hn : (0 < n)%nat) by (destruct n; [lia | lia]).
    rewrite (Nat.div_mod_eq k n) at 1.
    rewrite (Nat.mul_comm n (k / n)).
    rewrite table_nth.
    + unfold item; f_equal.
      rewrite (Nat.div_mod_eq k n) at 3; lia.
    + apply Nat.Div0.div_lt_upper_bound; lia.
    + apply Nat.mod_upper_bound; lia.
Qed.

(** Mapping a function over row-major data, by index. *)
Lemma table_map (o n : nat) (l : list scalar) (g : scalar -> scalar) :
  List.length l = (o * n)%nat ->
  table o n (fun i j => g (item l (i * n + j))) = map g l.
Proof.
  intros Hl.
  rewrite <- (table_of_data o n (map g l)) by (rewrite length_map; exact Hl).
  apply table_ext; intros i j Hi Hj.
  unfold item.
  rewrite (nth_indep (map g l) NaN (g NaN)) by (rewrite length_map; nia).
  rewrite map_nth; reflexivity.
Qed.

End Tables.

Lemma numel_app (a b : list nat) : numel (a ++ b) = (numel a * numel b)%nat.
Proof.
  induction a as [| x a IH]; cbn [app numel fold_right].
  - fold (numel b); lia.
  - fold (numel (a ++ b)); fold (numel a); rewrite IH; lia.
Qed.

(** The elements of a tensor: as many as rows times the last axis. *)
Lemma numel_split (s : list nat) :
  s <> [] -> numel s = (numel (removelast s) * last s 0)%nat.
Proof.
  intros Hs.
  rewrite (app_removelast_last 0%nat Hs) at 1.
  rewrite numel_app; cbn [numel fold_right]; lia.
Qed.

Section LastAxis.

Variables (pre : list nat) (n : nat) (f : nat -> nat -> scalar).

Lemma tabulate_last_dim : last_dim (tabulate_last pre n f) = n.
Proof. unfold last_dim, tabulate_last; cbn [tshape]; apply last_last. Qed.

Lemma tabulate_last_prefix : prefix (tabulate_last pre n f) = pre.
Proof. unfold prefix, tabulate_last; cbn [tshape]; apply removelast_last. Qed.

Lemma tabulate_last_at (o j : nat) :
  (o < numel pre)%nat -> (j < n)%nat ->
  at_last (tabulate_last pre n f) o j = f o j.
Proof.
  intros Ho Hj; unfold at_last; rewrite tabulate_last_dim.
  unfold tabulate_last, item; cbn [tdata].
  apply table_nth; assumption.
Qed.

Lemma tabulate_last_well_formed : well_formed (tabulate_last pre n f).
Proof.
  unfold well_formed, tabulate_last; cbn [tdata tshape].
  rewrite table_length, numel_app; cbn [numel fold_right]; lia.
Qed.

End LastAxis.

Lemma tabulate_last_ext (pre : list nat) (n : nat) (f g : nat -> nat -> scalar) :
  (forall o j, (o < numel pre)%nat -> (j < n)%nat -> f o j = g o j) ->
  tabulate_last pre n f = tabulate_last pre n g.
Proof.
  intros H; unfold tabulate_last; f_equal; apply table_ext; exact H.
Qed.

Section RankThree.

Variables (nb nr nc : nat) (f : nat -> nat -> nat -> scalar).

Lemma tabulate3_at (b i j : nat) :
  (b < nb)%nat -> (i < nr)%nat -> (j < nc)%nat ->
  at3 (tabulate3 nb nr nc f) b i j = f b i j.
Proof.
  intros Hb Hi Hj.
  unfold at3, dim, tabulate3, item; cbn [tshape tdata nth].
  replace ((b * nr + i) * nc + j)%nat with (b * (nr * nc) + (i * nc + j))%nat
    by lia.
  rewrite (flat_map_uniform_nth _ (nr * nc))
    by (auto; try nia; intros; apply table_length).
  cbn [Nat.add]; apply table_nth; assumption.
Qed.

Lemma tabulate3_well_formed : well_formed (tabulate3 nb nr nc f).
Proof.
  unfold well_formed, tabulate3; cbn [tdata tshape numel fold_right].
  rewrite (flat_map_uniform_length _ (nr * nc))
    by (intros; apply table_length).
  rewrite length_seq; lia.
Qed.

End RankThree.

(** On a tensor of rank three the rows of the last axis are the pairs
    (batch, row). *)
Lemma at_last_at3 (t : tensor) (b d n : nat) (i j : nat) :
  tshape t = [b; d; n] -> at_last t (i * d + j) = at3 t i j.
Proof.
  intros Hs; unfold at_last, at3, last_dim, dim; rewrite Hs; reflexivity.
Qed.

(* ===================================================================== *)
(** ** Radians and degrees *)
(* ===================================================================== *)

Section Angles.

Local Open Scope R_scope.

Let p := 3141592653589793 / 1000000000000000.

Lemma pi_value_pos : 0 < p.
Proof. unfold p; lra. Qed.

(** Scaling by a positive number and by its inverse, on every scalar. *)
Lemma scale_back (a b : R) (x : scalar) :
  0 < a -> 0 < b ->
  (Fin a * (x * Fin b / Fin a) / Fin b)%fl = x.
Proof.
  intros Ha Hb; destruct x as [v | | |]; cbn [Fl.mul];
    unfold Fl.signed_inf, Fl.div; rdec; cbn [Fl.mul Fl.neg];
    unfold Fl.signed_inf, Fl.div; rdec; cbn [Fl.neg]; try reflexivity.
  f_equal; field; lra.
Qed.

Lemma scale_forth (a b : R) (x : scalar) :
  0 < a -> 0 < b ->
  (Fin a * x / Fin b * Fin b / Fin a)%fl = x.
Proof.
  intros Ha Hb; destruct x as [v | | |]; cbn [Fl.mul];
    unfold Fl.signed_inf, Fl.div; rdec; cbn [Fl.mul Fl.neg];
    unfold Fl.signed_inf, Fl.div; rdec; cbn [Fl.neg]; try reflexivity.
  f_equal; field; lra.
Qed.

End Angles.

(** X1.  Radians to degrees and back, degrees to radians and back: on a tensor
    of rank at least one both compositions return the tensor itself, shape
    and elements (arithmetic being exact; infinities and not-a-number
    included). *)
Theorem degrees_radians_round_trip (t : tensor) :
  tshape t <> [] ->
  (d <-- rad2deg (Tensor t) ;; deg2rad (Tensor d)) = Return t
  /\ (r <-- deg2rad (Tensor t) ;; rad2deg (Tensor r)) = Return t.
Proof.
  intros Hs; destruct t as [[| n s] l]; cbn [tshape] in Hs; [contradiction |].
  unfold rad2deg, deg2rad, and_then, broadcast_one, pi, lit, item;
    cbn [tshape tdata nth].
  split; f_equal; f_equal; rewrite map_map;
    rewrite <- (map_id l) at 2; apply map_ext; intros x.
  - apply scale_forth; lra.
  - apply scale_back; lra.
Qed.

Lemma degrees_radians_round_trip_witness :
  let t := mkTensor [2%nat] [Fin 0; PInf] in
  (d <-- rad2deg (Tensor t) ;; deg2rad (Tensor d)) = Return t
  /\ (r <-- deg2rad (Tensor t) ;; rad2deg (Tensor r)) = Return t.
Proof.
  intros t; apply (degrees_radians_round_trip t); discriminate.
Defined.

(* ===================================================================== *)
(** ** Homogeneous coordinates *)
(* ===================================================================== *)

Lemma shape_eqb_refl (s : list nat) : shape_eqb s s = true.
Proof.
  induction s as [| x s IH]; [reflexivity |].
  cbn [shape_eqb]; rewrite Nat.eqb_refl, IH; reflexivity.
Qed.

Section Slices.

Variable t : tensor.
Variables b d n : nat.
Hypothesis shape_t : tshape t = [b; d; n].
Hypothesis wf_t : well_formed t.

Lemma rank3_prefix : prefix t = [b; d].
Proof. unfold prefix; rewrite shape_t; reflexivity. Qed.

Lemma rank3_last_dim : last_dim t = n.
Proof. unfold last_dim; rewrite shape_t; reflexivity. Qed.

Lemma rank3_length : List.length (tdata t) = (numel [b; d] * n)%nat.
Proof.
  unfold well_formed in wf_t; rewrite wf_t, shape_t.
  cbn [numel fold_right]; lia.
Qed.

(** [f] applied to every element, by index. *)
Lemma map_at_last (g : scalar -> scalar) (o j : nat) :
  (o < numel [b; d])%nat -> (j < n)%nat ->
  at_last (mkTensor (tshape t) (map g (tdata t))) o j = g (at_last t o j).
Proof.
  intros Ho Hj; unfold at_last, last_dim, item; cbn [tshape tdata].
  rewrite shape_t; cbn [last].
  rewrite (nth_indep (map g (tdata t)) NaN (g NaN))
    by (rewrite length_map, rank3_length; nia).
  apply map_nth.
Qed.

(** [t[..., :-1]], [t[..., -1:]] and [t[..., :1]] *)
Lemma slice_init :
  slice_last t None (Some (-1)%Z)
  = tabulate_last [b; d] (n - 1) (fun o j => at_last t o j).
Proof.
  unfold slice_last, slice_range, slice_index.
  rewrite rank3_last_dim, rank3_prefix.
  change (-1 <? 0)%Z with true; cbv iota.
  replace (Z.to_nat (Z.max 0 (-1 + Z.of_nat n)) - 0)%nat with (n - 1)%nat by lia.
  reflexivity.
Qed.

Lemma slice_final :
  (1 <= n)%nat ->
  slice_last t (Some (-1)%Z) None
  = tabulate_last [b; d] 1 (fun o j => at_last t o (n - 1 + j)).
Proof.
  intros Hn.
  unfold slice_last, slice_range, slice_index.
  rewrite rank3_last_dim, rank3_prefix.
  change (-1 <? 0)%Z with true; cbv iota.
  replace (Z.to_nat (Z.max 0 (-1 + Z.of_nat n))) with (n - 1)%nat by lia.
  replace (n - (n - 1))%nat with 1%nat by lia.
  reflexivity.
Qed.

Lemma slice_first :
  (1 <= n)%nat ->
  slice_last t None (Some 1%Z)
  = tabulate_last [b; d] 1 (fun o j => at_last t o j).
Proof.
  intros Hn.
  unfold slice_last, slice_range, slice_index.
  rewrite rank3_last_dim, rank3_prefix.
  change (1 <? 0)%Z with false; cbv iota.
  replace (Nat.min (Z.to_nat 1) n - 0)%nat with 1%nat by lia.
  reflexivity.
Qed.

End Slices.

Section Homogeneous.

Variable t : tensor.
Variables b d n : nat.
Hypothesis shape_t : tshape t = [b; d; n].
Hypothesis wf_t : well_formed t.

(** The points with a 1 appended. *)
Lemma to_homogeneous_tensor :
  (1 <= n)%nat ->
  convert_points_to_homogeneous (Tensor t)
  = Return (tabulate_last [b; d] (n + 1)
              (fun o j => if (j <? n)%nat then at_last t o j else Fin 1)).
Proof.
  intros Hn.
  unfold convert_points_to_homogeneous.
  rewrite shape_t; cbn [List.length Nat.eqb negb].
  assert (So : tshape (ones_like t) = [b; d; n]) by exact shape_t.
  assert (Wo : well_formed (ones_like t)).
  { unfold well_formed, ones_like; cbn [tdata tshape].
    rewrite length_map; exact wf_t. }
  rewrite (slice_first (ones_like t) b d n So Hn).
  unfold cat_last.
  rewrite tabulate_last_prefix, (rank3_prefix t b d n shape_t), shape_eqb_refl.
  rewrite tabulate_last_dim, (rank3_last_dim t b d n shape_t).
  f_equal; apply tabulate_last_ext; intros o j Ho Hj.
  destruct (j <? n)%nat eqn:E; [reflexivity |].
  apply Nat.ltb_ge in E.
  rewrite tabulate_last_at by (auto; lia).
  unfold ones_like.
  rewrite (map_at_last t b d n shape_t wf_t) by (auto; lia).
  reflexivity.
Qed.

(** Every coordinate but the last, divided by the last one plus [eps]. *)
Lemma from_homogeneous_tensor (eps : scalar) :
  (1 <= n)%nat ->
  convert_points_from_homogeneous (Tensor t) eps
  = Return (tabulate_last [b; d] (n - 1)
              (fun o j => at_last t o j / (at_last t o (n - 1) + eps))).
Proof.
  intros Hn.
  unfold convert_points_from_homogeneous.
  rewrite shape_t; cbn [List.length Nat.eqb negb].
  rewrite (slice_init t b d n shape_t), (slice_final t b d n shape_t Hn).
  unfold div_last.
  assert (L : last_dim (add_scalar (tabulate_last [b; d] 1
                          (fun o j => at_last t o (n - 1 + j))) eps) = 1%nat).
  { unfold add_scalar, last_dim, tabulate_last; reflexivity. }
  rewrite L, tabulate_last_prefix, tabulate_last_dim; cbn [Nat.eqb].
  f_equal; apply tabulate_last_ext; intros o j Ho Hj.
  rewrite tabulate_last_at by (auto; lia).
  f_equal.
  unfold add_scalar, at_last, last_dim, tabulate_last, item;
    cbn [tshape tdata last app].
  rewrite (nth_indep _ NaN (NaN + eps))
    by (rewrite length_map, table_length; lia).
  rewrite (map_nth (fun x => x + eps)).
  rewrite (table_nth _ 1) by (auto; lia).
  rewrite Nat.add_0_r; reflexivity.
Qed.

End Homogeneous.

(* ===================================================================== *)
(** ** Sums of products *)
(* ===================================================================== *)

Section Dot.

Lemma dot_S (n : nat) (u v : nat -> scalar) :
  dot (S n) u v = dot n u v + u n * v n.
Proof.
  unfold dot; rewrite seq_S, fold_left_app; reflexivity.
Qed.

Lemma dot_ext (n : nat) (u u' v v' : nat -> scalar) :
  (forall m, (m < n)%nat -> u m = u' m) ->
  (forall m, (m < n)%nat -> v m = v' m) ->
  dot n u v = dot n u' v'.
Proof.
  induction n as [| n IH]; intros Hu Hv; [reflexivity |].
  rewrite !dot_S, IH, Hu, Hv by (auto; intros; auto with arith).
  reflexivity.
Qed.

(** A row of the identity matrix picks one component of a vector of
    numbers. *)
Lemma dot_unit (k n : nat) (u v : nat -> scalar) :
  (forall m, (m < n)%nat -> u m = if (m =? k)%nat then Fin 1 else Fin 0) ->
  (forall m, (m < n)%nat -> Fl.finite (v m)) ->
  dot n u v = if (k <? n)%nat then v k else Fin 0.
Proof.
  induction n as [| n IH]; intros Hu Hv; [reflexivity |].
  rewrite dot_S, IH, (Hu n) by (auto; intros; auto with arith).
  pose proof (Hv n (Nat.lt_succ_diag_r n)) as Fn.
  destruct (v n) as [x | | |] eqn:En; try contradiction.
  destruct (Nat.eqb_spec n k) as [-> | Hk].
  - rewrite Nat.ltb_irrefl.
    replace (k <? S k)%nat with true by (symmetry; apply Nat.ltb_lt; lia).
    rewrite En; cbn [Fl.mul Fl.add]; f_equal; ring.
  - destruct (k <? n)%nat eqn:E.
    + apply Nat.ltb_lt in E.
      replace (k <? S n)%nat with true by (symmetry; apply Nat.ltb_lt; lia).
      pose proof (Hv k ltac:(lia)) as Fk.
      destruct (v k) as [y | | |]; try contradiction.
      cbn [Fl.mul Fl.add]; f_equal; ring.
    + apply Nat.ltb_ge in E.
      replace (k <? S n)%nat with false by (symmetry; apply Nat.ltb_ge; lia).
      cbn [Fl.mul Fl.add]; f_equal; ring.
Qed.

End Dot.

(* ===================================================================== *)
(** ** Transforming points *)
(* ===================================================================== *)

Lemma tabulate3_ext (nb nr nc : nat) (f g : nat -> nat -> nat -> scalar) :
  (forall b i j, (b < nb)%nat -> (i < nr)%nat -> (j < nc)%nat ->
                 f b i j = g b i j) ->
  tabulate3 nb nr nc f = tabulate3 nb nr nc g.
Proof.
  intros H; unfold tabulate3; f_equal.
  rewrite !flat_map_concat_map; f_equal.
  apply map_ext_in; intros b Hb; apply in_seq in Hb.
  apply table_ext; intros i j Hi Hj; apply H; lia.
Qed.

Lemma transpose_1_2_shape (t : tensor) (b r c : nat) :
  tshape t = [b; r; c] ->
  transpose_1_2 t = tabulate3 b c r (fun n i j => at3 t n j i).
Proof. intros Hs; unfold transpose_1_2, dim; rewrite Hs; reflexivity. Qed.

(** The product of two batches of the same size. *)
Lemma matmul_batch (x y : tensor) (b r m c : nat) :
  tshape x = [b; r; m] -> tshape y = [b; m; c] ->
  matmul x y
  = Return (tabulate3 b r c
              (fun n i j => dot m (fun k => at3 x n i k)
                                (fun k => at3 y n k j))).
Proof.
  intros Hx Hy; unfold matmul, dim; rewrite Hx, Hy; cbn [nth].
  rewrite !Nat.eqb_refl; cbn [orb negb].
  f_equal.
  replace (if (b =? 1)%nat then b else b) with b
    by (destruct (b =? 1)%nat; reflexivity).
  apply tabulate3_ext; intros n i j Hn Hi Hj.
  replace (if (b =? 1)%nat then 0%nat else n) with n
    by (destruct (Nat.eqb_spec b 1); lia).
  reflexivity.
Qed.

Section TransformPoints.

Variables pose pts : tensor.
Variables B K D N : nat.
Hypothesis shape_pose : tshape pose = [B; K; (D + 1)%nat].
Hypothesis shape_pts : tshape pts = [B; N; D].
Hypothesis wf_pts : well_formed pts.
Hypothesis D_pos : (1 <= D)%nat.
Hypothesis K_pos : (1 <= K)%nat.

(** The homogeneous coordinates of the point [n] of batch [b]. *)
Let hom (b n m : nat) : scalar :=
  if (m <? D)%nat then at3 pts b n m else Fin 1.

Lemma transform_points_entries :
  exists r,
    transform_points (Tensor pose) (Tensor pts) = Return r
    /\ tshape r = [B; N; (K - 1)%nat]
    /\ well_formed r
    /\ forall b n k, (b < B)%nat -> (n < N)%nat -> (k < K - 1)%nat ->
         at3 r b n k
         = dot (D + 1) (fun m => at3 pose b k m) (hom b n)
           / (dot (D + 1) (fun m => at3 pose b (K - 1) m) (hom b n)
              + default_eps).
Proof.
  unfold transform_points.
  change (String.eqb (device pose) (device pts)) with true.
  unfold dim at 1 2 3 4; rewrite shape_pose, shape_pts.
  cbn [List.length nth negb orb].
  rewrite !Nat.eqb_refl; cbn [negb orb].
  rewrite (to_homogeneous_tensor pts B N D shape_pts wf_pts D_pos).
  cbn [and_then].
  set (h := tabulate_last [B; N] (D + 1)
              (fun o j => if (j <? D)%nat then at_last pts o j else Fin 1)).
  assert (Sh : tshape h = [B; N; (D + 1)%nat]) by reflexivity.
  rewrite (transpose_1_2_shape h B N (D + 1) Sh).
  set (hT := tabulate3 B (D + 1) N (fun b i j => at3 h b j i)).
  rewrite (matmul_batch pose hT B K (D + 1) N shape_pose eq_refl).
  cbn [and_then].
  set (mm := tabulate3 B K N
               (fun n i j => dot (D + 1) (fun m => at3 pose n i m)
                                 (fun m => at3 hT n m j))).
  rewrite (transpose_1_2_shape mm B K N eq_refl).
  set (X := tabulate3 B N K (fun b i j => at3 mm b j i)).
  assert (SX : tshape X = [B; N; K]) by reflexivity.
  rewrite (from_homogeneous_tensor X B N K SX default_eps K_pos).
  eexists; split; [reflexivity |].
  split; [reflexivity |].
  split; [apply tabulate_last_well_formed |].
  intros b n k Hb Hn Hk.
  assert (Ho : (b * N + n < numel [B; N])%nat)
    by (cbn [numel fold_right]; nia).
  rewrite <- (at_last_at3 _ B N (K - 1)) by reflexivity.
  rewrite tabulate_last_at by assumption.
  rewrite !(at_last_at3 X B N K) by exact SX.
  unfold X; rewrite !tabulate3_at by lia.
  unfold mm; rewrite !tabulate3_at by lia.
  assert (Eh : forall m, (m < D + 1)%nat -> at3 hT b m n = hom b n m).
  { intros m Hm; unfold hT; rewrite tabulate3_at by lia.
    rewrite <- (at_last_at3 h B N (D + 1)) by exact Sh.
    unfold h; rewrite tabulate_last_at by assumption.
    unfold hom; rewrite (at_last_at3 pts B N D) by exact shape_pts.
    reflexivity. }
  f_equal; [| f_equal]; apply dot_ext; intros m Hm; auto.
Qed.

End TransformPoints.

Lemma index3_bound (b d n i j k : nat) :
  (i < b)%nat -> (j < d)%nat -> (k < n)%nat ->
  ((i * d + j) * n + k < b * (d * (n * 1)))%nat.
Proof.
  intros Hi Hj Hk.
  assert (H1 : (i * d + j + 1 <= b * d)%nat) by nia.
  assert (H2 : ((i * d + j + 1) * n <= b * d * n)%nat)
    by (apply Nat.mul_le_mono_r; exact H1).
  lia.
Qed.

(** Two tensors of rank three with the same shape and the same elements
    are equal. *)
Lemma tensor3_eq (r r' : tensor) (b d n : nat) :
  tshape r = [b; d; n] -> tshape r' = [b; d; n] ->
  well_formed r -> well_formed r' ->
  (forall i j k, (i < b)%nat -> (j < d)%nat -> (k < n)%nat ->
                 at3 r i j k = at3 r' i j k) ->
  r = r'.
Proof.
  intros Hs Hs' Hw Hw' He.
  unfold at3, dim in He; rewrite Hs, Hs' in He; cbn [nth] in He.
  unfold well_formed in Hw, Hw'; rewrite Hs in Hw; rewrite Hs' in Hw'.
  destruct r as [s l], r' as [s' l']; cbn [tshape tdata] in *.
  subst s s'; f_equal.
  cbn [numel fold_right] in Hw, Hw'.
  apply (nth_ext _ _ NaN NaN); [lia |].
  intros x Hx.
  assert (Hn : (0 < n)%nat) by (destruct n; lia).
  assert (Hd : (0 < d)%nat) by (destruct d; lia).
  pose proof (Nat.div_mod_eq x n) as E1.
  pose proof (Nat.div_mod_eq (x / n) d) as E2.
  pose proof (Nat.mod_upper_bound x n ltac:(lia)) as B1.
  pose proof (Nat.mod_upper_bound (x / n) d ltac:(lia)) as B2.
  assert (B3 : (x / n / d < b)%nat).
  { apply Nat.Div0.div_lt_upper_bound.
    apply Nat.Div0.div_lt_upper_bound; nia. }
  specialize (He (x / n / d)%nat ((x / n) mod d)%nat (x mod n)%nat B3 B2 B1).
  unfold item in He.
  replace ((x / n / d * d + (x / n) mod d) * n + x mod n)%nat with x in He
    by nia.
  exact He.
Qed.

(** An element of a tensor whose data is mapped. *)
Lemma at3_map (t : tensor) (g : scalar -> scalar) (b d n i j k : nat) :
  tshape t = [b; d; n] -> well_formed t ->
  (i < b)%nat -> (j < d)%nat -> (k < n)%nat ->
  at3 (mkTensor [b; d; n] (map g (tdata t))) i j k = g (at3 t i j k).
Proof.
  intros Hs Hw Hi Hj Hk.
  unfold at3, dim, item; rewrite Hs; cbn [tshape tdata nth].
  unfold well_formed in Hw; rewrite Hs in Hw; cbn [numel fold_right] in Hw.
  rewrite (nth_indep (map g (tdata t)) NaN (g NaN))
    by (rewrite length_map, Hw; apply index3_bound; assumption).
  apply map_nth.
Qed.

Lemma at3_finite (t : tensor) (b d n i j k : nat) :
  tshape t = [b; d; n] -> well_formed t -> Forall Fl.finite (tdata t) ->
  (i < b)%nat -> (j < d)%nat -> (k < n)%nat ->
  Fl.finite (at3 t i j k).
Proof.
  intros Hs Hw Hf Hi Hj Hk.
  unfold at3, dim, item; rewrite Hs; cbn [nth].
  unfold well_formed in Hw; rewrite Hs in Hw; cbn [numel fold_right] in Hw.
  apply Forall_nth; [exact Hf |].
  rewrite Hw; apply index3_bound; assumption.
Qed.

(** X2.  The converter to homogeneous coordinates appends a 1 to every point:
    a well-formed (B, D, N) tensor with N >= 1 gives a (B, D, N+1) tensor
    that holds the N coordinates of each point followed by 1. *)
Theorem to_homogeneous_appends_one (t : tensor) (b d n : nat) :
  tshape t = [b; d; n] -> well_formed t -> (1 <= n)%nat ->
  exists h,
    convert_points_to_homogeneous (Tensor t) = Return h
    /\ tshape h = [b; d; (n + 1)%nat]
    /\ well_formed h
    /\ forall i j k, (i < b)%nat -> (j < d)%nat -> (k <= n)%nat ->
         at3 h i j k = if (k <? n)%nat then at3 t i j k else Fin 1.
Proof.
  intros Hs Hw Hn.
  rewrite (to_homogeneous_tensor t b d n Hs Hw Hn).
  eexists; split; [reflexivity |].
  split; [reflexivity |].
  split; [apply tabulate_last_well_formed |].
  intros i j k Hi Hj Hk.
  rewrite <- (at_last_at3 _ b d (n + 1)) by reflexivity.
  rewrite tabulate_last_at by (cbn [numel fold_right]; nia).
  rewrite (at_last_at3 t b d n) by exact Hs.
  reflexivity.
Qed.

Lemma to_homogeneous_appends_one_witness :
  let t := mkTensor [1; 1; 2]%nat [Fin 3; Fin 4] in
  exists h,
    convert_points_to_homogeneous (Tensor t) = Return h
    /\ tshape h = [1; 1; 3]%nat
    /\ well_formed h
    /\ forall i j k, (i < 1)%nat -> (j < 1)%nat -> (k <= 2)%nat ->
         at3 h i j k = if (k <? 2)%nat then at3 t i j k else Fin 1.
Proof.
  intros t.
  apply (to_homogeneous_appends_one t 1 1 2);
    [reflexivity | reflexivity | lia].
Defined.

(** X3.  The converter from homogeneous coordinates divides every coordinate
    but the last by the last one plus [eps]: a well-formed (B, D, N)
    tensor with N >= 1 gives a (B, D, N-1) tensor of these quotients. *)
Theorem from_homogeneous_divides (t : tensor) (b d n : nat) (eps : scalar) :
  tshape t = [b; d; n] -> well_formed t -> (1 <= n)%nat ->
  exists r,
    convert_points_from_homogeneous (Tensor t) eps = Return r
    /\ tshape r = [b; d; (n - 1)%nat]
    /\ well_formed r
    /\ forall i j k, (i < b)%nat -> (j < d)%nat -> (k < n - 1)%nat ->
         at3 r i j k = at3 t i j k / (at3 t i j (n - 1) + eps).
Proof.
  intros Hs Hw Hn.
  rewrite (from_homogeneous_tensor t b d n Hs eps Hn).
  eexists; split; [reflexivity |].
  split; [reflexivity |].
  split; [apply tabulate_last_well_formed |].
  intros i j k Hi Hj Hk.
  rewrite <- (at_last_at3 _ b d (n - 1)) by reflexivity.
  rewrite tabulate_last_at by (cbn [numel fold_right]; nia).
  rewrite !(at_last_at3 t b d n) by exact Hs.
  reflexivity.
Qed.

Lemma from_homogeneous_divides_witness :
  let t := mkTensor [1; 1; 2]%nat [Fin 3; Fin 4] in
  exists r,
    convert_points_from_homogeneous (Tensor t) default_eps = Return r
    /\ tshape r = [1; 1; 1]%nat
    /\ well_formed r
    /\ forall i j k, (i < 1)%nat -> (j < 1)%nat -> (k < 1)%nat ->
         at3 r i j k = at3 t i j k / (at3 t i j 1 + default_eps).
Proof.
  intros t.
  apply (from_homogeneous_divides t 1 1 2 default_eps);
    [reflexivity | reflexivity | lia].
Defined.

(** X5.  To homogeneous coordinates and back is not the identity: every
    coordinate comes back divided by [1 + eps]. *)
Theorem homogeneous_round_trip_scales (t : tensor) (b d n : nat)
        (eps : scalar) :
  tshape t = [b; d; n] -> well_formed t -> (1 <= n)%nat ->
  (h <-- convert_points_to_homogeneous (Tensor t) ;;
   convert_points_from_homogeneous (Tensor h) eps)
  = Return (mkTensor [b; d; n]
              (map (fun x => x / (Fin 1 + eps)) (tdata t))).
Proof.
  intros Hs Hw Hn.
  rewrite (to_homogeneous_tensor t b d n Hs Hw Hn); cbn [and_then].
  set (h := tabulate_last [b; d] (n + 1)
              (fun o j => if (j <? n)%nat then at_last t o j else Fin 1)).
  rewrite (from_homogeneous_tensor h b d (n + 1) eq_refl eps) by lia.
  f_equal.
  replace (n + 1 - 1)%nat with n by lia.
  unfold tabulate_last; cbn [app]; f_equal.
  rewrite <- (table_map (numel [b; d]) n (tdata t))
    by (apply (rank3_length t b d n Hs Hw)).
  apply table_ext; intros o j Ho Hj.
  unfold h; rewrite !tabulate_last_at by (auto; lia).
  replace (j <? n)%nat with true by (symmetry; apply Nat.ltb_lt; lia).
  rewrite Nat.ltb_irrefl.
  unfold at_last; rewrite (rank3_last_dim t b d n Hs); reflexivity.
Qed.

Lemma homogeneous_round_trip_scales_witness :
  let t := mkTensor [1; 1; 2]%nat [Fin 3; Fin 4] in
  (h <-- convert_points_to_homogeneous (Tensor t) ;;
   convert_points_from_homogeneous (Tensor h) default_eps)
  = Return (mkTensor [1; 1; 2]%nat
              (map (fun x => x / (Fin 1 + default_eps)) (tdata t))).
Proof.
  intros t.
  apply (homogeneous_round_trip_scales t 1 1 2 default_eps);
    [reflexivity | reflexivity | lia].
Defined.

(** X6.  [transform_points] applies a projective map to every point: on a
    (B, K, D+1) tensor of matrices and a well-formed (B, N, D) tensor of
    points it returns a (B, N, K-1) tensor; the coordinate k of a point is
    row k of the batch's matrix times the point's homogeneous coordinates,
    divided by the last row times them plus 1e-6. *)
Theorem transform_points_projective (pose pts : tensor) (B K D N : nat) :
  tshape pose = [B; K; (D + 1)%nat] -> tshape pts = [B; N; D] ->
  well_formed pts -> (1 <= D)%nat -> (1 <= K)%nat ->
  exists r,
    transform_points (Tensor pose) (Tensor pts) = Return r
    /\ tshape r = [B; N; (K - 1)%nat]
    /\ well_formed r
    /\ forall b n k, (b < B)%nat -> (n < N)%nat -> (k < K - 1)%nat ->
         at3 r b n k
         = dot (D + 1) (fun m => at3 pose b k m) (homogeneous pts b n)
           / (dot (D + 1) (fun m => at3 pose b (K - 1) m)
                  (homogeneous pts b n)
              + default_eps).
Proof.
  intros Hp Hs Hw HD HK.
  destruct (transform_points_entries pose pts B K D N Hp Hs Hw HD HK)
    as (r & E & Sr & Wr & He).
  exists r; repeat split; try assumption.
  intros b n k Hb Hn Hk; rewrite (He b n k Hb Hn Hk).
  unfold homogeneous, dim; rewrite Hs; reflexivity.
Qed.

Lemma transform_points_projective_witness :
  let pose := eye_batch 1 3 in
  let pts := mkTensor [1; 1; 2]%nat [Fin 3; Fin 4] in
  exists r,
    transform_points (Tensor pose) (Tensor pts) = Return r
    /\ tshape r = [1; 1; 2]%nat
    /\ well_formed r
    /\ forall b n k, (b < 1)%nat -> (n < 1)%nat -> (k < 2)%nat ->
         at3 r b n k
         = dot 3 (fun m => at3 pose b k m) (homogeneous pts b n)
           / (dot 3 (fun m => at3 pose b 2 m) (homogeneous pts b n)
              + default_eps).
Proof.
  intros pose pts.
  apply (transform_points_projective pose pts 1 3 2 1);
    [reflexivity | reflexivity | reflexivity | lia | lia].
Defined.

(** X7.  With identity matrices [transform_points] does not return the points
    but the points divided by 1 + 1e-6. *)
Theorem transform_points_identity (pts : tensor) (B N D : nat) :
  tshape pts = [B; N; D] -> well_formed pts -> (1 <= D)%nat ->
  Forall Fl.finite (tdata pts) ->
  transform_points (Tensor (eye_batch B (D + 1))) (Tensor pts)
  = Return (mkTensor [B; N; D]
              (map (fun x => x / (Fin 1 + default_eps)) (tdata pts))).
Proof.
  intros Hs Hw HD Hf.
  destruct (transform_points_entries (eye_batch B (D + 1)) pts B (D + 1) D N
              eq_refl Hs Hw HD ltac:(lia))
    as (r & E & Sr & Wr & He).
  rewrite E; f_equal.
  replace (D + 1 - 1)%nat with D in * by lia.
  apply (tensor3_eq r _ B N D); try assumption; try reflexivity.
  { unfold well_formed; cbn [tdata tshape]; rewrite length_map.
    unfold well_formed in Hw; rewrite Hs in Hw; exact Hw. }
  intros b n k Hb Hn Hk.
  rewrite (He b n k Hb Hn Hk).
  rewrite (at3_map pts _ B N D) by assumption.
  assert (Fh : forall m, (m < D + 1)%nat ->
                         Fl.finite (if (m <? D)%nat then at3 pts b n m else Fin 1)).
  { intros m Hm; destruct (m <? D)%nat eqn:Em; [| exact I].
    apply Nat.ltb_lt in Em.
    apply (at3_finite pts B N D); assumption. }
  rewrite (dot_unit k), (dot_unit D); try assumption.
  - replace (k <? D + 1)%nat with true by (symmetry; apply Nat.ltb_lt; lia).
    replace (D <? D + 1)%nat with true by (symmetry; apply Nat.ltb_lt; lia).
    replace (k <? D)%nat with true by (symmetry; apply Nat.ltb_lt; lia).
    rewrite Nat.ltb_irrefl; reflexivity.
  - intros m Hm; unfold eye_batch; rewrite tabulate3_at by lia.
    rewrite Nat.eqb_sym; reflexivity.
  - intros m Hm; unfold eye_batch; rewrite tabulate3_at by lia.
    rewrite Nat.eqb_sym; reflexivity.
Qed.

Lemma transform_points_identity_witness :
  let pts := mkTensor [1; 1; 2]%nat [Fin 3; Fin 4] in
  transform_points (Tensor (eye_batch 1 3)) (Tensor pts)
  = Return (mkTensor [1; 1; 2]%nat
              (map (fun x => x / (Fin 1 + default_eps)) (tdata pts))).
Proof.
  intros pts.
  apply (transform_points_identity pts 1 1 2);
    [reflexivity | reflexivity | lia | repeat constructor].
Defined.

(* ===================================================================== *)
(** ** Rodrigues vector and translation to pose *)
(* ===================================================================== *)

Lemma chunks_rows (n : nat) (f : nat -> nat -> scalar) (l : list nat) :
  chunks (List.length l) n (flat_map (fun i => map (f i) (seq 0 n)) l)
  = map (fun i => map (f i) (seq 0 n)) l.
Proof.
  induction l as [| a l IH]; [reflexivity |].
  cbn [List.length chunks flat_map map].
  pose proof (table_row_length n f a) as W.
  set (r := map (f a) (seq 0 n)) in *.
  set (rest := flat_map (fun i => map (f i) (seq 0 n)) l) in *.
  assert (Hf : firstn n (r ++ rest) = r).
  { rewrite <- W.
    rewrite firstn_app, firstn_all, Nat.sub_diag, firstn_O, app_nil_r.
    reflexivity. }
  assert (Hs : skipn n (r ++ rest) = rest).
  { rewrite <- W.
    rewrite skipn_app, skipn_all, Nat.sub_diag, skipn_O.
    reflexivity. }
  rewrite Hf, Hs, IH; reflexivity.
Qed.

(** The rows of a table. *)
Lemma chunks_table (o n : nat) (f : nat -> nat -> scalar) :
  chunks o n (table o n f) = map (fun i => map (f i) (seq 0 n)) (seq 0 o).
Proof.
  pose proof (chunks_rows n f (seq 0 o)) as H.
  rewrite length_seq in H; exact H.
Qed.

Section PoseOfTensor.

Variable t : tensor.
Variable N : nat.
Hypothesis shape_t : tshape t = [N; 6%nat].

(** The rotation part and the translation part of row [b]. *)
Let rot (b : nat) : list scalar := [at_last t b 0; at_last t b 1; at_last t b 2].

Lemma rank2_prefix : prefix t = [N].
Proof. unfold prefix; rewrite shape_t; reflexivity. Qed.

Lemma rank2_last_dim : last_dim t = 6%nat.
Proof. unfold last_dim; rewrite shape_t; reflexivity. Qed.

Lemma rtvec_rotation_part :
  slice_last t None (Some 3%Z)
  = tabulate_last [N] 3 (fun o j => at_last t o j).
Proof.
  unfold slice_last; rewrite rank2_last_dim, rank2_prefix; reflexivity.
Qed.

Lemma rtvec_translation_part :
  slice_last t (Some 3%Z) None
  = tabulate_last [N] 3 (fun o j => at_last t o (3 + j)).
Proof.
  unfold slice_last; rewrite rank2_last_dim, rank2_prefix; reflexivity.
Qed.

Lemma rtvec_rotation_rows :
  rows (tabulate_last [N] 3 (fun o j => at_last t o j)) = map rot (seq 0 N).
Proof.
  unfold rows, tabulate_last; cbn [tshape tdata app nth numel fold_right].
  rewrite Nat.mul_1_r, chunks_table; reflexivity.
Qed.

Lemma rtvec_rotation_matrices :
  angle_axis_to_rotation_matrix_torch
    (tabulate_last [N] 3 (fun o j => at_last t o j)) default_eps
  = mkTensor [N; 4; 4]%nat
      (flat_map (fun b => angle_axis_to_rotation_matrix_row default_eps (rot b))
                (seq 0 N)).
Proof.
  unfold angle_axis_to_rotation_matrix_torch.
  rewrite rtvec_rotation_rows.
  rewrite flat_map_concat_map, map_map, <- flat_map_concat_map.
  reflexivity.
Qed.

Lemma rtvec_to_pose_tensor :
  rtvec_to_pose (Tensor t)
  = Return (Tensor (tabulate3 N 4 4
      (fun b i j =>
         if ((i <? 3) && (j =? 3))%nat then at_last t b (3 + i)
         else item (angle_axis_to_rotation_matrix_row default_eps (rot b))
                   (i * 4 + j)))).
Proof.
  unfold rtvec_to_pose, shape_of, slice_last_of.
  cbn [and_then]; rewrite shape_t; cbn [last Nat.eqb negb].
  rewrite rtvec_rotation_part, rtvec_translation_part.
  unfold angle_axis_to_rotation_matrix.
  cbn [tabulate_last tshape app List.length nth Nat.eqb andb negb lift
       and_then].
  fold (tabulate_last [N] 3 (fun o j => at_last t o j)).
  rewrite rtvec_rotation_matrices.
  cbn [set_translation]; unfold dim; cbn [tshape nth].
  f_equal; f_equal.
  apply tabulate3_ext; intros b i j Hb Hi Hj.
  destruct ((i <? 3) && (j =? 3))%nat eqn:E.
  - apply andb_prop in E; destruct E as [E1 _]; apply Nat.ltb_lt in E1.
    rewrite tabulate_last_at by (cbn [numel fold_right]; lia).
    reflexivity.
  - unfold at3, dim, item; cbn [tshape tdata nth].
    replace ((b * 4 + i) * 4 + j)%nat with (b * 16 + (i * 4 + j))%nat by lia.
    rewrite (flat_map_uniform_nth _ 16)
      by (auto; try lia; intros; apply angle_axis_row_width).
    reflexivity.
Qed.

End PoseOfTensor.

(** X8.  On a tensor of shape (N, 6), [rtvec_to_pose] returns N matrices of
    size 4x4: the 3x3 block of matrix b is the one the axis-angle
    converter gives for the first three numbers of row b, the last column
    holds the last three numbers of the row, and the last row is
    (0, 0, 0, 1). *)
Theorem rtvec_to_pose_structure (t : tensor) (N : nat) :
  tshape t = [N; 6%nat] ->
  exists r,
    rtvec_to_pose (Tensor t) = Return (Tensor r)
    /\ tshape r = [N; 4; 4]%nat
    /\ well_formed r
    /\ forall b, (b < N)%nat ->
         let R := angle_axis_to_rotation_matrix_row default_eps
                    [at_last t b 0; at_last t b 1; at_last t b 2] in
         (forall i j, (i < 3)%nat -> (j < 3)%nat ->
                      at3 r b i j = item R (i * 4 + j))
         /\ (forall i, (i < 3)%nat -> at3 r b i 3 = at_last t b (3 + i))
         /\ at3 r b 3 0 = Fin 0 /\ at3 r b 3 1 = Fin 0
         /\ at3 r b 3 2 = Fin 0 /\ at3 r b 3 3 = Fin 1.
Proof.
  intros Hs.
  rewrite (rtvec_to_pose_tensor t N Hs).
  eexists; split; [reflexivity |].
  split; [reflexivity |].
  split; [apply tabulate3_well_formed |].
  intros b Hb R.
  split; [| split; [| repeat split]].
  - intros i j Hi Hj; rewrite tabulate3_at by lia.
    replace (j =? 3)%nat with false by (symmetry; apply Nat.eqb_neq; lia).
    rewrite andb_false_r; reflexivity.
  - intros i Hi; rewrite tabulate3_at by lia.
    replace (i <? 3)%nat with true by (symmetry; apply Nat.ltb_lt; lia).
    reflexivity.
  - rewrite tabulate3_at by lia; reflexivity.
  - rewrite tabulate3_at by lia; reflexivity.
  - rewrite tabulate3_at by lia; reflexivity.
  - rewrite tabulate3_at by lia; reflexivity.
Qed.

Lemma rtvec_to_pose_structure_witness :
  let t := mkTensor [1; 6]%nat [Fin 0; Fin 0; Fin 0; Fin 1; Fin 2; Fin 3] in
  exists r,
    rtvec_to_pose (Tensor t) = Return (Tensor r)
    /\ tshape r = [1; 4; 4]%nat
    /\ well_formed r
    /\ forall b, (b < 1)%nat ->
         let R := angle_axis_to_rotation_matrix_row default_eps
                    [at_last t b 0; at_last t b 1; at_last t b 2] in
         (forall i j, (i < 3)%nat -> (j < 3)%nat ->
                      at3 r b i j = item R (i * 4 + j))
         /\ (forall i, (i < 3)%nat -> at3 r b i 3 = at_last t b (3 + i))
         /\ at3 r b 3 0 = Fin 0 /\ at3 r b 3 1 = Fin 0
         /\ at3 r b 3 2 = Fin 0 /\ at3 r b 3 3 = Fin 1.
Proof.
  intros t; apply (rtvec_to_pose_structure t 1); reflexivity.
Defined.

(** X9.  The inputs that [rtvec_to_pose] accepts: a tensor exactly when its
    shape is (N, 6), and a numpy array exactly when it is a vector of six
    numbers; a two-dimensional array is refused whatever its shape. *)
Theorem rtvec_to_pose_domain :
  (forall t, (exists p, rtvec_to_pose (Tensor t) = Return p)
             <-> exists N, tshape t = [N; 6%nat])
  /\ (forall a, (exists p, rtvec_to_pose (NdArray a) = Return p)
                <-> exists v, a = Vec v /\ List.length v = 6%nat).
Proof.
  split.
  - intros t; split.
    + intros [p H].
      unfold rtvec_to_pose, shape_of in H; cbn [and_then] in H.
      destruct (tshape t) as [| x s] eqn:Hs; [discriminate |].
      destruct (last (x :: s) 0 =? 6)%nat eqn:E6; [| discriminate].
      apply Nat.eqb_eq in E6; cbn [negb] in H.
      unfold slice_last_of, slice_last in H.
      assert (L : last_dim t = 6%nat) by (unfold last_dim; rewrite Hs; exact E6).
      rewrite L in H.
      change (slice_range 6 None (Some 3%Z)) with (0%nat, 3%nat) in H.
      cbv iota beta in H.
      unfold angle_axis_to_rotation_matrix, tabulate_last in H.
      cbn [tshape] in H.
      destruct (negb ((List.length (prefix t ++ [3 - 0]) =? 2)%nat &&
                      (nth 1 (prefix t ++ [3 - 0]) 0 =? 3)%nat)) eqn:E;
        [discriminate |].
      apply negb_false_iff, andb_prop in E; destruct E as [E _].
      apply Nat.eqb_eq in E; rewrite length_app in E; cbn [List.length] in E.
      assert (Hne : x :: s <> []) by discriminate.
      pose proof (app_removelast_last 0%nat Hne) as D.
      unfold prefix in E; rewrite Hs in E.
      destruct (removelast (x :: s)) as [| n [| m l]] eqn:R;
        cbn [List.length] in E; try lia.
      exists n; rewrite D, E6; reflexivity.
    + intros [N Hs].
      rewrite (rtvec_to_pose_tensor t N Hs); eexists; reflexivity.
  - intros a; split.
    + intros [p H]; destruct a as [v | r c d].
      * exists v; split; [reflexivity |].
        unfold rtvec_to_pose, shape_of in H; cbn [and_then] in H.
        cbn [last] in H.
        destruct (List.length v =? 6)%nat eqn:E; [| discriminate].
        apply Nat.eqb_eq in E; exact E.
      * exfalso.
        unfold rtvec_to_pose, shape_of in H; cbn [and_then last] in H.
        destruct (c =? 6)%nat; cbn [negb] in H; [| discriminate].
        unfold slice_last_of, angle_axis_to_rotation_matrix,
          angle_axis_to_rotation_matrix_numpy in H.
        match type of H with
        | context [negb (?u =? ?w)%nat] => destruct (negb (u =? w)%nat)
        end; [discriminate |].
        destruct (2 <=? r)%nat; discriminate.
    + intros (v & -> & Hv).
      destruct v as [| a0 [| a1 [| a2 [| t0 [| t1 [| t2 [| ? ?]]]]]]];
        try discriminate.
      unfold rtvec_to_pose, shape_of; cbn [and_then last List.length Nat.eqb negb].
      unfold slice_last_of, slice; cbn [List.length].
      change (slice_range 6 None (Some 3%Z)) with (0%nat, 3%nat).
      change (slice_range 6 (Some 3%Z) None) with (3%nat, 6%nat).
      cbn [Nat.sub firstn skipn].
      unfold angle_axis_to_rotation_matrix, angle_axis_to_rotation_matrix_numpy.
      destruct (sum_sq [a0; a1; a2] >? float32_eps);
        cbn [vitem List.length Nat.ltb Nat.leb bind lift and_then
             set_translation];
        eexists; reflexivity.
Qed.

(** X10.  A rotation vector of zeros gives exactly the matrix of the
    translation, on both paths and for every translation (numbers or
    not). *)
Theorem rtvec_pure_translation (x y z : scalar) :
  let T := [ Fin 1; Fin 0; Fin 0; x;
             Fin 0; Fin 1; Fin 0; y;
             Fin 0; Fin 0; Fin 1; z;
             Fin 0; Fin 0; Fin 0; Fin 1 ] in
  rtvec_to_pose (Tensor (mkTensor [1; 6]%nat
                           [Fin 0; Fin 0; Fin 0; x; y; z]))
  = Return (Tensor (mkTensor [1; 4; 4]%nat T))
  /\ rtvec_to_pose (NdArray (Vec [Fin 0; Fin 0; Fin 0; x; y; z]))
     = Return (NdArray (Mat 4 4 T)).
Proof.
  intros T; split.
  - rewrite (rtvec_to_pose_tensor
               (mkTensor [1; 6]%nat [Fin 0; Fin 0; Fin 0; x; y; z]) 1 eq_refl).
    unfold tabulate3, table; cbn [seq flat_map map app].
    unfold at_last, last_dim, item;
      cbn [tshape tdata last nth Nat.mul Nat.add Nat.ltb Nat.leb Nat.eqb andb].
    pose proof (torch_row_taylor 0 0 0 ltac:(lra)) as E.
    rewrite E.
    unfold mat4; cbn [nth].
    unfold T; rewrite Ropp_0; reflexivity.
  - unfold rtvec_to_pose, shape_of;
      cbn [and_then last List.length Nat.eqb negb].
    unfold slice_last_of, slice; cbn [List.length].
    change (slice_range 6 None (Some 3%Z)) with (0%nat, 3%nat).
    change (slice_range 6 (Some 3%Z) None) with (3%nat, 6%nat).
    cbn [Nat.sub firstn skipn].
    unfold angle_axis_to_rotation_matrix.
    rewrite (numpy_taylor 0 0 0) by lra.
    cbn [bind lift and_then set_translation].
    unfold table, mat4, item;
      cbn [seq flat_map map app nth Nat.ltb Nat.leb Nat.eqb andb
           Nat.mul Nat.add].
    unfold T; rewrite Ropp_0; reflexivity.
Qed.

Section PoseAndPoints.

Lemma add_zero_l (x : scalar) : Fin 0 + x = x.
Proof.
  destruct x as [v | | |]; try reflexivity.
  cbn [Fl.add]; f_equal; ring.
Qed.

Lemma mul_one_r (x : scalar) : x * Fin 1 = x.
Proof.
  destruct x as [v | | |]; cbn [Fl.mul Fl.neg]; try reflexivity.
  - f_equal; ring.
  - unfold Fl.signed_inf; rdec; reflexivity.
  - unfold Fl.signed_inf; rdec; reflexivity.
Qed.

End PoseAndPoints.

(** X11.  A pose built by [rtvec_to_pose] and applied by [transform_points]
    rotates every point of its batch, translates it, and divides the
    result by 1 + 1e-6. *)
Theorem pose_transforms_points (rtvec pts : tensor) (B N : nat) :
  tshape rtvec = [B; 6%nat] -> tshape pts = [B; N; 3%nat] ->
  well_formed pts -> Forall Fl.finite (tdata pts) ->
  exists pose r,
    rtvec_to_pose (Tensor rtvec) = Return (Tensor pose)
    /\ transform_points (Tensor pose) (Tensor pts) = Return r
    /\ tshape r = [B; N; 3%nat]
    /\ forall b n k, (b < B)%nat -> (n < N)%nat -> (k < 3)%nat ->
         let R := angle_axis_to_rotation_matrix_row default_eps
                    [at_last rtvec b 0; at_last rtvec b 1; at_last rtvec b 2] in
         at3 r b n k
         = (item R (k * 4) * at3 pts b n 0
            + item R (k * 4 + 1) * at3 pts b n 1
            + item R (k * 4 + 2) * at3 pts b n 2
            + at_last rtvec b (3 + k))
           / (Fin 1 + default_eps).
Proof.
  intros Hr Hs Hw Hf.
  rewrite (rtvec_to_pose_tensor rtvec B Hr).
  match goal with
  | |- exists _ _, Return (Tensor ?p) = _ /\ _ => set (pose := p)
  end.
  destruct (transform_points_entries pose pts B 4 3 N eq_refl Hs Hw
              ltac:(lia) ltac:(lia))
    as (r & E & Sr & Wr & He).
  exists pose, r.
  split; [reflexivity |].
  split; [exact E |].
  split; [exact Sr |].
  intros b n k Hb Hn Hk R.
  rewrite (He b n k Hb Hn Hk).
  assert (Fh : forall m, (m < 3 + 1)%nat ->
                         Fl.finite (if (m <? 3)%nat then at3 pts b n m else Fin 1)).
  { intros m Hm; destruct (m <? 3)%nat eqn:Em; [| exact I].
    apply Nat.ltb_lt in Em.
    apply (at3_finite pts B N 3); assumption. }
  rewrite (dot_unit 3 (3 + 1) (fun m => at3 pose b (4 - 1) m));
    try assumption.
  2:{ intros m Hm; unfold pose; rewrite tabulate3_at by lia.
      cbn [Nat.ltb Nat.leb andb].
      unfold angle_axis_to_rotation_matrix_row, eye4_with_block, item.
      destruct m as [| [| [| [| m]]]]; try reflexivity; lia. }
  cbn [Nat.ltb Nat.leb Nat.add Nat.sub].
  f_equal.
  unfold dot; cbn [seq fold_left Nat.ltb Nat.leb].
  unfold pose; rewrite !tabulate3_at by lia.
  replace (k <? 3)%nat with true by (symmetry; apply Nat.ltb_lt; lia).
  cbn [Nat.eqb andb].
  rewrite add_zero_l, mul_one_r.
  fold R.
  rewrite Nat.add_0_r.
  reflexivity.
Qed.

Lemma pose_transforms_points_witness :
  let rtvec := mkTensor [1; 6]%nat [Fin 0; Fin 0; Fin 0; Fin 1; Fin 2; Fin 3] in
  let pts := mkTensor [1; 1; 3]%nat [Fin 4; Fin 5; Fin 6] in
  exists pose r,
    rtvec_to_pose (Tensor rtvec) = Return (Tensor pose)
    /\ transform_points (Tensor pose) (Tensor pts) = Return r
    /\ tshape r = [1; 1; 3]%nat
    /\ forall b n k, (b < 1)%nat -> (n < 1)%nat -> (k < 3)%nat ->
         let R := angle_axis_to_rotation_matrix_row default_eps
                    [at_last rtvec b 0; at_last rtvec b 1; at_last rtvec b 2] in
         at3 r b n k
         = (item R (k * 4) * at3 pts b n 0
            + item R (k * 4 + 1) * at3 pts b n 1
            + item R (k * 4 + 2) * at3 pts b n 2
            + at_last rtvec b (3 + k))
           / (Fin 1 + default_eps).
Proof.
  intros rtvec pts.
  apply (pose_transforms_points rtvec pts 1 1);
    [reflexivity | reflexivity | reflexivity | repeat constructor].
Defined.

(** A quotient by zero is not a number, whatever is divided. *)
Lemma div_zero_not_finite (a : scalar) : ~ Fl.finite (a / Fin 0).
Proof.
  destruct a as [x | | |]; unfold Fl.div.
  - destruct (Req_dec_T 0 0) as [_ | E]; [| exfalso; apply E; reflexivity].
    unfold Fl.signed_inf; rdec; intros H; exact H.
  - destruct (Rlt_dec 0 0); intros H; exact H.
  - destruct (Rlt_dec 0 0); intros H; exact H.
  - intros H; exact H.
Qed.

(** X4.  [eps] moves the pole of the division, it does not remove it: a point
    whose last coordinate is the opposite of [eps] (-1e-6 by default) is
    divided by zero, and none of its coordinates comes back as a number;
    a positive coordinate comes back as +inf. *)
Theorem from_homogeneous_pole (t : tensor) (b d n : nat) (e : R) :
  tshape t = [b; d; n] -> well_formed t -> (1 <= n)%nat ->
  exists r,
    convert_points_from_homogeneous (Tensor t) (Fin e) = Return r
    /\ forall i j k,
         (i < b)%nat -> (j < d)%nat -> (k < n - 1)%nat ->
         at3 t i j (n - 1) = Fin (- e) ->
         ~ Fl.finite (at3 r i j k)
         /\ forall x : R, (0 < x)%R -> at3 t i j k = Fin x ->
                          at3 r i j k = PInf.
Proof.
  intros Hs Hw Hn.
  rewrite (from_homogeneous_tensor t b d n Hs (Fin e) Hn).
  eexists; split; [reflexivity |].
  intros i j k Hi Hj Hk Ew.
  rewrite <- (at_last_at3 _ b d (n - 1)) by reflexivity.
  rewrite tabulate_last_at by (cbn [numel fold_right]; nia).
  rewrite !(at_last_at3 t b d n) by exact Hs.
  rewrite Ew; cbn [Fl.add].
  replace (- e + e)%R with 0%R by ring.
  split; [apply div_zero_not_finite |].
  intros x Hx ->.
  unfold Fl.div.
  destruct (Req_dec_T 0 0) as [_ | E]; [| exfalso; apply E; reflexivity].
  unfold Fl.signed_inf; rdec; reflexivity.
Qed.

Lemma from_homogeneous_pole_witness :
  let t := mkTensor [1; 1; 2]%nat [Fin 3; Fin (- / 1000000)] in
  exists r,
    convert_points_from_homogeneous (Tensor t) default_eps = Return r
    /\ forall i j k,
         (i < 1)%nat -> (j < 1)%nat -> (k < 2 - 1)%nat ->
         at3 t i j (2 - 1) = Fin (- / 1000000) ->
         ~ Fl.finite (at3 r i j k)
         /\ forall x : R, (0 < x)%R -> at3 t i j k = Fin x ->
                          at3 r i j k = PInf.
Proof.
  intros t.
  apply (from_homogeneous_pole t 1 1 2 (/ 1000000));
    [reflexivity | reflexivity | lia].
Defined.

(* ===================================================================== *)
(** ** The layer classes *)
(* ===================================================================== *)

(** X13.  The class [RotationMatrixToQuaternion] cannot be instantiated: its
    initialiser names a class that does not exist; the nine other layers
    are constructed without error. *)
Theorem rotation_matrix_to_quaternion_layer_cannot_be_built :
  init RotationMatrixToQuaternion
  = Throw (Exn (NameError "name 'RotationMatrixToQuaterion' is not defined"))
  /\ forall l, l <> RotationMatrixToQuaternion -> init l = Return l.
Proof.
  split; [reflexivity |].
  intros l Hl; destruct l; try reflexivity; contradiction.
Qed.

Lemma rotation_matrix_to_quaternion_layer_cannot_be_built_witness :
  init RotationMatrixToQuaternion
  = Throw (Exn (NameError "name 'RotationMatrixToQuaterion' is not defined"))
  /\ init RadToDeg = Return RadToDeg.
Proof.
  split.
  - exact (proj1 rotation_matrix_to_quaternion_layer_cannot_be_built).
  - apply (proj2 rotation_matrix_to_quaternion_layer_cannot_be_built);
      discriminate.
Defined.

(** X14.  The [forward] methods of [QuaternionToAngleAxis] and of
    [RotationMatrixToQuaternion] fail on every input: each calls a
    function name that the module does not define. *)
Theorem misspelled_forward_fails (input : pyobj) :
  forward QuaternionToAngleAxis [input]
  = Throw (Exn (NameError "name 'quaterion_to_angle_axis' is not defined"))
  /\ forward RotationMatrixToQuaternion [input]
     = Throw (Exn (NameError
                     "name 'rotation_matrix_to_quaterion' is not defined")).
Proof.
  split; unfold forward, call_global, lookup_name; cbn [forward_callee];
    cbn [lookup_local String.eqb Ascii.eqb Bool.eqb class_name];
    reflexivity.
Qed.

(** X15.  The eight other layers run the function of their name: [forward]
    returns what the function returns, and fails as it fails. *)
Theorem forward_delegates (input other : pyobj) :
  forward RadToDeg [input] = as_object (rad2deg input)
  /\ forward DegToRad [input] = as_object (deg2rad input)
  /\ forward ConvertPointsFromHomogeneous [input]
     = as_object (convert_points_from_homogeneous input default_eps)
  /\ forward ConvertPointsToHomogeneous [input]
     = as_object (convert_points_to_homogeneous input)
  /\ forward TransformPoints [input; other]
     = as_object (transform_points input other)
  /\ forward AngleAxisToRotationMatrix [input]
     = lift (angle_axis_to_rotation_matrix input)
  /\ forward RotationMatrixToAngleAxis [input]
     = lift (rotation_matrix_to_angle_axis input)
  /\ forward RtvecToPose [input] = rtvec_to_pose input.
Proof.
  repeat split;
    unfold forward, call_global, lookup_name; cbn [forward_callee];
    cbn [lookup_local String.eqb Ascii.eqb Bool.eqb class_name];
    reflexivity.
Qed.

(* ===================================================================== *)
(** ** The matrix of the reference path *)
(* ===================================================================== *)

Section RodriguesAlgebra.

Local Open Scope R_scope.

Variables wx wy wz c s : R.
Hypothesis unit_axis : wx * wx + wy * wy + wz * wz = 1.
Hypothesis unit_circle : c * c + s * s = 1.

(** The Rodrigues matrix of a unit axis is orthonormal with determinant
    one. *)
Lemma rodrigues_is_rotation :
  is_rotation (c + wx * wx * (1 - c)) (wx * wy * (1 - c) - wz * s)
              (wy * s + wx * wz * (1 - c))
              (wz * s + wx * wy * (1 - c)) (c + wy * wy * (1 - c))
              (- wx * s + wy * wz * (1 - c))
              (- wy * s + wx * wz * (1 - c)) (wx * s + wy * wz * (1 - c))
              (c + wz * wz * (1 - c)).
Proof.
  unfold is_rotation; repeat split; nsatz.
Qed.

End RodriguesAlgebra.

Section ReferenceMatrix.

Local Open Scope R_scope.

Variables x y z : R.
Let theta2 := x * x + (y * y + (z * z + 0)).
Let theta := sqrt theta2.

Lemma first_order_rotation_iff :
  is_rotation 1 (- z) y z 1 (- x) (- y) x 1 <-> x = 0 /\ y = 0 /\ z = 0.
Proof.
  unfold is_rotation; split.
  - intros (H0 & H1 & _).
    assert (Hy : y * y = 0) by nra.
    assert (Hz : z * z = 0) by nra.
    assert (Hx : x * x = 0) by nra.
    repeat split; apply Rsqr_0_uniq; unfold Rsqr; assumption.
  - intros (-> & -> & ->); repeat split; ring.
Qed.

Lemma reference_matrix_rotation_iff :
  exists r00 r01 r02 r10 r11 r12 r20 r21 r22 : R,
    angle_axis_to_rotation_matrix_numpy (Vec [Fin x; Fin y; Fin z])
    = Ok (Mat 4 4 (mat4 r00 r01 r02 r10 r11 r12 r20 r21 r22
                        (Fin 0) (Fin 0) (Fin 0) (Fin 0) (Fin 0) (Fin 0)
                        (Fin 1)))
    /\ (is_rotation r00 r01 r02 r10 r11 r12 r20 r21 r22
        <-> / 8388608 < x * x + y * y + z * z \/ (x = 0 /\ y = 0 /\ z = 0)).
Proof.
  destruct (Rlt_dec (/ 8388608) theta2) as [H | H].
  - pose proof (numpy_row_normal x y z H) as E.
    fold theta2 in E; fold theta in E.
    unfold rodrigues in E.
    do 9 eexists; split; [exact E |].
    split; [intros _; left; unfold theta2 in H; lra | intros _].
    apply rodrigues_is_rotation.
    + apply (unit_axis_of x y z); fold theta2; lra.
    + rewrite Rplus_comm; apply sin2_cos2.
  - pose proof (numpy_taylor x y z ltac:(unfold theta2 in H; lra)) as E.
    do 9 eexists; split; [exact E |].
    rewrite first_order_rotation_iff.
    split; [intros H0; right; exact H0 |].
    intros [H0 | H0]; [unfold theta2 in H; lra | exact H0].
Qed.

Lemma reference_matrix_fixes_axis :
  exists r00 r01 r02 r10 r11 r12 r20 r21 r22 : R,
    angle_axis_to_rotation_matrix_numpy (Vec [Fin x; Fin y; Fin z])
    = Ok (Mat 4 4 (mat4 r00 r01 r02 r10 r11 r12 r20 r21 r22
                        (Fin 0) (Fin 0) (Fin 0) (Fin 0) (Fin 0) (Fin 0)
                        (Fin 1)))
    /\ r00 * x + r01 * y + r02 * z = x
    /\ r10 * x + r11 * y + r12 * z = y
    /\ r20 * x + r21 * y + r22 * z = z.
Proof.
  destruct (Rlt_dec (/ 8388608) theta2) as [H | H].
  - pose proof (numpy_row_normal x y z H) as E.
    fold theta2 in E; fold theta in E.
    unfold rodrigues in E.
    do 9 eexists; split; [exact E |].
    assert (Hpos : 0 < theta2) by lra.
    assert (Hn : theta <> 0) by (apply sqrt_pos_ne; exact Hpos).
    pose proof (unit_axis_of x y z Hpos) as U.
    fold theta2 in U; fold theta in U.
    set (wx := x / theta) in *.
    set (wy := y / theta) in *.
    set (wz := z / theta) in *.
    assert (Hx : x = theta * wx) by (unfold wx; field; exact Hn).
    assert (Hy : y = theta * wy) by (unfold wy; field; exact Hn).
    assert (Hz : z = theta * wz) by (unfold wz; field; exact Hn).
    clearbody wx wy wz.
    rewrite Hx, Hy, Hz.
    repeat split; nsatz.
  - pose proof (numpy_taylor x y z ltac:(unfold theta2 in H; lra)) as E.
    do 9 eexists; split; [exact E |].
    repeat split; ring.
Qed.

End ReferenceMatrix.




(* ===================================================================== *)
(** ** Quaternion to axis-angle: range and scale *)
(* ===================================================================== *)

Section AngleRange.

Local Open Scope R_scope.

(** With a non-negative abscissa the arctangent lies in [-PI/2, PI/2]. *)
Lemma Ratan2_right_half (y x : R) :
  0 <= x -> - (PI / 2) <= Fl.Ratan2 y x <= PI / 2.
Proof.
  intros Hx; pose proof PI_RGT_0 as Hpi.
  unfold Fl.Ratan2; rdec; try lra.
  pose proof (atan_bound (y / x)); lra.
Qed.

Variables w x y z : R.
Let N := w * w + (x * x + (y * y + (z * z + 0))).
Hypothesis N_pos : 0 < N.

Let n := sqrt N.
Let s2 := x * (1 / n) * (x * (1 / n)) + y * (1 / n) * (y * (1 / n))
          + z * (1 / n) * (z * (1 / n)).
Let s := sqrt s2.

Lemma n_positive : 0 < n.
Proof. apply sqrt_lt_R0; exact N_pos. Qed.

Lemma n_square : N = n * n.
Proof. symmetry; apply sqrt_sqrt; lra. Qed.

Lemma s2_is_nonneg : 0 <= s2.
Proof. unfold s2; nra. Qed.

Lemma s_square : s2 = s * s.
Proof. symmetry; apply sqrt_sqrt; exact s2_is_nonneg. Qed.

Lemma scaled_squares (k : R) :
  x * (1 / n) * k * (x * (1 / n) * k) + y * (1 / n) * k * (y * (1 / n) * k)
  + z * (1 / n) * k * (z * (1 / n) * k) = s2 * (k * k).
Proof. unfold s2; ring. Qed.

Lemma half_angle_squares (A : R) :
  0 < s -> - (PI / 2) <= A <= PI / 2 ->
  s2 * (2 * A / s * (2 * A / s)) <= PI * PI.
Proof.
  intros Hs HA.
  rewrite s_square.
  replace (s * s * (2 * A / s * (2 * A / s))) with (4 * (A * A))
    by (field; lra).
  pose proof PI_RGT_0; nra.
Qed.

Lemma reference_angle_range :
  exists a b c : R,
    quaternion_to_angle_axis_numpy (Vec [Fin w; Fin x; Fin y; Fin z])
    = Ok (Vec [Fin a; Fin b; Fin c])
    /\ a * a + b * b + c * c <= PI * PI.
Proof.
  pose proof n_positive as Hn.
  pose proof s2_is_nonneg as Hs2.
  destruct (Rle_lt_dec s2 0) as [Hz | Hp].
  - pose proof (numpy_quat_zero w x y z N_pos) as E.
    fold N in E; fold n in E; fold s2 in E.
    rewrite (E Hz).
    do 3 eexists; split; [reflexivity |].
    rewrite (scaled_squares 2).
    pose proof PI_RGT_0; nra.
  - assert (Hs : 0 < s) by (apply sqrt_lt_R0; exact Hp).
    assert (Hss : 0 < s * s) by nra.
    destruct (Rlt_dec (w * (1 / n)) 0) as [Hc | Hc].
    + rewrite (numpy_eval_neg w x y z n s Hn n_square (Rlt_le _ _ Hs)
                              s_square Hss Hc).
      do 3 eexists; split; [reflexivity |].
      rewrite scaled_squares.
      apply half_angle_squares; [exact Hs |].
      apply Ratan2_right_half; lra.
    + rewrite (numpy_eval_pos w x y z n s Hn n_square (Rlt_le _ _ Hs)
                              s_square Hss ltac:(lra)).
      do 3 eexists; split; [reflexivity |].
      rewrite scaled_squares.
      apply half_angle_squares; [exact Hs |].
      apply Ratan2_right_half; lra.
Qed.

End AngleRange.



Section Scale.

Local Open Scope R_scope.

Variables w x y z k : R.
Let N := w * w + (x * x + (y * y + (z * z + 0))).
Let N' := k * w * (k * w) + (k * x * (k * x) + (k * y * (k * y)
          + (k * z * (k * z) + 0))).
Hypothesis N_pos : 0 < N.
Hypothesis k_pos : 0 < k.

Lemma scaled_norm_pos : 0 < N'.
Proof.
  replace N' with (k * k * N) by (unfold N, N'; ring).
  apply Rmult_lt_0_compat; [nra | exact N_pos].
Qed.

Lemma scaled_normalizer : 1 / sqrt N' = / k * (1 / sqrt N).
Proof.
  replace N' with (k * k * N) by (unfold N, N'; ring).
  rewrite sqrt_mult by nra.
  rewrite sqrt_square by lra.
  field; split; [apply sqrt_pos_ne; exact N_pos | lra].
Qed.

Lemma scaled_part (a : R) :
  k * a * (1 / sqrt N') = a * (1 / sqrt N).
Proof.
  rewrite scaled_normalizer; field.
  split; [apply sqrt_pos_ne; exact N_pos | lra].
Qed.

Lemma scaled_quaternion_same :
  quaternion_to_angle_axis_numpy
    (Vec [Fin (k * w); Fin (k * x); Fin (k * y); Fin (k * z)])
  = quaternion_to_angle_axis_numpy (Vec [Fin w; Fin x; Fin y; Fin z])
  /\ quaternion_to_angle_axis_row default_eps
       [Fin (k * w); Fin (k * x); Fin (k * y); Fin (k * z)]
     = quaternion_to_angle_axis_row default_eps [Fin w; Fin x; Fin y; Fin z].
Proof.
  split.
  - rewrite (numpy_quat_start (k * w) (k * x) (k * y) (k * z) scaled_norm_pos).
    rewrite (numpy_quat_start w x y z N_pos).
    fold N N'.
    rewrite !scaled_part; reflexivity.
  - rewrite (quat_row_start (k * w) (k * x) (k * y) (k * z) scaled_norm_pos).
    rewrite (quat_row_start w x y z N_pos).
    fold N N'.
    rewrite !scaled_part; reflexivity.
Qed.

End Scale.



(* ===================================================================== *)
(** ** The composite converter *)
(* ===================================================================== *)

(** X21.  [rotation_matrix_to_angle_axis] reports an unsupported type as the
    matrix-to-quaternion dispatcher does, and never raises [NameError]:
    the quaternion it passes on is an array or a tensor, so that the
    faulty branch of [quaternion_to_angle_axis] is not reached. *)
Theorem composite_never_name_error :
  (forall c,
     rotation_matrix_to_angle_axis (PyOther c)
     = Raise (NotImplementedError ("Not suported type <class '" ++ c ++ "'>")))
  /\ forall x msg, rotation_matrix_to_angle_axis x <> Raise (NameError msg).
Proof.
  split; [reflexivity |].
  intros x msg.
  unfold rotation_matrix_to_angle_axis, rotation_matrix_to_quaternion.
  destruct x as [[v | nr nc d] | t | c]; cbn [bind]; try discriminate.
  - unfold rotation_matrix_to_quaternion_numpy.
    destruct ((nr <? 3) || (nc <? 3))%nat; cbn [bind]; [discriminate |].
    match goal with
    | |- context [Vec ?l] => generalize l; intros q
    end.
    unfold quaternion_to_angle_axis, quaternion_to_angle_axis_numpy.
    destruct (negb (List.length q =? 4)%nat); cbn [bind]; [discriminate |].
    match goal with
    | |- context [if ?b then _ else _] => destruct b
    end; discriminate.
  - destruct (negb ((List.length (tshape t) =? 3)%nat
                    && (nth 1 (tshape t) 0 =? 4)%nat));
      [discriminate |].
    unfold rotation_matrix_to_quaternion_torch.
    destruct ((nth 1 (tshape t) 0 <? 3) || (nth 2 (tshape t) 0 <? 3))%nat;
      cbn [bind]; [discriminate |].
    unfold quaternion_to_angle_axis, quaternion_to_angle_axis_torch.
    cbn [tshape List.length nth Nat.eqb andb negb bind]; discriminate.
Qed.

(* ===================================================================== *)
(** ** The rotation of a pose *)
(* ===================================================================== *)

Lemma chunks_uniform (g : nat -> list scalar) (w : nat) (l : list nat) :
  (forall i, List.length (g i) = w) ->
  chunks (List.length l) w (flat_map g l) = map g l.
Proof.
  intros Hw; induction l as [| a l IH]; [reflexivity |].
  cbn [List.length chunks flat_map map].
  assert (Hf : firstn w (g a ++ flat_map g l) = g a).
  { rewrite <- (Hw a).
    rewrite firstn_app, firstn_all, Nat.sub_diag, firstn_O, app_nil_r.
    reflexivity. }
  assert (Hs : skipn w (g a ++ flat_map g l) = flat_map g l).
  { rewrite <- (Hw a).
    rewrite skipn_app, skipn_all, Nat.sub_diag, skipn_O.
    reflexivity. }
  rewrite Hf, Hs, IH; reflexivity.
Qed.

Lemma quaternion_of_batch (p : tensor) (N : nat) :
  tshape p = [N; 4; 4]%nat ->
  rotation_matrix_to_quaternion (Tensor p)
  = Ok (Tensor (mkTensor [N; 4]%nat
                  (flat_map (rotation_matrix_to_quaternion_elem default_eps 4)
                            (mats p)))).
Proof.
  intros Hs.
  unfold rotation_matrix_to_quaternion, rotation_matrix_to_quaternion_torch.
  rewrite Hs; reflexivity.
Qed.

Section PoseRotation.

Variable t : tensor.
Variable N : nat.
Hypothesis shape_t : tshape t = [N; 6%nat].

Let rot (b : nat) : list scalar := [at_last t b 0; at_last t b 1; at_last t b 2].

Let entry (b i j : nat) : scalar :=
  if ((i <? 3) && (j =? 3))%nat then at_last t b (3 + i)
  else item (angle_axis_to_rotation_matrix_row default_eps (rot b))
            (i * 4 + j).

Lemma pose_matrices :
  mats (tabulate3 N 4 4 entry) = map (fun b => table 4 4 (entry b)) (seq 0 N).
Proof.
  unfold mats, tabulate3; cbn [tshape tdata nth].
  pose proof (chunks_uniform (fun b => table 4 4 (entry b)) (4 * 4) (seq 0 N))
    as H.
  rewrite length_seq in H; apply H.
  intros i; apply table_length.
Qed.

Lemma rotation_matrices :
  mats (mkTensor [N; 4; 4]%nat
          (flat_map (fun b => angle_axis_to_rotation_matrix_row default_eps
                                (rot b)) (seq 0 N)))
  = map (fun b => angle_axis_to_rotation_matrix_row default_eps (rot b))
        (seq 0 N).
Proof.
  unfold mats; cbn [tshape tdata nth].
  pose proof (chunks_uniform
                (fun b => angle_axis_to_rotation_matrix_row default_eps (rot b))
                (4 * 4) (seq 0 N)) as H.
  rewrite length_seq in H; apply H.
  intros i; apply angle_axis_row_width.
Qed.

(** The quaternion of a pose matrix reads its rotation block only. *)
Lemma quaternion_of_pose_matrix (b : nat) :
  rotation_matrix_to_quaternion_elem default_eps 4 (table 4 4 (entry b))
  = rotation_matrix_to_quaternion_elem default_eps 4
      (angle_axis_to_rotation_matrix_row default_eps (rot b)).
Proof.
  unfold rotation_matrix_to_quaternion_elem, table, entry, item.
  cbn [seq flat_map map app nth Nat.mul Nat.add Nat.ltb Nat.leb Nat.eqb andb].
  reflexivity.
Qed.

Lemma quaternion_of_pose :
  (p <-- rtvec_to_pose (Tensor t) ;; lift (rotation_matrix_to_quaternion p))
  = lift (m <- angle_axis_to_rotation_matrix
                 (Tensor (slice_last t None (Some 3%Z))) ;;
          rotation_matrix_to_quaternion m).
Proof.
  rewrite (rtvec_to_pose_tensor t N shape_t); cbn [and_then].
  rewrite (rtvec_rotation_part t N shape_t).
  unfold angle_axis_to_rotation_matrix.
  cbn [tabulate_last tshape app List.length nth Nat.eqb andb negb bind].
  fold (tabulate_last [N] 3 (fun o j => at_last t o j)).
  rewrite (rtvec_rotation_matrices t N).
  change (lift (rotation_matrix_to_quaternion
                  (Tensor (tabulate3 N 4 4 entry)))
          = lift (rotation_matrix_to_quaternion
                    (Tensor (mkTensor [N; 4; 4]%nat
                       (flat_map
                          (fun b => angle_axis_to_rotation_matrix_row
                                      default_eps (rot b))
                          (seq 0 N)))))).
  rewrite (quaternion_of_batch (tabulate3 N 4 4 entry) N eq_refl).
  rewrite (quaternion_of_batch
             (mkTensor [N; 4; 4]%nat
                (flat_map (fun b => angle_axis_to_rotation_matrix_row
                                      default_eps (rot b))
                          (seq 0 N))) N eq_refl).
  rewrite pose_matrices, rotation_matrices.
  assert (E : flat_map (rotation_matrix_to_quaternion_elem default_eps 4)
                       (map (fun b => table 4 4 (entry b)) (seq 0 N))
              = flat_map (rotation_matrix_to_quaternion_elem default_eps 4)
                         (map (fun b => angle_axis_to_rotation_matrix_row
                                          default_eps (rot b)) (seq 0 N))).
  { rewrite !flat_map_concat_map, !map_map.
    apply (f_equal (@List.concat scalar)).
    apply map_ext; intros b; apply quaternion_of_pose_matrix. }
  rewrite E; reflexivity.
Qed.

End PoseRotation.

(** X12.  The translation of a pose plays no part in its rotation: on the pose
    that [rtvec_to_pose] builds from a tensor of shape (N, 6), the
    matrix-to-quaternion converter and the matrix-to-axis-angle converter
    return what they return on the rotation matrices alone. *)
Theorem pose_translation_ignored (t : tensor) (N : nat) :
  tshape t = [N; 6%nat] ->
  (p <-- rtvec_to_pose (Tensor t) ;; lift (rotation_matrix_to_quaternion p))
  = lift (m <- angle_axis_to_rotation_matrix
                 (Tensor (slice_last t None (Some 3%Z))) ;;
          rotation_matrix_to_quaternion m)
  /\ (p <-- rtvec_to_pose (Tensor t) ;; lift (rotation_matrix_to_angle_axis p))
     = lift (m <- angle_axis_to_rotation_matrix
                    (Tensor (slice_last t None (Some 3%Z))) ;;
             rotation_matrix_to_angle_axis m).
Proof.
  intros Hs.
  pose proof (quaternion_of_pose t N Hs) as Q.
  split; [exact Q |].
  unfold rotation_matrix_to_angle_axis.
  destruct (rtvec_to_pose (Tensor t)) as [p | e];
    destruct (angle_axis_to_rotation_matrix
                (Tensor (slice_last t None (Some 3%Z)))) as [m | e'];
    cbn [and_then bind lift] in *.
  - destruct (rotation_matrix_to_quaternion p) as [q | e1];
      destruct (rotation_matrix_to_quaternion m) as [q' | e2];
      cbn [lift bind] in *; congruence.
  - destruct (rotation_matrix_to_quaternion p);
      cbn [lift bind] in *; congruence.
  - destruct (rotation_matrix_to_quaternion m);
      cbn [lift bind] in *; congruence.
  - exact Q.
Qed.

Lemma pose_translation_ignored_witness :
  let t := mkTensor [1; 6]%nat [Fin 0; Fin 0; Fin 0; Fin 1; Fin 2; Fin 3] in
  (p <-- rtvec_to_pose (Tensor t) ;; lift (rotation_matrix_to_quaternion p))
  = lift (m <- angle_axis_to_rotation_matrix
                 (Tensor (slice_last t None (Some 3%Z))) ;;
          rotation_matrix_to_quaternion m)
  /\ (p <-- rtvec_to_pose (Tensor t) ;; lift (rotation_matrix_to_angle_axis p))
     = lift (m <- angle_axis_to_rotation_matrix
                    (Tensor (slice_last t None (Some 3%Z))) ;;
             rotation_matrix_to_angle_axis m).
Proof.
  intros t; apply (pose_translation_ignored t 1); reflexivity.
Defined.

(* ===================================================================== *)
(** ** The round trip on the reference path *)
(* ===================================================================== *)

Section HalfAngleQuaternion.

Local Open Scope R_scope.

(** A unit axis, and the sine and cosine of the angle and of its half. *)
Variables ux uy uz S C c s : R.
Hypothesis unit_axis : ux * ux + uy * uy + uz * uz = 1.
Hypothesis half_circle : C * C + S * S = 1.
Hypothesis cos_double : c = 1 - 2 * (S * S).
Hypothesis sin_double : s = 2 * (S * C).
Hypothesis S_pos : 0 < S.
Hypothesis C_pos : 0 < C.

Lemma double_circle : c * c + s * s = 1.
Proof. nsatz. Qed.

(** A component over the root of its pivot, halved. *)
Lemma pivot_entry (p t r q : R) :
  0 < r -> t = r * r -> p = 2 * r * q -> p / sqrt t * (1 / 2) = q.
Proof.
  intros Hr -> ->.
  rewrite sqrt_square by lra.
  field; lra.
Qed.

Ltac pivot_case sg r :=
  exists sg; split; [lra |];
  do 2 f_equal;
  fin_list ltac:(apply (pivot_entry _ _ r); [nra | nsatz | nsatz]).

(** The reference path on a Rodrigues matrix returns the half-angle
    quaternion or its opposite. *)
Lemma rodrigues_quaternion :
  exists sg : R,
    (sg = 1 \/ sg = -1)
    /\ rotation_matrix_to_quaternion_numpy
         (Mat 4 4 (rodrigues ux uy uz c s))
       = Ok (Vec [ Fin (sg * C); Fin (sg * (S * ux)); Fin (sg * (S * uy));
                   Fin (sg * (S * uz)) ]).
Proof.
  pose proof (rodrigues_is_rotation ux uy uz c s unit_axis double_circle)
    as rot.
  unfold rodrigues.
  destruct (numpy_quaternion_rot _ _ _ _ _ _ _ _ _
              (Fin 0) (Fin 0) (Fin 0) (Fin 0) (Fin 0) (Fin 0) (Fin 1) rot)
    as [(Ht & E) | [(Ht & E) | [(Ht & E) | (Ht & E)]]];
    rewrite E; clear E.
  - pivot_case 1 (2 * C).
  - assert (Hu : ux <> 0).
    { intros ->.
      replace (1 + (c + 0 * 0 * (1 - c)) - (c + uy * uy * (1 - c))
               - (c + uz * uz * (1 - c)))
        with ((1 - c) * (1 - (uy * uy + uz * uz))) in Ht by ring.
      replace (uy * uy + uz * uz) with 1 in Ht by lra.
      lra. }
    destruct (Rlt_dec 0 ux) as [Hp | Hn].
    + pivot_case 1 (2 * S * ux).
    + pivot_case (-1) (2 * S * - ux).
  - assert (Hu : uy <> 0).
    { intros ->.
      replace (1 - (c + ux * ux * (1 - c)) + (c + 0 * 0 * (1 - c))
               - (c + uz * uz * (1 - c)))
        with ((1 - c) * (1 - (ux * ux + uz * uz))) in Ht by ring.
      replace (ux * ux + uz * uz) with 1 in Ht by lra.
      lra. }
    destruct (Rlt_dec 0 uy) as [Hp | Hn].
    + pivot_case 1 (2 * S * uy).
    + pivot_case (-1) (2 * S * - uy).
  - assert (Hu : uz <> 0).
    { intros ->.
      replace (1 - (c + ux * ux * (1 - c)) - (c + uy * uy * (1 - c))
               + (c + 0 * 0 * (1 - c)))
        with ((1 - c) * (1 - (ux * ux + uy * uy))) in Ht by ring.
      replace (ux * ux + uy * uy) with 1 in Ht by lra.
      lra. }
    destruct (Rlt_dec 0 uz) as [Hp | Hn].
    + pivot_case 1 (2 * S * uz).
    + pivot_case (-1) (2 * S * - uz).
Qed.

End HalfAngleQuaternion.

Section HalfAngleVector.

Local Open Scope R_scope.

Variables ux uy uz alpha : R.
Hypothesis unit_axis : ux * ux + uy * uy + uz * uz = 1.
Hypothesis alpha_range : 0 < alpha < PI / 2.

Let S := sin alpha.
Let C := cos alpha.

Lemma half_sine_pos : 0 < S.
Proof. apply sin_gt_0; pose proof PI_RGT_0; lra. Qed.

Lemma half_cosine_pos : 0 < C.
Proof. apply cos_gt_0; lra. Qed.

Lemma half_circle_eq : C * C + S * S = 1.
Proof.
  unfold S, C; pose proof (sin2_cos2 alpha) as H; unfold Rsqr in H; lra.
Qed.

Lemma half_arctangent : atan (S / C) = alpha.
Proof.
  change (S / C) with (tan alpha); apply atan_tan; lra.
Qed.

(** The half-angle quaternion and its opposite give the same vector: the
    axis times the angle. *)
Lemma half_angle_vector (sg : R) :
  sg = 1 \/ sg = -1 ->
  quaternion_to_angle_axis_numpy
    (Vec [ Fin (sg * C); Fin (sg * (S * ux)); Fin (sg * (S * uy));
           Fin (sg * (S * uz)) ])
  = Ok (Vec [ Fin (2 * alpha * ux); Fin (2 * alpha * uy);
              Fin (2 * alpha * uz) ]).
Proof.
  intros Hsg.
  pose proof half_sine_pos as HS.
  pose proof half_cosine_pos as HC.
  pose proof half_circle_eq as Hc.
  assert (Hsg2 : sg * sg = 1) by (destruct Hsg as [-> | ->]; ring).
  assert (Hn : sg * C * (sg * C)
               + (sg * (S * ux) * (sg * (S * ux))
                  + (sg * (S * uy) * (sg * (S * uy))
                     + (sg * (S * uz) * (sg * (S * uz)) + 0))) = 1 * 1)
    by nsatz.
  assert (Hq : sg * (S * ux) * (1 / 1) * (sg * (S * ux) * (1 / 1))
               + sg * (S * uy) * (1 / 1) * (sg * (S * uy) * (1 / 1))
               + sg * (S * uz) * (1 / 1) * (sg * (S * uz) * (1 / 1)) = S * S)
    by (unfold Rdiv; rewrite Rinv_1; nsatz).
  destruct Hsg as [-> | ->].
  - rewrite (numpy_eval_pos _ _ _ _ 1 S Rlt_0_1 Hn (Rlt_le _ _ HS) Hq)
      by nra.
    assert (Ha : Fl.Ratan2 S (1 * C * (1 / 1)) = alpha).
    { unfold Fl.Ratan2.
      destruct (Rlt_dec 0 (1 * C * (1 / 1))) as [_ | Hx]; [| exfalso; lra].
      replace (S / (1 * C * (1 / 1))) with (S / C) by (field; lra).
      apply half_arctangent. }
    rewrite Ha.
    do 2 f_equal; fin_list ltac:(field; lra).
  - rewrite (numpy_eval_neg _ _ _ _ 1 S Rlt_0_1 Hn (Rlt_le _ _ HS) Hq)
      by nra.
    assert (Ha : Fl.Ratan2 (- S) (- (-1 * C * (1 / 1))) = - alpha).
    { unfold Fl.Ratan2.
      destruct (Rlt_dec 0 (- (-1 * C * (1 / 1)))) as [_ | Hx];
        [| exfalso; lra].
      replace (- S / - (-1 * C * (1 / 1))) with (- (S / C)) by (field; lra).
      rewrite atan_opp, half_arctangent; reflexivity. }
    rewrite Ha.
    do 2 f_equal; fin_list ltac:(field; lra).
Qed.

End HalfAngleVector.

Section ReferenceRoundTripGeneral.

Local Open Scope R_scope.

Variables x y z : R.
Let theta2 := x * x + (y * y + (z * z + 0)).
Let theta := sqrt theta2.
Hypothesis above_threshold : / 8388608 < theta2.
Hypothesis below_pi : theta2 < PI * PI.

Lemma theta_range : 0 < theta < PI.
Proof.
  pose proof PI_RGT_0 as Hpi.
  split.
  - apply sqrt_lt_R0; lra.
  - unfold theta.
    rewrite <- (sqrt_square PI) by lra.
    apply sqrt_lt_1_alt; lra.
Qed.

Lemma reference_round_trip_general :
  (m <- angle_axis_to_rotation_matrix (NdArray (Vec [Fin x; Fin y; Fin z])) ;;
   rotation_matrix_to_angle_axis m)
  = Ok (NdArray (Vec [Fin x; Fin y; Fin z])).
Proof.
  pose proof theta_range as [Ht0 Ht1].
  assert (Hpos : 0 < theta2) by lra.
  assert (Hn : theta <> 0) by lra.
  pose proof (unit_axis_of x y z Hpos) as U.
  fold theta2 in U; fold theta in U.
  assert (Ha : 0 < theta / 2 < PI / 2) by lra.
  unfold angle_axis_to_rotation_matrix.
  rewrite (numpy_row_normal x y z above_threshold); cbn [bind].
  fold theta2; fold theta.
  destruct (rodrigues_quaternion (x / theta) (y / theta) (z / theta)
              (sin (theta / 2)) (cos (theta / 2)) (cos theta) (sin theta))
    as (sg & Hsg & E).
  - exact U.
  - apply half_circle_eq.
  - rewrite <- Rmult_assoc, <- cos_2a_sin; f_equal; field.
  - rewrite <- Rmult_assoc, <- sin_2a; f_equal; field.
  - apply half_sine_pos; exact Ha.
  - apply half_cosine_pos; exact Ha.
  - unfold rotation_matrix_to_angle_axis, rotation_matrix_to_quaternion.
    rewrite E; cbn [bind].
    unfold quaternion_to_angle_axis.
    rewrite (half_angle_vector _ _ _ (theta / 2) U Ha sg Hsg); cbn [bind].
    do 3 f_equal; fin_list ltac:(field; exact Hn).
Qed.

End ReferenceRoundTripGeneral.

(** X22.  The round trip on the reference path: for every vector of numbers
    whose norm lies between the threshold and PI (2^-23 < |v|^2 < PI^2),
    axis-angle to matrix to axis-angle returns the vector itself. *)
Theorem reference_round_trip (x y z : R) :
  (/ 8388608 < x * x + y * y + z * z)%R ->
  (x * x + y * y + z * z < PI * PI)%R ->
  (m <- angle_axis_to_rotation_matrix (NdArray (Vec [Fin x; Fin y; Fin z])) ;;
   rotation_matrix_to_angle_axis m)
  = Ok (NdArray (Vec [Fin x; Fin y; Fin z])).
Proof.
  intros H0 H1; apply reference_round_trip_general; lra.
Qed.

Lemma reference_round_trip_witness :
  (m <- angle_axis_to_rotation_matrix (NdArray (Vec [Fin 1; Fin 1; Fin 1])) ;;
   rotation_matrix_to_angle_axis m)
  = Ok (NdArray (Vec [Fin 1; Fin 1; Fin 1])).
Proof.
  apply (reference_round_trip 1 1 1); [lra |].
  pose proof PI2_3_2 as H; pose proof PI_RGT_0; nra.
Defined.

(* ===================================================================== *)
(** ** Quaternions without a vector part on the batched path *)
(* ===================================================================== *)

(** The zero quaternion: its norm is 0, the normalizer is infinite, and
    every normalized component is 0 * inf. *)
Lemma zero_quaternion_row :
  quaternion_to_angle_axis_row default_eps [Fin 0; Fin 0; Fin 0; Fin 0]
  = [NaN; NaN; NaN].
Proof.
  unfold quaternion_to_angle_axis_row, norm, item, lit.
  cbn [nth].
  change (sum_sq [Fin 0; Fin 0; Fin 0; Fin 0])
    with (Fin (0 * 0 + (0 * 0 + (0 * 0 + (0 * 0 + 0))))).
  replace (0 * 0 + (0 * 0 + (0 * 0 + (0 * 0 + 0))))%R with 0%R by ring.
  rewrite FlFacts.sqrt_Fin by lra.
  rewrite sqrt_0.
  assert (I1 : Fin 1 / Fin 0 = PInf).
  { unfold Fl.div.
    destruct (Req_dec_T 0 0) as [_ | E]; [| exfalso; apply E; reflexivity].
    unfold Fl.signed_inf; rdec; reflexivity. }
  assert (Z0 : Fin 0 * PInf = NaN).
  { cbn [Fl.mul]; unfold Fl.signed_inf; rdec; reflexivity. }
  rewrite I1, Z0; reflexivity.
Qed.

(** X24.  On the batched path a quaternion without vector part is never
    converted: (w, 0, 0, 0) gives three not-a-numbers for every number w,
    the identity (w = 1), its opposite, any multiple of them and the zero
    quaternion alike. *)
Theorem batched_scalar_quaternion_not_a_number (w : R) :
  quaternion_to_angle_axis_row default_eps [Fin w; Fin 0; Fin 0; Fin 0]
  = [NaN; NaN; NaN]
  /\ quaternion_to_angle_axis
       (Tensor (mkTensor [1; 4]%nat [Fin w; Fin 0; Fin 0; Fin 0]))
     = Ok (Tensor (mkTensor [1; 3]%nat [NaN; NaN; NaN])).
Proof.
  assert (Row : quaternion_to_angle_axis_row default_eps
                  [Fin w; Fin 0; Fin 0; Fin 0] = [NaN; NaN; NaN]).
  { destruct (Req_dec w 0) as [-> | Hw]; [exact zero_quaternion_row |].
    assert (HN : (0 < w * w + (0 * 0 + (0 * 0 + (0 * 0 + 0))))%R) by nra.
    apply (torch_quat_zero w 0 0 0 HN); ring. }
  split; [exact Row |].
  unfold quaternion_to_angle_axis, quaternion_to_angle_axis_torch.
  cbn [tshape tdata List.length nth Nat.eqb andb negb rows chunks firstn
       skipn flat_map bind].
  rewrite Row; reflexivity.
Qed.

(* ===================================================================== *)
(** ** The matrix of the batched path is a rotation only by accident *)
(* ===================================================================== *)

Section Orthogonality.

Local Open Scope R_scope.

(** A rotation matrix preserves the length of every vector. *)
Lemma rotation_preserves_length
      (r00 r01 r02 r10 r11 r12 r20 r21 r22 a b c : R) :
  is_rotation r00 r01 r02 r10 r11 r12 r20 r21 r22 ->
  (r00 * a + r01 * b + r02 * c) * (r00 * a + r01 * b + r02 * c)
  + (r10 * a + r11 * b + r12 * c) * (r10 * a + r11 * b + r12 * c)
  + (r20 * a + r21 * b + r22 * c) * (r20 * a + r21 * b + r22 * c)
  = a * a + b * b + c * c.
Proof.
  intros (H0 & H1 & H2 & H3 & H4 & H5 & _); nsatz.
Qed.

(** The Rodrigues formula on an axis that is too short. *)
Variables wx wy wz c s : R.
Let rho2 := wx * wx + wy * wy + wz * wz.
Hypothesis short_axis : 0 < rho2 < 1.
Hypothesis unit_circle : c * c + s * s = 1.

Lemma short_axis_rotation_iff :
  is_rotation (c + wx * wx * (1 - c)) (wx * wy * (1 - c) - wz * s)
              (wy * s + wx * wz * (1 - c))
              (wz * s + wx * wy * (1 - c)) (c + wy * wy * (1 - c))
              (- wx * s + wy * wz * (1 - c))
              (- wy * s + wx * wz * (1 - c)) (wx * s + wy * wz * (1 - c))
              (c + wz * wz * (1 - c))
  <-> c = 1.
Proof.
  split.
  - intros rot.
    pose proof (rotation_preserves_length _ _ _ _ _ _ _ _ _ wx wy wz rot) as L.
    set (lam := c + (1 - c) * rho2).
    assert (E : lam * lam * rho2 = rho2).
    { unfold lam, rho2; etransitivity; [| exact L]; ring. }
    assert (Hl : lam * lam = 1).
    { apply (Rmult_eq_reg_r rho2); lra. }
    assert (Hc : c <= 1) by nra.
    destruct (Req_dec c 1) as [E1 | E1]; [exact E1 | exfalso].
    assert (Hc1 : c < 1) by lra.
    assert (Hcm : -1 <= c) by nra.
    assert (Hup : lam < 1) by (unfold lam; nra).
    assert (Hlo : -1 < lam) by (unfold lam; nra).
    nra.
  - intros ->.
    assert (Hs : s = 0) by (apply Rsqr_0_uniq; unfold Rsqr; lra).
    rewrite Hs; unfold is_rotation; repeat split; ring.
Qed.

End Orthogonality.

Section BatchedMatrix.

Local Open Scope R_scope.

Variables x y z : R.
Let theta2 := x * x + (y * y + (z * z + 0)).
Let theta := sqrt theta2.
Let e := / 1000000.

Lemma scaled_axis_short :
  e < theta2 ->
  0 < x / (theta + e) * (x / (theta + e)) + y / (theta + e) * (y / (theta + e))
      + z / (theta + e) * (z / (theta + e)) < 1.
Proof.
  intros H.
  assert (Hpos : 0 < theta2) by (unfold e in H; lra).
  assert (Ht : 0 < theta) by (apply sqrt_lt_R0; exact Hpos).
  assert (Hr : theta * theta = theta2) by (apply sqrt_sqrt; lra).
  assert (Hd : 0 < theta + e) by (unfold e; lra).
  replace (x / (theta + e) * (x / (theta + e))
           + y / (theta + e) * (y / (theta + e))
           + z / (theta + e) * (z / (theta + e)))
    with (theta * theta / ((theta + e) * (theta + e)))
    by (rewrite Hr; unfold theta2; field; lra).
  assert (Hq : 0 < (theta + e) * (theta + e)) by nra.
  split.
  - apply Rdiv_lt_0_compat; nra.
  - apply (Rmult_lt_reg_r ((theta + e) * (theta + e))); [exact Hq |].
    unfold Rdiv; rewrite Rmult_assoc, Rinv_l by lra.
    unfold e in *; nra.
Qed.

Lemma batched_matrix_rotation_iff :
  exists r00 r01 r02 r10 r11 r12 r20 r21 r22 : R,
    angle_axis_to_rotation_matrix_row default_eps [Fin x; Fin y; Fin z]
    = mat4 r00 r01 r02 r10 r11 r12 r20 r21 r22
           (Fin 0) (Fin 0) (Fin 0) (Fin 0) (Fin 0) (Fin 0) (Fin 1)
    /\ (is_rotation r00 r01 r02 r10 r11 r12 r20 r21 r22
        <-> (x = 0 /\ y = 0 /\ z = 0)
            \/ (e < theta2 /\ cos theta = 1)).
Proof.
  destruct (Rlt_dec e theta2) as [H | H].
  - pose proof (torch_row_normal x y z H) as E.
    fold theta2 in E; fold theta in E; fold e in E.
    unfold rodrigues in E.
    do 9 eexists; split; [exact E |].
    rewrite (short_axis_rotation_iff _ _ _ _ _ (scaled_axis_short H)).
    + split; [intros Hc; right; split; assumption |].
      intros [(-> & -> & ->) | (_ & Hc)]; [| exact Hc].
      exfalso; unfold theta2, e in H; lra.
    + rewrite Rplus_comm; apply sin2_cos2.
  - pose proof (torch_row_taylor x y z ltac:(unfold theta2, e in H; lra)) as E.
    do 9 eexists; split; [exact E |].
    rewrite first_order_rotation_iff.
    split; [intros H0; left; exact H0 |].
    intros [H0 | (H0 & _)]; [exact H0 | contradiction].
Qed.

End BatchedMatrix.

